(** * argetype: settings classes exposed as command-line arguments

    A shallow embedding of [argetype/__init__.py] (class [ConfigBase]):
    the introspection of a type-annotated settings class ([setup]), the
    argument-spec builder ([add_arg_format]), the synthesized callable
    ([make_call], [set_settings]), the parser assembly ([make_parser]), the
    parse-and-copy-back step ([parse_args]) and the constructor
    ([__init__]).

    - Python values are the inductive [pyval]; exceptions travel in the
      error monad [res]: one constructor of [exn] per exception class the
      program and its parser raise, and one for the exceptions of any other
      class, known by the name of the class.
    - Dictionaries whose order matters (annotations, class namespaces,
      the OrderedDict of groups) are association lists with unique keys;
      dictionaries used only through lookups (keyword dictionaries, the
      parsed Namespace, the instance dictionary) are [gmap]s.
    - The settings object is the record [ConfigBase]: the attributes the
      class manages itself, and the dictionary [attrs] of the attributes
      that [__setattr__] adds.  In Python these share the object's one
      namespace with each other and, through the class, with the methods
      of [ConfigBase]; the record keeps them apart, so it describes the
      classes whose members are named unlike the attributes and methods of
      [ConfigBase] ([proper_class]) and the objects whose settings are
      ([plain_name], [plain_attrs]).  The properties state these
      conditions where they depend on them.
    - The command-line parser is the standard library's [argparse]; its
      documented behaviour for the arguments the program registers is the
      function [ArgumentParser_parse_args].

    The first part holds the definitions, the second their properties. *)

From Stdlib Require Import ZArith String Ascii List Bool Lia.
From stdpp Require Import base option list gmap strings.

Import ListNotations.
Local Open Scope string_scope.
Local Open Scope Z_scope.

(** ** Python values *)

(** The class objects the program meets: the four primitive types, the
    marker class [inspect._empty] (the "no default" / "no annotation" value
    of a signature), and user-defined classes, known by their name (nested
    group classes are of this kind). *)
Inductive pyclass : Type :=
| Cbool | Cint | Cfloat | Cstr
| Cempty
| Cuser (name : string).

(** Values.  A float is written as the decimal [m * 10^e] that denotes it,
    in lowest terms (see [float_of_decimal]); the program does no float
    arithmetic.  [VSelf] is the reference to the settings object itself. *)
Inductive pyval : Type :=
| VNone
| VBool (b : bool)
| VInt (z : Z)
| VFloat (m e : Z)
| VStr (s : string)
| VClass (c : pyclass)
| VSelf.

#[global] Instance pyclass_eq_dec : EqDecision pyclass.
Proof. solve_decision. Defined.

#[global] Instance pyval_eq_dec : EqDecision pyval.
Proof. solve_decision. Defined.

(** [bool(v)]: None, False, zero and the empty string are falsy; class
    objects and plain objects are truthy. *)
Definition truthy (v : pyval) : bool :=
  match v with
  | VNone => false
  | VBool b => b
  | VInt z => negb (z =? 0)
  | VFloat m _ => negb (m =? 0)
  | VStr s => negb (String.eqb s "")
  | VClass _ => true
  | VSelf => true
  end.

(** [not(v)] *)
Definition py_not (v : pyval) : pyval := VBool (negb (truthy v)).

(** [v is None] and [v is bool] (identity with the singleton / the class). *)
Definition is_None (v : pyval) : bool :=
  match v with VNone => true | _ => false end.

Definition is_bool_class (v : pyval) : bool :=
  match v with VClass Cbool => true | _ => false end.

(** [isinstance(v, type)] *)
Definition is_type (v : pyval) : bool :=
  match v with VClass _ => true | _ => false end.

(** ** Exceptions and the error monad *)

Inductive exn : Type :=
| ValueError
| TypeError
| IndexError
| KeyError
| SyntaxError
| ArgumentError          (* argparse.ArgumentError *)
| SystemExit (status : Z)
| Other (name : string). (* an exception of another class, by the class's name *)

(** The name of the exception's class. *)
Definition exn_name (e : exn) : string :=
  match e with
  | ValueError => "ValueError"
  | TypeError => "TypeError"
  | IndexError => "IndexError"
  | KeyError => "KeyError"
  | SyntaxError => "SyntaxError"
  | ArgumentError => "ArgumentError"
  | SystemExit _ => "SystemExit"
  | Other name => name
  end.

Inductive res (A : Type) : Type :=
| Ok (a : A)
| Raise (e : exn).
Arguments Ok {A} a.
Arguments Raise {A} e.

#[global] Instance res_ret : MRet res := @Ok.
#[global] Instance res_bind : MBind res :=
  fun A B f m => match m with Ok a => f a | Raise e => Raise e end.

(** A loop whose body may raise: [for x in l: acc = f(acc, x)]. *)
Fixpoint foldM {A B : Type} (f : A -> B -> res A) (l : list B) (acc : A) : res A :=
  match l with
  | [] => Ok acc
  | x :: l' => acc' ← f acc x; foldM f l' acc'
  end.

(** A comprehension whose element expression may raise:
    [[f(x) for x in l]]. *)
Fixpoint mapR {A B : Type} (f : A -> res B) (l : list A) : res (list B) :=
  match l with
  | [] => Ok []
  | x :: l' => y ← f x; ys ← mapR f l'; Ok (y :: ys)
  end.

(** ** Ordered dictionaries as association lists *)

Fixpoint assoc {V : Type} (k : string) (d : list (string * V)) : option V :=
  match d with
  | [] => None
  | (k', v) :: d' => if String.eqb k k' then Some v else assoc k d'
  end.

(** [k in d] *)
Definition has_key {V : Type} (k : string) (d : list (string * V)) : bool :=
  match assoc k d with Some _ => true | None => false end.

(** [d[k] = v]: an existing key keeps its place, a new key goes last. *)
Fixpoint assoc_set {V : Type} (k : string) (v : V) (d : list (string * V))
  : list (string * V) :=
  match d with
  | [] => [(k, v)]
  | (k', v') :: d' =>
      if String.eqb k k' then (k, v) :: d' else (k', v') :: assoc_set k v d'
  end.

Definition keys {V : Type} (d : list (string * V)) : list string := map fst d.

(** ** Argument specifications *)

(** One element of [self._settings]: the tuple
    [(flag, keyword dict for parser.add_argument)]. *)
Definition spec : Type := string * gmap string pyval.

(** [ConfigBase.add_arg_format(name, default, typ, positional)] *)
Definition add_arg_format (name : string) (default typ : pyval) (positional : bool)
  : spec :=
  if is_bool_class typ then
    ("--" +:+ name,
     {[ "default" := default;
        "action" := VStr "store_const";
        "const" := py_not default ]})
  else
    ((if positional then name else "--" +:+ name),
     {[ "default" := default;
        "type" := typ ]}).

(** ** Settings classes *)

(** A nested class of the settings class (a group): its resolved type
    hints, [typing.get_type_hints(group)], and its namespace, [vars(group)]. *)
Record group_decl : Type := {
  g_hints : list (string * pyval);
  g_vars : list (string * pyval) }.

(** A member of the settings class namespace [vars(cls)]: a plain value, or
    a class defined in the class body, with its own hints and namespace. *)
Inductive member : Type :=
| Attr (v : pyval)
| Nested (g : group_decl).

(** The member as a value (what [cls_vars[p]] evaluates to). *)
Definition member_value (name : string) (m : member) : pyval :=
  match m with
  | Attr v => v
  | Nested _ => VClass (Cuser name)
  end.

(** [isinstance(cls_vars[attr], type)] *)
Definition member_is_type (m : member) : bool :=
  match m with
  | Attr v => is_type v
  | Nested _ => true
  end.

(** Hints and namespace of a class-valued member.  A class given as a
    plain value (a built-in class such as [int]) carries no annotations. *)
Definition member_class (m : member) : group_decl :=
  match m with
  | Nested g => g
  | Attr _ => {| g_hints := []; g_vars := [] |}
  end.

(** One parameter of the signature of the class's [setup] method
    ([inspect.Parameter]); a missing default or annotation is the class
    [inspect._empty]. *)
Record parameter : Type := {
  p_default : pyval;
  p_annotation : pyval }.

(** What introspection reads of a settings class [cls = type(self)]:
    [typing.get_type_hints(cls)], the members that the class body defines
    (the entries of [vars(cls)] other than the methods and the entries
    Python adds itself), and the parameters of
    [inspect.signature(self.setup)] (the bound method: without self).
    Field names are Python identifiers. *)
Record declaration : Type := {
  cls_hints : list (string * pyval);
  cls_vars : list (string * member);
  setup_parameters : list (string * parameter) }.

(** ** The settings collection *)

(** The objects an OrderedDict of groups can hold. *)
Inductive pyobj : Type :=
| OStr (s : string)
| OSpecs (l : list spec).

(** [self._settings]: a list of specs, or an OrderedDict from group name
    to specs. *)
Inductive settings_t : Type :=
| SList (l : list spec)
| SDict (d : list (string * pyobj)).

(** Unpacking one element of the iterable given to [OrderedDict(...)] into
    a key and a value: the element must itself have exactly two items.  A
    string has its characters as items; a list of specs has its specs, and
    a spec (a tuple holding a dict) cannot be hashed as a key. *)
Definition unpack_pair (o : pyobj) : res (string * pyobj) :=
  match o with
  | OStr (String a (String b EmptyString)) =>
      Ok (String a EmptyString, OStr (String b EmptyString))
  | OStr _ => Raise ValueError
  | OSpecs [_; _] => Raise TypeError
  | OSpecs _ => Raise ValueError
  end.

(** [OrderedDict(iterable)] *)
Definition OrderedDict (items : list pyobj) : res (list (string * pyobj)) :=
  foldM (fun d o => '(k, v) ← unpack_pair o; Ok (assoc_set k v d)) items [].

(** ** The settings object *)

(** The external parser (the standard library's argparse), as far as the
    program configures it. *)
Inductive action_kind : Type := Store | StoreConst | Help.

Record Action : Type := {
  option_strings : list string;     (* [] for a positional *)
  dest : string;
  kind : action_kind;
  a_default : pyval;
  a_type : pyval;                   (* None: keep the token as a string *)
  a_const : pyval;
  required : bool }.

Record ArgumentParser : Type := {
  actions : list Action;                          (* in registration order *)
  argument_groups : list (string * list Action) }.

(** An instance of a [ConfigBase] subclass.  The attributes [ConfigBase]
    itself manages are the named fields (an option is [None] until the
    attribute is first assigned); [call_params] is the parameter list of
    the [__call__] that [make_call] installs on the class; [attrs] is the
    rest of the instance dictionary, where [__setattr__] puts the settings.
    A setting named like one of the named fields would be that attribute,
    and one named like a method would hide the method: the record stands
    for the objects whose settings have other names ([plain_attrs]). *)
Record ConfigBase : Type := {
  groups : bool;
  _annotations : list (string * pyval);
  _annotation_groups : list string;
  _settings : settings_t;
  call_params : option (list string);
  parser : option ArgumentParser;
  group_parsers : option (list (string * list Action));
  settings : option (gmap string pyval);
  attrs : gmap string pyval }.

Definition set_groups (b : bool) (self : ConfigBase) : ConfigBase :=
  {| groups := b; _annotations := _annotations self;
     _annotation_groups := _annotation_groups self; _settings := _settings self;
     call_params := call_params self; parser := parser self;
     group_parsers := group_parsers self; settings := settings self;
     attrs := attrs self |}.

Definition set__annotations (a : list (string * pyval)) (self : ConfigBase) : ConfigBase :=
  {| groups := groups self; _annotations := a;
     _annotation_groups := _annotation_groups self; _settings := _settings self;
     call_params := call_params self; parser := parser self;
     group_parsers := group_parsers self; settings := settings self;
     attrs := attrs self |}.

Definition set__annotation_groups (g : list string) (self : ConfigBase) : ConfigBase :=
  {| groups := groups self; _annotations := _annotations self;
     _annotation_groups := g; _settings := _settings self;
     call_params := call_params self; parser := parser self;
     group_parsers := group_parsers self; settings := settings self;
     attrs := attrs self |}.

Definition set__settings (s : settings_t) (self : ConfigBase) : ConfigBase :=
  {| groups := groups self; _annotations := _annotations self;
     _annotation_groups := _annotation_groups self; _settings := s;
     call_params := call_params self; parser := parser self;
     group_parsers := group_parsers self; settings := settings self;
     attrs := attrs self |}.

Definition set_call_params (c : list string) (self : ConfigBase) : ConfigBase :=
  {| groups := groups self; _annotations := _annotations self;
     _annotation_groups := _annotation_groups self; _settings := _settings self;
     call_params := Some c; parser := parser self;
     group_parsers := group_parsers self; settings := settings self;
     attrs := attrs self |}.

Definition set_parser (p : ArgumentParser) (self : ConfigBase) : ConfigBase :=
  {| groups := groups self; _annotations := _annotations self;
     _annotation_groups := _annotation_groups self; _settings := _settings self;
     call_params := call_params self; parser := Some p;
     group_parsers := group_parsers self; settings := settings self;
     attrs := attrs self |}.

Definition set_group_parsers (g : list (string * list Action)) (self : ConfigBase)
  : ConfigBase :=
  {| groups := groups self; _annotations := _annotations self;
     _annotation_groups := _annotation_groups self; _settings := _settings self;
     call_params := call_params self; parser := parser self;
     group_parsers := Some g; settings := settings self;
     attrs := attrs self |}.

Definition set_settings_attr (ns : gmap string pyval) (self : ConfigBase) : ConfigBase :=
  {| groups := groups self; _annotations := _annotations self;
     _annotation_groups := _annotation_groups self; _settings := _settings self;
     call_params := call_params self; parser := parser self;
     group_parsers := group_parsers self; settings := Some ns;
     attrs := attrs self |}.

(** [self.__setattr__(attr, v)] for a name that is none of the object's
    own attributes ([plain_name]): the assignment goes to the rest of the
    instance dictionary. *)
Definition setattr (attr : string) (v : pyval) (self : ConfigBase) : ConfigBase :=
  {| groups := groups self; _annotations := _annotations self;
     _annotation_groups := _annotation_groups self; _settings := _settings self;
     call_params := call_params self; parser := parser self;
     group_parsers := group_parsers self; settings := settings self;
     attrs := <[attr := v]> (attrs self) |}.

(** ** Introspection: [ConfigBase.setup] *)

(** [cls_vars[p] if p in cls_vars else None] *)
Definition declared_default (p : string) (vars : list (string * member)) : pyval :=
  match assoc p vars with
  | Some m => member_value p m
  | None => VNone
  end.

(** The comprehension of lines 71-76: one spec per annotated field, in
    annotation order; a field is positional when the class body gives it no
    value. *)
Definition annotated_specs (hints : list (string * pyval))
    (vars : list (string * member)) : list spec :=
  map (fun '(p, typ) =>
         add_arg_format p (declared_default p vars) typ (negb (has_key p vars)))
      hints.

(** The comprehension of lines 83-89, for one group class. *)
Definition group_specs (g : group_decl) : list spec :=
  map (fun '(p, typ) =>
         add_arg_format p
           (match assoc p (g_vars g) with Some v => v | None => VNone end)
           typ (negb (has_key p (g_vars g))))
      (g_hints g).

(** The comprehension of lines 94-101: one spec per parameter of the
    [setup] signature. *)
Definition signature_specs (params : list (string * parameter)) : list spec :=
  map (fun '(p, prm) =>
         add_arg_format p (p_default prm) (p_annotation prm)
           (negb (truthy (p_default prm))))
      params.

(** [self._settings[annot_grp] = [...]]; [self._settings] is the
    OrderedDict at this point. *)
Definition settings_setitem (k : string) (v : list spec) (s : settings_t)
  : res settings_t :=
  match s with
  | SDict d => Ok (SDict (assoc_set k (OSpecs v) d))
  | SList _ => Raise TypeError
  end.

(** The comprehension of lines 66-68: the names of the class-valued
    members of the class namespace. *)
Definition annotation_groups_of (cls : declaration) : list string :=
  keys (filter (fun e : string * member => member_is_type e.2 = true) (cls_vars cls)).

(** One round of the loop of lines 80-89: the hints and namespace of
    [cls_vars[annot_grp]], and the assignment into the OrderedDict. *)
Definition group_of (cls : declaration) (annot_grp : string) : group_decl :=
  match assoc annot_grp (cls_vars cls) with
  | Some m => member_class m
  | None => member_class (Attr VNone)
  end.

Definition setup_group (cls : declaration) (self : ConfigBase) (annot_grp : string)
  : res ConfigBase :=
  s ← settings_setitem annot_grp (group_specs (group_of cls annot_grp)) (_settings self);
  Ok (set__settings s self).

Definition setup (cls : declaration) (self : ConfigBase) : res ConfigBase :=
  let annotations := cls_hints cls in
  let self := set__annotations annotations self in
  let annotation_groups := annotation_groups_of cls in
  let self := set__annotation_groups annotation_groups self in
  if negb (Nat.eqb (length annotations) 0)
     || negb (Nat.eqb (length annotation_groups) 0) then
    let specs := annotated_specs annotations (cls_vars cls) in
    let self := set__settings (SList specs) self in
    if negb (Nat.eqb (length annotation_groups) 0) then
      let self := set_groups true self in
      d ← (if negb (Nat.eqb (length specs) 0)
           then OrderedDict [OStr "default"; OSpecs specs]
           else OrderedDict []);
      let self := set__settings (SDict d) self in
      foldM (setup_group cls) annotation_groups self
    else Ok self
  else
    Ok (set__settings (SList (signature_specs (setup_parameters cls))) self).

(** ** The synthesized callable: [make_call] and [set_settings] *)

(** [sorted(l, key=..., reverse=True)] for a boolean key: a stable sort in
    descending key order, here by insertion from the right.  An element goes
    behind the elements with a strictly greater key only. *)
Fixpoint insert_desc {A : Type} (key : A -> bool) (x : A) (l : list A) : list A :=
  match l with
  | [] => [x]
  | y :: l' => if key y && negb (key x) then y :: insert_desc key x l' else x :: l
  end.

Definition sorted_reverse {A : Type} (key : A -> bool) (l : list A) : list A :=
  fold_right (insert_desc key) [] l.

(** The sort key of [make_call]: [x[1]['default'] is None]. *)
Definition default_is_None (x : spec) : res bool :=
  match x.2 !! "default" with
  | Some v => Ok (is_None v)
  | None => Raise KeyError
  end.

(** [sorted(self._settings, key=lambda x: x[1]['default'] is None,
    reverse=True)].  The keys are computed first, in order.  Iterating an
    OrderedDict yields its keys, which are strings: [x[1]] is then a
    character (IndexError on a key shorter than two characters) and
    [x[1]['default']] indexes a string with a string (TypeError). *)
Definition sorted_settings (s : settings_t) : res (list spec) :=
  match s with
  | SList l =>
      keyed ← mapR (fun x => k ← default_is_None x; Ok (k, x)) l;
      Ok (map snd (sorted_reverse fst keyed))
  | SDict [] => Ok []
  | SDict ((x, _) :: _) =>
      if (String.length x <? 2)%nat then Raise IndexError else Raise TypeError
  end.

(** [s.replace('-', '')] *)
Fixpoint remove_dashes (s : string) : string :=
  match s with
  | EmptyString => EmptyString
  | String c s' =>
      if Ascii.eqb c "-" then remove_dashes s' else String c (remove_dashes s')
  end.

(** Compiling [def set_variables(self, v1, ..., vn): ...]: a parameter
    name may not occur twice (SyntaxError: duplicate argument).  The
    parameters get no default values. *)
Definition compile_def (variables : list string) : res (list string) :=
  if decide (NoDup ("self" :: variables)) then Ok variables else Raise SyntaxError.

Definition make_call (self : ConfigBase) : res ConfigBase :=
  sorted ← sorted_settings (_settings self);
  let variables := map (fun s : spec => remove_dashes s.1) sorted in
  params ← compile_def variables;
  Ok (set_call_params params self).

(** Binding the arguments of a call to parameters that are all required:
    positional arguments fill the parameters from the left, keyword
    arguments by name; an argument too many, an unknown or doubly bound
    name, or an unbound parameter is a TypeError.  The result is the
    function's [locals()], in parameter order. *)
Fixpoint bind_positional (params : list string) (args : list pyval)
  : res (list (string * pyval) * list string) :=
  match args, params with
  | [], _ => Ok ([], params)
  | _ :: _, [] => Raise TypeError
  | v :: args', p :: params' =>
      '(bound, rest) ← bind_positional params' args';
      Ok ((p, v) :: bound, rest)
  end.

Definition bind_keyword (rest : list string) (bound : list (string * pyval))
    (kw : string * pyval) : res (list (string * pyval)) :=
  if has_key kw.1 bound then Raise TypeError
  else if bool_decide (kw.1 ∈ rest) then Ok (bound ++ [kw])%list
  else Raise TypeError.

Definition bind_arguments (params : list string) (args : list pyval)
    (kwargs : list (string * pyval)) : res (list (string * pyval)) :=
  '(bound, rest) ← bind_positional params args;
  bound ← foldM (bind_keyword rest) kwargs bound;
  mapR (fun p => match assoc p bound with
                 | Some v => Ok (p, v)
                 | None => Raise TypeError
                 end) params.

(** [ConfigBase.set_settings(vardict)], for a dictionary whose keys are
    none of the object's own attribute and method names. *)
Definition set_settings (vardict : list (string * pyval)) (self : ConfigBase)
  : ConfigBase :=
  fold_left (fun self '(attr, v) => setattr attr v self) vardict self.

(** Calling the settings object with positional and keyword arguments runs the
    synthesized [set_variables(self, ...)], whose body is
    [self.set_settings(locals())]; the locals are the bound parameters,
    [self] included.  An object whose class has no [__call__] is not
    callable.  The method [set_settings] is the one of [ConfigBase]: no
    member of the class and no setting of the object has its name. *)
Definition call (self : ConfigBase) (args : list pyval)
    (kwargs : list (string * pyval)) : res ConfigBase :=
  match call_params self with
  | None => Raise TypeError
  | Some params =>
      locals ← bind_arguments ("self" :: params) (VSelf :: args) kwargs;
      Ok (set_settings locals self)
  end.

(** ** The external parser: a model of [argparse.ArgumentParser]

    The documented behaviour of the standard library's parser for the
    kinds of argument the program registers ([store] with a type,
    [store_const], and the parser's own [-h/--help]): exact option
    strings, [--opt=value], unambiguous prefixes of long options, negative
    numbers and [--] as arguments, required positionals, defaults.  A usage
    error ends the process with status 2 ([SystemExit 2]); help ends it with
    status 0. *)

Definition is_digit (c : ascii) : bool :=
  let n := nat_of_ascii c in (48 <=? n)%nat && (n <=? 57)%nat.

Fixpoint all_digits (s : string) : bool :=
  match s with
  | EmptyString => true
  | String c s' => is_digit c && all_digits s'
  end.

Fixpoint digits_value (s : string) (acc : Z) : Z :=
  match s with
  | EmptyString => acc
  | String c s' => digits_value s' (10 * acc + Z.of_nat (nat_of_ascii c - 48))
  end.

(** [int(token)] for an optional sign followed by decimal digits.  Of the
    other strings some are integers for Python too (digits grouped by
    underscores, blanks around the number); the function rejects them. *)
Definition int_of_token (s : string) : res pyval :=
  let '(neg, body) :=
    match s with
    | String "-" s' => (true, s')
    | String "+" s' => (false, s')
    | _ => (false, s)
    end in
  if negb (String.eqb body "") && all_digits body
  then Ok (VInt (if neg then - digits_value body 0 else digits_value body 0))
  else Raise ValueError.

(** The decimal [m * 10^e] in lowest terms: no trailing zero in [m]. *)
Fixpoint strip_zeros (fuel : nat) (m e : Z) : Z * Z :=
  match fuel with
  | O => (m, e)
  | S fuel' =>
      if (m mod 10 =? 0) && negb (m =? 0) then strip_zeros fuel' (m / 10) (e + 1)
      else (m, e)
  end.

Definition float_of_decimal (m e : Z) : pyval :=
  if m =? 0 then VFloat 0 0
  else let '(m', e') := strip_zeros (Z.to_nat (Z.log2 (Z.abs m))) m e in VFloat m' e'.

(** Splitting at the first occurrence of a character:
    [s.partition(c)], [None] when [c] does not occur. *)
Fixpoint partition_at (c : ascii) (s : string) : option (string * string) :=
  match s with
  | EmptyString => None
  | String d s' =>
      if Ascii.eqb d c then Some (EmptyString, s')
      else match partition_at c s' with
           | Some (l, r) => Some (String d l, r)
           | None => None
           end
  end.

(** [float(token)] for an optional sign, digits and an optional fraction
    (no exponent, no inf or nan, no underscores or blanks: the function
    rejects these).  The result is the decimal the token writes, which
    stands for the float nearest to it. *)
Definition float_of_token (s : string) : res pyval :=
  let '(neg, body) :=
    match s with
    | String "-" s' => (true, s')
    | String "+" s' => (false, s')
    | _ => (false, s)
    end in
  let '(int_part, frac_part) :=
    match partition_at "." body with
    | Some (l, r) => (l, r)
    | None => (body, EmptyString)
    end in
  let digits := int_part +:+ frac_part in
  if negb (String.eqb digits "") && all_digits digits
  then let m := digits_value digits 0 in
       Ok (float_of_decimal (if neg then - m else m)
                            (- Z.of_nat (String.length frac_part)))
  else Raise ValueError.

(** The negative-number pattern of the parser: a dash, then digits, or
    digits with a fraction. *)
Definition negative_number_like (s : string) : bool :=
  match s with
  | String "-" body =>
      match partition_at "." body with
      | None => negb (String.eqb body "") && all_digits body
      | Some (l, r) => all_digits l && negb (String.eqb r "") && all_digits r
      end
  | _ => false
  end.

Fixpoint contains_char (c : ascii) (s : string) : bool :=
  match s with
  | EmptyString => false
  | String d s' => Ascii.eqb d c || contains_char c s'
  end.

Definition starts_with_dash (s : string) : bool :=
  match s with String "-" _ => true | _ => false end.

(** [s.lstrip('-')] and [s.replace('-', '_')] *)
Fixpoint lstrip_dashes (s : string) : string :=
  match s with
  | String "-" s' => lstrip_dashes s'
  | _ => s
  end.

Fixpoint dashes_to_underscores (s : string) : string :=
  match s with
  | EmptyString => EmptyString
  | String c s' =>
      String (if Ascii.eqb c "-" then "_"%char else c) (dashes_to_underscores s')
  end.

(** The type function applied to one token ([_get_value]); its
    ValueError or TypeError is reported as a usage error.  A plain class
    without a constructor argument ([inspect._empty], a group class)
    rejects the token.  The function is exact for the types [str] and
    bool, for a missing type, and for [int] and [float] on the tokens
    that [int_of_token] and [float_of_token] accept; what a user class
    with a constructor argument makes of a token is not modelled. *)
Definition convert (typ : pyval) (token : string) : res pyval :=
  match typ with
  | VNone | VClass Cstr => Ok (VStr token)
  | VClass Cint => int_of_token token
  | VClass Cfloat => float_of_token token
  | VClass Cbool => Ok (VBool (negb (String.eqb token "")))
  | _ => Raise TypeError
  end.

Definition get_value (a : Action) (token : string) : res pyval :=
  match convert (a_type a) token with
  | Ok v => Ok v
  | Raise _ => Raise (SystemExit 2)
  end.

(** [callable(type_func)], as [add_argument] checks it; a missing type
    stands for the identity. *)
Definition callable_type (typ : pyval) : bool :=
  match typ with
  | VNone | VClass _ => true
  | _ => false
  end.

(** The help action every parser starts with. *)
Definition help_action : Action :=
  {| option_strings := ["-h"; "--help"]; dest := "help"; kind := Help;
     a_default := VStr "==SUPPRESS=="; a_type := VNone; a_const := VNone;
     required := false |}.

(** [parser.add_argument(flag, **kw)], for keyword dictionaries with the
    keys default, type, action and const.  A flag that does not start with
    a dash declares a required positional; otherwise the destination is
    the flag without its leading dashes.  Registering an option string
    twice is an ArgumentError. *)
Definition add_argument (registered : list Action) (flag : string)
    (kw : gmap string pyval) : res Action :=
  '(opts, dst, req) ←
    match flag with
    | EmptyString => Raise IndexError
    | String c _ =>
        if Ascii.eqb c "-" then
          let d := lstrip_dashes flag in
          if String.eqb d "" then Raise ValueError
          else Ok ([flag], dashes_to_underscores d, false)
        else Ok ([], flag, true)
    end;
  let dflt := default VNone (kw !! "default") in
  let const := default VNone (kw !! "const") in
  let typ := default VNone (kw !! "type") in
  k ← match kw !! "action" with
      | None | Some VNone | Some (VStr "store") => Ok Store
      | Some (VStr "store_const") =>
          match kw !! "type" with Some _ => Raise TypeError | None => Ok StoreConst end
      | Some _ => Raise ValueError
      end;
  if negb (callable_type typ) then Raise ValueError
  else if bool_decide (Exists (fun a => Exists (fun o => o ∈ option_strings a) opts)
                              registered)
  then Raise ArgumentError
  else Ok {| option_strings := opts; dest := dst; kind := k; a_default := dflt;
             a_type := typ; a_const := const; required := req |}.

(** The actions with their positions in the parser, and the registry from
    option string to action. *)
Definition indexed (acts : list Action) : list (nat * Action) :=
  zip (seq 0 (length acts)) acts.

Definition option_registry (acts : list Action) : list (string * (nat * Action)) :=
  flat_map (fun ia : nat * Action => map (fun o => (o, ia)) (option_strings ia.2))
           (indexed acts).

(** How the parser reads one token: an argument, an option (the action,
    the option string matched and the value given with [=], if any), or an
    option it does not know. *)
Inductive token_class : Type :=
| TArg (s : string)
| TOpt (i : nat) (a : Action) (option_string : string) (explicit : option string)
| TUnknown (s : string).

(** The registered options a token abbreviates ([_get_option_tuples]): a
    long option by any prefix, a short option by its two characters, the
    rest being its explicit argument. *)
Definition option_tuples (reg : list (string * (nat * Action))) (tok : string)
  : list token_class :=
  match tok with
  | String _ (String "-" _) =>
      let '(pre, explicit) :=
        match partition_at "=" tok with
        | Some (l, r) => (l, Some r)
        | None => (tok, None)
        end in
      omap (fun '(o, (i, a)) =>
              if String.prefix pre o then Some (TOpt i a o explicit) else None) reg
  | String c1 (String c2 rest) =>
      let short := String c1 (String c2 EmptyString) in
      omap (fun '(o, (i, a)) =>
              if String.eqb o short then Some (TOpt i a o (Some rest))
              else if String.prefix tok o then Some (TOpt i a o None)
              else None) reg
  | _ => []
  end.

(** [_parse_optional]; an ambiguous abbreviation is a usage error. *)
Definition classify (reg : list (string * (nat * Action))) (tok : string)
  : res token_class :=
  if negb (starts_with_dash tok) then Ok (TArg tok)
  else
    match assoc tok reg with
    | Some (i, a) => Ok (TOpt i a tok None)
    | None =>
        if (String.length tok =? 1)%nat then Ok (TArg tok)
        else
          match (match partition_at "=" tok with
                 | Some (o, e) =>
                     match assoc o reg with
                     | Some (i, a) => Some (TOpt i a o (Some e))
                     | None => None
                     end
                 | None => None
                 end) with
          | Some t => Ok t
          | None =>
              match option_tuples reg tok with
              | [t] => Ok t
              | _ :: _ :: _ => Raise (SystemExit 2)
              | [] =>
                  if negative_number_like tok
                     && negb (existsb (fun e => negative_number_like e.1) reg)
                  then Ok (TArg tok)
                  else if contains_char " " tok then Ok (TArg tok)
                  else Ok (TUnknown tok)
              end
          end
    end.

(** All tokens are classified before any is consumed; after a [--] every
    token is an argument. *)
Fixpoint classify_all (reg : list (string * (nat * Action))) (toks : list string)
  : res (list token_class) :=
  match toks with
  | [] => Ok []
  | tok :: toks' =>
      if String.eqb tok "--" then Ok (map TArg toks')
      else t ← classify reg tok; ts ← classify_all reg toks'; Ok (t :: ts)
  end.

(** The state of one parse: the namespace, the positionals still to be
    filled, the actions seen, the tokens nobody took. *)
Record parse_state : Type := {
  ps_namespace : gmap string pyval;
  ps_positionals : list (nat * Action);
  ps_seen : list nat;
  ps_extras : list string }.

Definition take_action (i : nat) (a : Action) (v : pyval) (st : parse_state)
  : parse_state :=
  {| ps_namespace := <[dest a := v]> (ps_namespace st);
     ps_positionals := ps_positionals st;
     ps_seen := i :: ps_seen st;
     ps_extras := ps_extras st |}.

Definition next_positional (st : parse_state) : parse_state :=
  {| ps_namespace := ps_namespace st;
     ps_positionals := tail (ps_positionals st);
     ps_seen := ps_seen st;
     ps_extras := ps_extras st |}.

Definition add_extra (s : string) (st : parse_state) : parse_state :=
  {| ps_namespace := ps_namespace st;
     ps_positionals := ps_positionals st;
     ps_seen := ps_seen st;
     ps_extras := (ps_extras st ++ [s])%list |}.

Fixpoint all_h (s : string) : bool :=
  match s with
  | EmptyString => true
  | String c s' => Ascii.eqb c "h" && all_h s'
  end.

(** Consuming the tokens from the left.  An argument goes to the next
    positional; a [store] option takes its explicit value or the next
    token, which must be an argument; a [store_const] option takes no
    value and stores its constant; help exits. *)
Fixpoint consume (toks : list token_class) (st : parse_state) : res parse_state :=
  match toks with
  | [] => Ok st
  | TArg s :: toks' =>
      match ps_positionals st with
      | [] => consume toks' (add_extra s st)
      | (i, a) :: _ =>
          v ← get_value a s;
          consume toks' (take_action i a v (next_positional st))
      end
  | TUnknown s :: toks' => consume toks' (add_extra s st)
  | TOpt i a o explicit :: toks' =>
      match kind a, explicit with
      | Help, None => Raise (SystemExit 0)
      | Help, Some e =>
          if String.eqb o "-h" && all_h e then Raise (SystemExit 0)
          else Raise (SystemExit 2)
      | StoreConst, None => consume toks' (take_action i a (a_const a) st)
      | StoreConst, Some _ => Raise (SystemExit 2)
      | Store, Some e =>
          v ← get_value a e;
          consume toks' (take_action i a v st)
      | Store, None =>
          match toks' with
          | TArg s :: toks'' =>
              v ← get_value a s;
              consume toks'' (take_action i a v st)
          | _ => Raise (SystemExit 2)
          end
      end
  end.

(** The namespace a parse starts from: every destination at its default. *)
Definition initial_namespace (acts : list Action) : gmap string pyval :=
  fold_left (fun ns a =>
               match kind a, ns !! dest a with
               | Help, _ | _, Some _ => ns
               | _, None => <[dest a := a_default a]> ns
               end) acts ∅.

(** After the last token: a required action not seen is a usage error; a
    default that is a string and still in place is converted by the type
    function; a token nobody took is a usage error. *)
Definition finish_action (seen : list nat) (acc : gmap string pyval * bool)
    (ia : nat * Action) : res (gmap string pyval * bool) :=
  let '(ns, missing) := acc in
  let '(i, a) := ia in
  if bool_decide (i ∈ seen) then Ok acc
  else if required a then Ok (ns, true)
  else match kind a, a_default a with
       | Help, _ => Ok acc
       | _, VStr s =>
           if bool_decide (ns !! dest a = Some (VStr s))
           then v ← get_value a s; Ok (<[dest a := v]> ns, missing)
           else Ok acc
       | _, _ => Ok acc
       end.

(** [parser.parse_args(args)] *)
Definition ArgumentParser_parse_args (p : ArgumentParser) (args : list string)
  : res (gmap string pyval) :=
  let acts := indexed (actions p) in
  toks ← classify_all (option_registry (actions p)) args;
  st ← consume toks
         {| ps_namespace := initial_namespace (actions p);
            ps_positionals := filter (fun ia => option_strings ia.2 = []) acts;
            ps_seen := [];
            ps_extras := [] |};
  r ← foldM (finish_action (ps_seen st)) acts (ps_namespace st, false);
  if (r.2 : bool) then Raise (SystemExit 2)
  else if negb (Nat.eqb (length (ps_extras st)) 0) then Raise (SystemExit 2)
  else Ok r.1.

(** ** Parser assembly: [ConfigBase.make_parser] *)

(** [for setting in specs: parser.add_argument(setting[0], **setting[1])];
    returns the parser's actions and the actions added. *)
Definition add_specs (acts : list Action) (specs : list spec)
  : res (list Action * list Action) :=
  foldM (fun acc (setting : spec) =>
           a ← add_argument acc.1 setting.1 setting.2;
           Ok ((acc.1 ++ [a])%list, (acc.2 ++ [a])%list))
        specs (acts, []).

(** One round of the loop of [make_parser] when [self.groups] holds: a
    new argument group titled [grp], filled from [self._settings[grp]].  A
    value that is a string yields its characters, and [setting[1]] of a
    character is an IndexError. *)
Definition add_group (acc : list Action * list (string * list Action))
    (entry : string * pyobj) : res (list Action * list (string * list Action)) :=
  match entry.2 with
  | OSpecs l =>
      r ← add_specs acc.1 l;
      Ok (r.1, assoc_set entry.1 r.2 acc.2)
  | OStr EmptyString => Ok (acc.1, assoc_set entry.1 [] acc.2)
  | OStr _ => Raise IndexError
  end.

(** [make_parser()], as [__init__] calls it (no keyword arguments).  With
    groups, every key of the OrderedDict opens an argument group of the one
    parser; without, the first round of the loop registers the whole list
    and breaks.  The remaining cases are the mismatches of [self.groups] and
    the shape of [self._settings]: a list element as a dictionary key
    (TypeError: unhashable), a group name indexed as a spec (IndexError on a
    name shorter than two characters, else TypeError: not a mapping). *)
Definition make_parser (self : ConfigBase) : res ConfigBase :=
  if groups self then
    match _settings self with
    | SDict d =>
        r ← foldM add_group d ([help_action], []);
        Ok (set_group_parsers r.2
              (set_parser {| actions := r.1; argument_groups := r.2 |} self))
    | SList [] =>
        Ok (set_group_parsers []
              (set_parser {| actions := [help_action]; argument_groups := [] |} self))
    | SList (_ :: _) => Raise TypeError
    end
  else
    match _settings self with
    | SList l =>
        r ← add_specs [help_action] l;
        Ok (set_parser {| actions := r.1; argument_groups := [] |} self)
    | SDict [] =>
        Ok (set_parser {| actions := [help_action]; argument_groups := [] |} self)
    | SDict ((k, _) :: _) =>
        if (String.length k <? 2)%nat then Raise IndexError else Raise TypeError
    end.

(** ** Parsing and copy-back: [ConfigBase.parse_args] *)

(** Reading an attribute that was never assigned ends in
    [__getattr__]'s [self.__dict__[name]]: a KeyError. *)
Definition get_parser (self : ConfigBase) : res ArgumentParser :=
  match parser self with Some p => Ok p | None => Raise KeyError end.

Definition get_settings (self : ConfigBase) : res (gmap string pyval) :=
  match settings self with Some s => Ok s | None => Raise KeyError end.

(** The body of the copy-back loop:
    [if a in self.settings: self.__setattr__(a, self.settings.__getattribute__(a))],
    for an annotated name [a] that is none of the object's own attribute
    names: the assignment leaves [self.settings] the parsed namespace. *)
Definition copy_back_step (self : ConfigBase) (a : string) : res ConfigBase :=
  s ← get_settings self;
  match s !! a with
  | Some v => Ok (setattr a v self)
  | None => Ok self
  end.

(** [for a in self._annotations: ...] *)
Definition copy_back (self : ConfigBase) : res ConfigBase :=
  foldM copy_back_step (keys (_annotations self)) self.

(** [parse_args(args)]; [args = None] makes the parser read the process
    arguments [argv] (sys.argv[1:]).  Returns the object and
    [self.settings]. *)
Definition parse_args (self : ConfigBase) (args : option (list string))
    (argv : list string) : res (ConfigBase * gmap string pyval) :=
  p ← get_parser self;
  ns ← ArgumentParser_parse_args p (default argv args);
  let self := set_settings_attr ns self in
  self ← copy_back self;
  s ← get_settings self;
  Ok (self, s).

(** ** Construction: [ConfigBase.__init__] *)

(** The [parse] argument: a bool, or a list of tokens. *)
Inductive parse_option : Type :=
| PBool (b : bool)
| PList (l : list string).

(** The fresh object: no attribute assigned yet. *)
Definition new_object : ConfigBase :=
  {| groups := false; _annotations := []; _annotation_groups := [];
     _settings := SList []; call_params := None; parser := None;
     group_parsers := None; settings := None; attrs := ∅ |}.

(** [cls(parse)]: [if parse:] holds for True and for a non-empty list; a
    bool makes [parse_args] read the process arguments.  The four methods
    are those of [ConfigBase], [setup] possibly overridden by a method that
    can be called without arguments and calls [super().setup()]: the class
    is a [proper_class]. *)
Definition __init__ (cls : declaration) (parse : parse_option) (argv : list string)
  : res ConfigBase :=
  let self := set_groups false new_object in
  self ← setup cls self;
  self ← make_call self;
  self ← make_parser self;
  match parse with
  | PBool true => r ← parse_args self None argv; Ok r.1
  | PList (t :: l) => r ← parse_args self (Some (t :: l)) argv; Ok r.1
  | PBool false | PList [] => Ok self
  end.

(** ** Reading specifications and outcomes *)

(** How the parser reads a spec: positional when the flag does not start
    with a dash; a toggle when the action is [store_const]. *)
Definition spec_positional (s : spec) : bool := negb (starts_with_dash s.1).

Definition spec_toggle (s : spec) : bool :=
  bool_decide (s.2 !! "action" = Some (VStr "store_const")).


(** All specs of a settings collection, group after group. *)
Definition settings_specs (s : settings_t) : list spec :=
  match s with
  | SList l => l
  | SDict d => flat_map (fun e : string * pyobj =>
                           match e.2 with OSpecs l => l | OStr _ => [] end) d
  end.

(** The operation ends with an exception of the class called [name]. *)
Definition raises {A : Type} (name : string) (r : res A) : Prop :=
  exists e, r = Raise e /\ exn_name e = name.

(** A top-level annotated field shares its name with an annotated field
    of a nested class. *)
Definition collides (cls : declaration) : bool :=
  existsb (fun p =>
             existsb (fun e : string * member =>
                        member_is_type e.2 && has_key p (g_hints (member_class e.2)))
                     (cls_vars cls))
          (keys (cls_hints cls)).

(** The name of a field is a Python identifier: here, ASCII letters,
    digits and underscores, not starting with a digit. *)
Definition identifier_char (c : ascii) : bool :=
  let n := nat_of_ascii c in
  ((65 <=? n) && (n <=? 90) || (97 <=? n) && (n <=? 122) || (n =? 95)
   || (48 <=? n) && (n <=? 57))%nat.

Fixpoint identifier_chars (s : string) : bool :=
  match s with
  | EmptyString => true
  | String c s' => identifier_char c && identifier_chars s'
  end.

Definition identifier (s : string) : bool :=
  match s with
  | EmptyString => false
  | String c _ => negb (is_digit c) && identifier_chars s
  end.

(** The attributes [ConfigBase] keeps in the instance dictionary (the
    named fields of the record [ConfigBase]), and the methods it looks up
    on the object. *)
Definition own_attributes : list string :=
  ["groups"; "_annotations"; "_annotation_groups"; "_settings"; "parser";
   "group_parsers"; "settings"].

Definition own_methods : list string :=
  ["setup"; "add_arg_format"; "set_settings"; "make_call"; "make_parser";
   "parse_args"].

(** A name that meets none of them: not an attribute or a method of
    [ConfigBase], and no leading underscore (the special methods, such as
    [__setattr__] and [__call__], and every attribute that an object or a
    parsed Namespace has by its class start with one). *)
Definition plain_name (name : string) : bool :=
  negb (String.prefix "_" name)
  && bool_decide (name ∉ (own_attributes ++ own_methods)%list).

Definition plain_names (names : list string) : bool := forallb plain_name names.

(** The reserved words of Python: none can be the name of a parameter of
    the callable that [make_call] compiles. *)
Definition keywords : list string :=
  ["False"; "None"; "True"; "and"; "as"; "assert"; "async"; "await"; "break";
   "class"; "continue"; "def"; "del"; "elif"; "else"; "except"; "finally";
   "for"; "from"; "global"; "if"; "import"; "in"; "is"; "lambda"; "nonlocal";
   "not"; "or"; "pass"; "raise"; "return"; "try"; "while"; "with"; "yield"].

(** The name of a field, a member or a parameter that the class body can
    declare beside [ConfigBase]'s own: an identifier, no reserved word,
    plain. *)
Definition field_name (name : string) : bool :=
  identifier name && plain_name name && bool_decide (name ∉ keywords).

(** The keys of a dictionary of attributes (the settings of an object, a
    parsed Namespace) are plain names. *)
Definition plain_keys (d : gmap string pyval) : Prop :=
  forall name, is_Some (d !! name) -> plain_name name = true.

Definition plain_attrs (self : ConfigBase) : Prop := plain_keys (attrs self).

(** ** Example declarations *)

(** [a: int; b: float = 0.1; c: str = 'a'] *)
Definition scenario1 : declaration :=
  {| cls_hints := [("a", VClass Cint); ("b", VClass Cfloat); ("c", VClass Cstr)];
     cls_vars := [("b", Attr (VFloat 1 (-1))); ("c", Attr (VStr "a"))];
     setup_parameters := [] |}.

(** A class with the single field [name: bool = default]. *)
Definition toggle_class (name : string) (dflt : pyval) : declaration :=
  {| cls_hints := [(name, VClass Cbool)];
     cls_vars := [(name, Attr dflt)];
     setup_parameters := [] |}.

(** [flag: bool = False] *)
Definition scenario2 : declaration := toggle_class "flag" (VBool false).

(** [x: int = 1] beside a nested [class Net: host: str = 'localhost';
    port: int = 8080] *)
Definition net_group : group_decl :=
  {| g_hints := [("host", VClass Cstr); ("port", VClass Cint)];
     g_vars := [("host", VStr "localhost"); ("port", VInt 8080)] |}.

Definition mixed_class : declaration :=
  {| cls_hints := [("x", VClass Cint)];
     cls_vars := [("x", Attr (VInt 1)); ("Net", Nested net_group)];
     setup_parameters := [] |}.

(** [host: str = 'example.org'] beside the nested [Net], which also has a
    field [host]. *)
Definition colliding_class : declaration :=
  {| cls_hints := [("host", VClass Cstr)];
     cls_vars := [("host", Attr (VStr "example.org")); ("Net", Nested net_group)];
     setup_parameters := [] |}.

(** Two nested classes and no top-level field; both have a field [host]. *)
Definition two_groups_class : declaration :=
  {| cls_hints := [];
     cls_vars := [("Net", Nested net_group);
                  ("Db", Nested {| g_hints := [("host", VClass Cstr)];
                                   g_vars := [("host", VStr "db")] |})];
     setup_parameters := [] |}.

(** No annotated field; [def setup(_, n: int = 0, m: int = 5)], every
    parameter with a default. *)
Definition defaults_signature_class : declaration :=
  {| cls_hints := [];
     cls_vars := [];
     setup_parameters :=
       [("n", {| p_default := VInt 0; p_annotation := VClass Cint |});
        ("m", {| p_default := VInt 5; p_annotation := VClass Cint |})] |}.

(** No annotated field; [def setup(_, a: int, n: int = 0, m: int = 5)]. *)
Definition signature_class : declaration :=
  {| cls_hints := [];
     cls_vars := [];
     setup_parameters :=
       [("a", {| p_default := VClass Cempty; p_annotation := VClass Cint |});
        ("n", {| p_default := VInt 0; p_annotation := VClass Cint |});
        ("m", {| p_default := VInt 5; p_annotation := VClass Cint |})] |}.

(** Every spec of every collection [setup] builds comes from
    [add_arg_format]. *)
Definition built (s : spec) : Prop :=
  exists name dflt typ positional, s = add_arg_format name dflt typ positional.

(** [param.default is inspect.Parameter.empty]: the parameter declares
    no default. *)
Definition has_no_default (prm : parameter) : bool :=
  bool_decide (p_default prm = VClass Cempty).

(** A class that [ConfigBase] works on as it is written: the fields, the
    other members of the class body and the parameters of an overriding
    [setup] are identifiers other than the reserved words and other than
    [ConfigBase]'s own names, so that no member hides a method and no
    setting replaces an attribute; and [setup] can be called without
    arguments, as the constructor does (every parameter has a default). *)
Definition proper_class (cls : declaration) : bool :=
  forallb field_name (keys (cls_hints cls))
  && forallb field_name (keys (cls_vars cls))
  && forallb (fun p : string * parameter => field_name p.1 && negb (has_no_default p.2))
             (setup_parameters cls).

(** The declaration with the fields of the nested classes renamed by [f]
    (their annotations and their values alike); the top-level fields and
    the names of the nested classes stay. *)
Definition rename_group (f : string -> string) (g : group_decl) : group_decl :=
  {| g_hints := map (fun e : string * pyval => (f e.1, e.2)) (g_hints g);
     g_vars := map (fun e : string * pyval => (f e.1, e.2)) (g_vars g) |}.

Definition rename_member (f : string -> string) (m : member) : member :=
  match m with
  | Attr v => Attr v
  | Nested g => Nested (rename_group f g)
  end.

Definition rename_group_fields (f : string -> string) (cls : declaration) : declaration :=
  {| cls_hints := cls_hints cls;
     cls_vars := map (fun e : string * member => (e.1, rename_member f e.2)) (cls_vars cls);
     setup_parameters := setup_parameters cls |}.

(** A renaming that takes every name away from the top-level field names
    of the class: it puts all of them in front. *)
Definition apart (cls : declaration) (name : string) : string :=
  fold_right String.append "_" (keys (cls_hints cls)) +:+ name.

(** Two states of the settings object that differ in the settings
    attributes at most. *)
Definition same_but_attrs (self self' : ConfigBase) : Prop :=
  groups self' = groups self /\
  _annotations self' = _annotations self /\
  _annotation_groups self' = _annotation_groups self /\
  _settings self' = _settings self /\
  call_params self' = call_params self /\
  parser self' = parser self /\
  group_parsers self' = group_parsers self /\
  settings self' = settings self.

(** A parsed object with a key the class does not annotate. *)
Definition parsed_with_extra_key : ConfigBase :=
  set_settings_attr {[ "flag" := VBool true; "extra" := VInt 1 ]}
    (setattr "extra" (VInt 0) (set__annotations [("flag", VClass Cbool)] new_object)).

(** [x[1]['default'] is None] for a spec that has a default entry. *)
Definition default_None (x : spec) : bool :=
  match x.2 !! "default" with Some VNone => true | _ => false end.

(** The parameter a spec contributes to the callable: [s[0].replace('-', '')]. *)
Definition parameter_name (x : spec) : string := remove_dashes x.1.

(** The object a construction returns ([new_object] if it raises). *)
Definition object_of (r : res ConfigBase) : ConfigBase :=
  match r with Ok self => self | Raise _ => new_object end.

(** [Settings(parse=False)] for the class of scenario 1. *)
Definition scenario1_object : ConfigBase :=
  object_of (__init__ scenario1 (PBool false) []).

(** The action the parser holds for the toggle [--name] of a boolean
    field with the given default, and the object constructed (without
    parsing) from the class with that single field. *)
Definition toggle_action (name : string) (dflt : pyval) : Action :=
  {| option_strings := ["--" +:+ name]; dest := name; kind := StoreConst;
     a_default := dflt; a_type := VNone; a_const := py_not dflt;
     required := false |}.

Definition toggle_object (name : string) (dflt : pyval) : ConfigBase :=
  {| groups := false;
     _annotations := [(name, VClass Cbool)];
     _annotation_groups := [];
     _settings := SList [add_arg_format name dflt (VClass Cbool) false];
     call_params := Some [name];
     parser := Some {| actions := [help_action; toggle_action name dflt];
                       argument_groups := [] |};
     group_parsers := None;
     settings := None;
     attrs := ∅ |}.

(** The tokens in front of the first [--]. *)
Fixpoint options_part (toks : list string) : list string :=
  match toks with
  | [] => []
  | tok :: toks' => if String.eqb tok "--" then [] else tok :: options_part toks'
  end.

(** In the parser [p] the option string [flag] belongs to the
    [store_const] action [a], registered at position [i], and no other
    action writes to the destination of [a]. *)
Definition toggle_of (p : ArgumentParser) (flag : string) (i : nat) (a : Action)
  : Prop :=
  starts_with_dash flag = true /\
  assoc flag (option_registry (actions p)) = Some (i, a) /\
  kind a = StoreConst /\
  forall j b, (j, b) ∈ indexed (actions p) -> dest b = dest a -> j = i.

(** A classified option names a registered action and one of its option
    strings. *)
Definition token_registered (acts : list Action) (t : token_class) : Prop :=
  match t with
  | TOpt i a o _ => (i, a) ∈ indexed acts /\ o ∈ option_strings a
  | _ => True
  end.

(** The parse has taken the toggle [a], registered at position [i]. *)
Definition toggled (i : nat) (a : Action) (st : parse_state) : Prop :=
  ps_namespace st !! dest a = Some (a_const a) /\ i ∈ ps_seen st.

(** The positionals still to be filled are actions of the parser. *)
Definition positionals_registered (acts : list Action) (st : parse_state) : Prop :=
  Forall (fun jb : nat * Action => jb ∈ indexed acts /\ option_strings jb.2 = [])
         (ps_positionals st).

(** [a: int; flag: bool = False], the object constructed without parsing,
    and its parser. *)
Definition int_and_flag : declaration :=
  {| cls_hints := [("a", VClass Cint); ("flag", VClass Cbool)];
     cls_vars := [("flag", Attr (VBool false))];
     setup_parameters := [] |}.

Definition int_and_flag_object : ConfigBase :=
  object_of (__init__ int_and_flag (PBool false) []).

Definition int_and_flag_parser : ArgumentParser :=
  {| actions :=
       [help_action;
        {| option_strings := []; dest := "a"; kind := Store; a_default := VNone;
           a_type := VClass Cint; a_const := VNone; required := true |};
        toggle_action "flag" (VBool false)];
     argument_groups := [] |}.

(** ** Classes with annotated fields only *)

(** The action [make_parser] registers for the spec of a field: a toggle
    for a boolean field, else a [store] action that is a required
    positional or an option [--name]. *)
Definition field_action (name : string) (dflt typ : pyval) (positional : bool)
  : Action :=
  if is_bool_class typ then toggle_action name dflt
  else {| option_strings := if positional then [] else ["--" +:+ name];
          dest := name; kind := Store; a_default := dflt; a_type := typ;
          a_const := VNone; required := positional |}.

(** The action of an annotated field of a class. *)
Definition annotated_action (vars : list (string * member)) (f : string * pyval)
  : Action :=
  field_action f.1 (declared_default f.1 vars) f.2 (negb (has_key f.1 vars)).

(** A class with annotated fields only: a proper class (no field or
    member named like an attribute or a method of [ConfigBase] or like a
    reserved word, no required parameter of [setup]) with no class-valued
    member, field names that are distinct identifiers other than help and
    self, and annotations that the parser can call. *)
Definition flat_class (cls : declaration) : Prop :=
  proper_class cls = true /\
  cls_hints cls <> [] /\
  annotation_groups_of cls = [] /\
  NoDup (keys (cls_hints cls)) /\
  Forall (fun f : string * pyval =>
            identifier f.1 = true /\ f.1 <> "help" /\ f.1 <> "self" /\
            callable_type f.2 = true)
         (cls_hints cls).

(** The object [cls(parse=False)] of a class with annotated fields only:
    the specs in declaration order, the parameters of the callable (the
    fields whose default is None first), and a parser with one action per
    field, in declaration order, after the help action. *)
Definition flat_object (cls : declaration) : ConfigBase :=
  let specs := annotated_specs (cls_hints cls) (cls_vars cls) in
  {| groups := false;
     _annotations := cls_hints cls;
     _annotation_groups := [];
     _settings := SList specs;
     call_params :=
       Some (map parameter_name
               (List.filter default_None specs
                ++ List.filter (fun x => negb (default_None x)) specs)%list);
     parser :=
       Some {| actions := help_action
                          :: map (annotated_action (cls_vars cls)) (cls_hints cls);
               argument_groups := [] |};
     group_parsers := None;
     settings := None;
     attrs := ∅ |}.

(** [if parse:] in [__init__]: True, or a list that is not empty. *)
Definition parse_truthy (parse : parse_option) : bool :=
  match parse with
  | PBool b => b
  | PList l => negb (Nat.eqb (length l) 0)
  end.


(** ** Reading values: [__getitem__] and [__getattr__] *)

(** What a read gives: a value, one of the exceptions of [exn], or the
    AttributeError of the parsed namespace, which nothing else in the
    program raises. *)
Inductive read_result : Type :=
| Value (v : pyval)
| Fails (e : exn)
| AttributeError.

(** [self.__dict__[name]], for a plain name ([plain_name]): the object's
    own attributes are in the instance dictionary too, under their names. *)
Definition instance_dict_getitem (self : ConfigBase) (name : string) : read_result :=
  match attrs self !! name with
  | Some v => Value v
  | None => Fails KeyError
  end.

(** [self[key]]: [self.settings.__getattribute__(key)].  Before the first
    parse there is no attribute [settings], and reading it ends in
    [__getattr__]'s [self.__dict__['settings']]. *)
Definition __getitem__ (self : ConfigBase) (key : string) : read_result :=
  match settings self with
  | None => Fails KeyError
  | Some ns =>
      match ns !! key with
      | Some v => Value v
      | None => AttributeError
      end
  end.

(** [__getattr__(name)], which Python calls when the regular attribute
    lookup has failed. *)
Definition __getattr__ (self : ConfigBase) (name : string) : read_result :=
  match settings self with
  | Some ns =>
      match ns !! name with
      | Some v => Value v
      | None => instance_dict_getitem self name
      end
  | None => instance_dict_getitem self name
  end.

(** ** An empty command line *)

(** The value the parser leaves at the destination of an optional action
    that the command line does not mention: the default, a string default
    going through the type function first. *)
Definition default_value (a : Action) : res pyval :=
  match a_default a with
  | VStr s => get_value a s
  | d => Ok d
  end.

(** The field becomes a required positional: not boolean, and without a
    value in the class body. *)
Definition positional_field (vars : list (string * member)) (f : string * pyval) : bool :=
  negb (is_bool_class f.2) && negb (has_key f.1 vars).

(** The default of the field goes through no type function that could
    change or reject it: it is no string, or the field is a string or a
    boolean field. *)
Definition plain_default (vars : list (string * member)) (f : string * pyval) : bool :=
  match declared_default f.1 vars with
  | VStr _ => is_bool_class f.2 || bool_decide (f.2 = VClass Cstr)
  | _ => true
  end.


(** ** A command line of plain arguments and options *)











(** [self: int], a field with the name of the callable's first parameter. *)
Definition self_class : declaration :=
  {| cls_hints := [("self", VClass Cint)]; cls_vars := []; setup_parameters := [] |}.

(** ** Options shared by nested classes *)

(** The option string [o] is held by an action of the parser. *)
Definition option_registered (acts : list Action) (o : string) : Prop :=
  Exists (fun a => o ∈ option_strings a) acts.

(** The field [name] of a nested class becomes the option [--name]: it is
    boolean, or the class body gives it a value. *)
Definition optional_group_field (g : group_decl) (name : string) : bool :=
  match assoc name (g_hints g) with
  | Some typ => is_bool_class typ || has_key name (g_vars g)
  | None => false
  end.

(** [help: str = 'none'], a field with the name of the parser's own option. *)
Definition help_class : declaration :=
  {| cls_hints := [("n", VClass Cint); ("help", VClass Cstr)];
     cls_vars := [("help", Attr (VStr "none"))];
     setup_parameters := [] |}.

(** ** Showing the object: [__repr__] *)

(** What [repr(settings)] is: [str] of the parsed namespace, a text of the
    parser library, or the text for an object that was not parsed, with
    the name of the class. *)
Inductive repr_result : Type :=
| NamespaceStr (ns : gmap string pyval)
| Text (s : string).

Definition __repr__ (class_name : string) (self : ConfigBase) : repr_result :=
  match settings self with
  | Some ns => NamespaceStr ns
  | None => Text ("<Uninitialised " +:+ class_name +:+ ">")
  end.

(** * apetype reports: the keywords of a report section

    [TaskSection.__call__(task, function, result)] of [apetype/reports.py]
    turns the value a section function returned into the keyword
    dictionary of a report section.  Modelled is the part that builds the
    dictionary from [result] and [function] (lines 59-72); the rest of the
    method adds the text and the code from the task and hands the
    dictionary to the report library.  Keys are strings. *)

(** The values of a section: figures, tables (data frames and series),
    known by an identity; other Python values; the dictionaries the method
    collects figures and tables in. *)
#[warnings="-register-all"] Inductive section_value : Type :=
| Figure (id : nat)
| DataFrame (id : nat)
| Series (id : nat)
| Plain (v : pyval)
| Collected (d : list (string * section_value)).

(** [isinstance(r[1], Figure)], and
    [isinstance(r[1], pd.DataFrame) or isinstance(r[1], pd.Series)] *)
Definition is_figure (v : section_value) : bool :=
  match v with Figure _ => true | _ => false end.

Definition is_table (v : section_value) : bool :=
  match v with DataFrame _ | Series _ => true | _ => false end.

(** [dict(pairs)] and [OrderedDict(pairs)]: a later pair replaces the
    value of an earlier pair with the same key, which keeps its place. *)
Definition dict_of {V : Type} (pairs : list (string * V)) : list (string * V) :=
  fold_left (fun d (kv : string * V) => assoc_set kv.1 kv.2 d) pairs [].

(** What a section function returns: a list of pairs, or a dictionary. *)
Inductive section_result : Type :=
| ResultList (l : list (string * section_value))
| ResultDict (d : list (string * section_value)).

(** A string of ASCII characters. *)
Fixpoint ascii_string (s : string) : bool :=
  match s with
  | EmptyString => true
  | String c s' => (nat_of_ascii c <? 128)%nat && ascii_string s'
  end.

(** [s.replace('_', ' ')] and [s.capitalize()], for ASCII names
    ([ascii_string]): the first character in upper case, the others in
    lower case. *)
Fixpoint replace_underscores (s : string) : string :=
  match s with
  | EmptyString => EmptyString
  | String c s' =>
      String (if Ascii.eqb c "_" then " "%char else c) (replace_underscores s')
  end.

Definition ascii_upper (c : ascii) : ascii :=
  let n := nat_of_ascii c in
  if (97 <=? n)%nat && (n <=? 122)%nat then ascii_of_nat (n - 32) else c.

Definition ascii_lower (c : ascii) : ascii :=
  let n := nat_of_ascii c in
  if (65 <=? n)%nat && (n <=? 90)%nat then ascii_of_nat (n + 32) else c.

Fixpoint lower (s : string) : string :=
  match s with
  | EmptyString => EmptyString
  | String c s' => String (ascii_lower c) (lower s')
  end.

Definition capitalize (s : string) : string :=
  match s with
  | EmptyString => EmptyString
  | String c s' => String (ascii_upper c) (lower s')
  end.

(** A dictionary or a keys view is true when it is not empty. *)
Definition nonempty {V : Type} (d : list V) : bool := negb (Nat.eqb (length d) 0).

(** The two dictionaries the method collects from a list (lines 62-67). *)
Definition figures_of (l : list (string * section_value)) : list (string * section_value) :=
  dict_of (List.filter (fun r => is_figure r.2) l).

Definition tables_of (l : list (string * section_value)) : list (string * section_value) :=
  dict_of (List.filter (fun r => is_table r.2) l).

(** Lines 59-72.  In the filter of line 68,
    [r[0] not in figures.keys() or tables.keys()] is the disjunction of
    [r[0] not in figures.keys()] and the keys view [tables.keys()]. *)
Definition section_keywords (function : string) (result : section_result)
  : list (string * section_value) :=
  let result :=
    match result with
    | ResultList l =>
        let figures := figures_of l in
        let tables := tables_of l in
        let result :=
          dict_of (List.filter
                     (fun r => negb (has_key r.1 figures) || nonempty (keys tables)) l) in
        let result :=
          if nonempty figures then assoc_set "figures" (Collected figures) result
          else result in
        if nonempty tables then assoc_set "tables" (Collected tables) result
        else result
    | ResultDict d => d
    end in
  if negb (has_key "title" result)
  then assoc_set "title" (Plain (VStr (capitalize (replace_underscores function)))) result
  else result.

(** A section with a table and a figure, as a list of pairs. *)
Definition table_and_figure : list (string * section_value) :=
  [("tab1", DataFrame 1); ("fig 1", Figure 2); ("clearpage", Plain (VBool true))].

(** * Properties *)

(** ** Association lists and the error monad *)

Lemma assoc_Some_elem {V : Type} (k : string) (v : V) (d : list (string * V)) :
  assoc k d = Some v -> (k, v) ∈ d.
Proof.
  induction d as [|[k' v'] d IH]; simpl; [done|].
  destruct (String.eqb_spec k k') as [->|Hne].
  - intros [= ->]. left.
  - intros H. right. auto.
Qed.

Lemma assoc_set_eq {V : Type} (k : string) (v : V) (d : list (string * V)) :
  assoc k (assoc_set k v d) = Some v.
Proof.
  induction d as [|[k' v'] d IH]; simpl.
  - by rewrite String.eqb_refl.
  - destruct (String.eqb_spec k k') as [->|Hne]; simpl.
    + by rewrite String.eqb_refl.
    + by destruct (String.eqb_spec k k').
Qed.

Lemma assoc_set_ne {V : Type} (k k' : string) (v : V) (d : list (string * V)) :
  k <> k' -> assoc k' (assoc_set k v d) = assoc k' d.
Proof.
  intros Hne. induction d as [|[k0 v0] d IH]; simpl.
  - by destruct (String.eqb_spec k' k) as [->|].
  - destruct (String.eqb_spec k k0) as [->|Hk]; simpl.
    + by destruct (String.eqb_spec k' k0) as [->|].
    + destruct (String.eqb_spec k' k0); [done|apply IH].
Qed.

Lemma bind_Ok {A B : Type} (m : res A) (f : A -> res B) (b : B) :
  m ≫= f = Ok b -> exists a, m = Ok a /\ f a = Ok b.
Proof. destruct m as [a|e]; [eauto|discriminate]. Qed.

(** ** The argument-spec builder *)

Lemma add_arg_format_bool (name : string) (dflt : pyval) (positional : bool) :
  add_arg_format name dflt (VClass Cbool) positional
  = ("--" +:+ name,
     {[ "default" := dflt; "action" := VStr "store_const"; "const" := py_not dflt ]}).
Proof. reflexivity. Qed.

Lemma add_arg_format_value (name : string) (dflt typ : pyval) (positional : bool) :
  is_bool_class typ = false ->
  add_arg_format name dflt typ positional
  = ((if positional then name else "--" +:+ name),
     {[ "default" := dflt; "type" := typ ]}).
Proof. unfold add_arg_format. by intros ->. Qed.

Lemma is_bool_class_true (typ : pyval) : is_bool_class typ = true -> typ = VClass Cbool.
Proof. by destruct typ as [| | | | |[]|]. Qed.

Lemma add_arg_format_default (name : string) (dflt typ : pyval) (positional : bool) :
  (add_arg_format name dflt typ positional).2 !! "default" = Some dflt.
Proof. unfold add_arg_format. destruct (is_bool_class typ); apply lookup_insert_eq. Qed.

Lemma add_arg_format_toggle (name : string) (dflt typ : pyval) (positional : bool) :
  spec_toggle (add_arg_format name dflt typ positional) = is_bool_class typ.
Proof.
  unfold add_arg_format, spec_toggle.
  destruct (is_bool_class typ); simpl; by simplify_map_eq.
Qed.

Lemma add_arg_format_exclusive (name : string) (dflt typ : pyval) (positional : bool) :
  spec_positional (add_arg_format name dflt typ positional)
  && spec_toggle (add_arg_format name dflt typ positional) = false.
Proof.
  rewrite add_arg_format_toggle. destruct (is_bool_class typ) eqn:Hb.
  - apply is_bool_class_true in Hb as ->. reflexivity.
  - apply andb_false_r.
Qed.

Lemma annotated_specs_built hints vars : Forall built (annotated_specs hints vars).
Proof.
  unfold annotated_specs. apply Forall_map, Forall_forall.
  intros [p typ] _. unfold built. eauto.
Qed.

Lemma group_specs_built g : Forall built (group_specs g).
Proof.
  unfold group_specs. apply Forall_map, Forall_forall.
  intros [p typ] _. unfold built. eauto.
Qed.

Lemma signature_specs_built params : Forall built (signature_specs params).
Proof.
  unfold signature_specs. apply Forall_map, Forall_forall.
  intros [p prm] _. unfold built. eauto.
Qed.

(** ** Introspection *)

Lemma length_nonempty {A : Type} (l : list A) :
  negb (Nat.eqb (length l) 0) = true <-> l <> [].
Proof. destruct l; simpl; split; congruence. Qed.

Lemma length_empty {A : Type} (l : list A) :
  negb (Nat.eqb (length l) 0) = false <-> l = [].
Proof. destruct l; simpl; split; congruence. Qed.

(** A class-valued member puts its name among the annotation groups. *)
Lemma annotation_groups_of_elem (cls : declaration) (grp : string) (m : member) :
  (grp, m) ∈ cls_vars cls -> member_is_type m = true ->
  grp ∈ annotation_groups_of cls.
Proof.
  intros Hin Hty. unfold annotation_groups_of, keys.
  apply list_elem_of_fmap. exists (grp, m). split; [done|].
  apply list_elem_of_filter. done.
Qed.

(** [OrderedDict(('default', specs))] unpacks the string ['default'],
    seven characters long, as a key-value pair. *)
Lemma OrderedDict_default (specs : list spec) :
  OrderedDict [OStr "default"; OSpecs specs] = Raise ValueError.
Proof. reflexivity. Qed.

(** Annotated fields beside a nested class: line 79 raises. *)
Lemma setup_fields_and_groups (cls : declaration) (self : ConfigBase) :
  cls_hints cls <> [] -> annotation_groups_of cls <> [] ->
  setup cls self = Raise ValueError.
Proof.
  intros Hh Hg. unfold setup.
  apply length_nonempty in Hg as ->. apply length_nonempty in Hh as Hh'.
  rewrite Hh'. simpl.
  assert (annotated_specs (cls_hints cls) (cls_vars cls) <> []) as Hs.
  { unfold annotated_specs. destruct (cls_hints cls); [done|discriminate]. }
  apply length_nonempty in Hs as ->. reflexivity.
Qed.

(** Annotated fields only: the flat list of their specs. *)
Lemma setup_fields_only (cls : declaration) (self : ConfigBase) :
  cls_hints cls <> [] -> annotation_groups_of cls = [] ->
  setup cls self
  = Ok (set__settings (SList (annotated_specs (cls_hints cls) (cls_vars cls)))
          (set__annotation_groups [] (set__annotations (cls_hints cls) self))).
Proof.
  intros Hh Hg. unfold setup. rewrite Hg.
  apply length_nonempty in Hh as ->. reflexivity.
Qed.

(** Neither: the signature of [setup]. *)
Lemma setup_signature (cls : declaration) (self : ConfigBase) :
  cls_hints cls = [] -> annotation_groups_of cls = [] ->
  setup cls self
  = Ok (set__settings (SList (signature_specs (setup_parameters cls)))
          (set__annotation_groups [] (set__annotations [] self))).
Proof. intros Hh Hg. unfold setup. rewrite Hh, Hg. reflexivity. Qed.

Lemma setup_group_dict (cls : declaration) (self : ConfigBase)
    (d : list (string * pyobj)) (g : string) :
  _settings self = SDict d ->
  setup_group cls self g
  = Ok (set__settings (SDict (assoc_set g (OSpecs (group_specs (group_of cls g))) d)) self).
Proof. intros Hd. unfold setup_group. by rewrite Hd. Qed.

(** The loop over the groups never fails on an OrderedDict, and assigns
    group after group. *)
Lemma setup_groups_loop (cls : declaration) (grps : list string) (self : ConfigBase)
    (d : list (string * pyobj)) :
  _settings self = SDict d ->
  foldM (setup_group cls) grps self
  = Ok (set__settings
          (SDict (fold_left (fun d g => assoc_set g (OSpecs (group_specs (group_of cls g))) d)
                            grps d))
          self).
Proof.
  revert self d. induction grps as [|g grps IH]; intros self d Hd; simpl.
  - destruct self; simpl in *; by subst.
  - rewrite (setup_group_dict cls self d g Hd). simpl.
    erewrite IH by reflexivity. reflexivity.
Qed.

(** Nested classes only: an OrderedDict with one entry per class. *)
Lemma setup_groups_only (cls : declaration) (self : ConfigBase) :
  cls_hints cls = [] -> annotation_groups_of cls <> [] ->
  setup cls self
  = Ok (set__settings
          (SDict (fold_left (fun d g => assoc_set g (OSpecs (group_specs (group_of cls g))) d)
                            (annotation_groups_of cls) []))
          (set_groups true
             (set__annotation_groups (annotation_groups_of cls)
                (set__annotations [] self)))).
Proof.
  intros Hh Hg. unfold setup. rewrite Hh.
  apply length_nonempty in Hg as ->. simpl.
  erewrite setup_groups_loop by reflexivity. reflexivity.
Qed.

Lemma fold_assoc_set_lookup (f : string -> pyobj) (grps : list string)
    (d : list (string * pyobj)) (g : string) :
  g ∈ grps \/ assoc g d = Some (f g) ->
  assoc g (fold_left (fun d g => assoc_set g (f g) d) grps d) = Some (f g).
Proof.
  revert d. induction grps as [|g' grps IH]; intros d H; simpl.
  - destruct H as [H|H]; [by inversion H|done].
  - apply IH. destruct (decide (g = g')) as [->|Hne].
    + right. apply assoc_set_eq.
    + destruct H as [H|H].
      * apply elem_of_cons in H as [?|?]; [done|by left].
      * right. by rewrite assoc_set_ne.
Qed.

Lemma assoc_set_Forall {V : Type} (P : string * V -> Prop) (k : string) (v : V)
    (d : list (string * V)) :
  Forall P d -> P (k, v) -> Forall P (assoc_set k v d).
Proof.
  intros Hd Hkv. induction Hd as [|[k' v'] d Hx Hd IH]; simpl.
  - by constructor.
  - destruct (String.eqb k k'); by constructor.
Qed.

Lemma fold_assoc_set_Forall (P : string * pyobj -> Prop) (f : string -> pyobj)
    (grps : list string) (d : list (string * pyobj)) :
  Forall P d -> (forall g, P (g, f g)) ->
  Forall P (fold_left (fun d g => assoc_set g (f g) d) grps d).
Proof.
  intros Hd Hf. revert d Hd. induction grps as [|g grps IH]; intros d Hd; simpl; [done|].
  apply IH. by apply assoc_set_Forall.
Qed.

Lemma settings_specs_dict_Forall (P : spec -> Prop) (d : list (string * pyobj)) :
  Forall (fun e : string * pyobj =>
            match e.2 with OSpecs l => Forall P l | OStr _ => True end) d ->
  Forall P (settings_specs (SDict d)).
Proof.
  simpl. induction 1 as [|[k [s|l]] d Hx Hd IH]; simpl; [done|done|].
  by apply Forall_app.
Qed.

(** Whatever [setup] returns holds specs made by [add_arg_format] only. *)
Lemma setup_built (cls : declaration) (self self' : ConfigBase) :
  setup cls self = Ok self' -> Forall built (settings_specs (_settings self')).
Proof.
  destruct (decide (cls_hints cls = [])) as [Hh|Hh];
    destruct (decide (annotation_groups_of cls = [])) as [Hg|Hg].
  - rewrite setup_signature by done. intros [= <-]. apply signature_specs_built.
  - rewrite setup_groups_only by done. intros [= <-].
    apply settings_specs_dict_Forall, fold_assoc_set_Forall; [constructor|].
    intros g. apply group_specs_built.
  - rewrite setup_fields_only by done. intros [= <-]. apply annotated_specs_built.
  - rewrite setup_fields_and_groups by done. discriminate.
Qed.

(** C3 (the code departs from the claim): a declaration with top-level
    annotated fields and at least one nested class is not introspected into
    a grouped collection with the fields under "default"; [setup] stops with
    a ValueError at the construction of the OrderedDict (line 79), which
    unpacks the string 'default' as if it were a key-value pair, and so the
    construction of the settings object fails before anything is parsed. *)
Theorem C3_fields_beside_groups_raise (cls : declaration) (self : ConfigBase) :
  cls_hints cls <> [] ->
  annotation_groups_of cls <> [] ->
  setup cls self = Raise ValueError /\
  forall (parse : parse_option) (argv : list string),
    __init__ cls parse argv = Raise ValueError.
Proof.
  intros Hh Hg. split; [by apply setup_fields_and_groups|].
  intros parse argv. unfold __init__.
  by rewrite setup_fields_and_groups.
Qed.

(** [x: int = 1] beside the nested class [Net]. *)
Lemma C3_mixed_class_witness :
  cls_hints mixed_class <> [] /\
  annotation_groups_of mixed_class <> [] /\
  setup mixed_class new_object = Raise ValueError /\
  __init__ mixed_class (PBool true) [] = Raise ValueError.
Proof.
  split; [discriminate|]. split; [discriminate|].
  destruct (C3_fields_beside_groups_raise mixed_class new_object) as [Hsetup Hinit];
    [discriminate|discriminate|].
  split; [exact Hsetup|apply Hinit].
Defined.

(** *** Introspection and the names of the nested fields *)

(** When [setup] raises: exactly on annotated fields beside a nested
    class, and then the ValueError of line 79. *)
Lemma setup_Raise (cls : declaration) (self : ConfigBase) (e : exn) :
  setup cls self = Raise e
  <-> e = ValueError /\ cls_hints cls <> [] /\ annotation_groups_of cls <> [].
Proof.
  destruct (decide (cls_hints cls = [])) as [Hh|Hh],
           (decide (annotation_groups_of cls = [])) as [Hg|Hg].
  - rewrite setup_signature by done. split; [discriminate|]. by intros (_ & ? & _).
  - rewrite setup_groups_only by done. split; [discriminate|]. by intros (_ & ? & _).
  - rewrite setup_fields_only by done. split; [discriminate|]. by intros (_ & _ & ?).
  - rewrite setup_fields_and_groups by done. split.
    + by intros [= <-].
    + by intros (-> & _).
Qed.

Lemma member_is_type_rename (f : string -> string) (m : member) :
  member_is_type (rename_member f m) = member_is_type m.
Proof. by destruct m. Qed.

(** Renaming the fields of the nested classes leaves the annotation
    groups as they are. *)
Lemma annotation_groups_of_rename (f : string -> string) (cls : declaration) :
  annotation_groups_of (rename_group_fields f cls) = annotation_groups_of cls.
Proof.
  unfold annotation_groups_of, rename_group_fields, keys. cbn [cls_vars].
  induction (cls_vars cls) as [|[k m] l IH]; [reflexivity|].
  cbn [map]. rewrite !filter_cons. cbn [snd fst].
  rewrite member_is_type_rename.
  destruct (decide (member_is_type m = true)); cbn [map fst]; by rewrite IH.
Qed.

Lemma length_append (s1 s2 : string) :
  String.length (s1 +:+ s2) = (String.length s1 + String.length s2)%nat.
Proof. induction s1 as [|c s1 IH]; [reflexivity|]. simpl. by rewrite IH. Qed.

Lemma length_fold_append (names : list string) (name : string) :
  name ∈ names -> (String.length name < String.length (fold_right String.append "_" names))%nat.
Proof.
  assert (forall l, (0 < String.length (fold_right String.append "_" l))%nat) as Hpos.
  { intros l. destruct l; cbn [fold_right]; [simpl; lia|].
    rewrite length_append. induction l; cbn [fold_right]; [simpl; lia|].
    rewrite length_append. lia. }
  induction names as [|n names IH]; intros Hin; [by inversion Hin|].
  cbn [fold_right]. rewrite length_append. specialize (Hpos names).
  apply elem_of_cons in Hin as [->|Hin].
  - lia.
  - specialize (IH Hin). lia.
Qed.

(** No top-level field name is a name that [apart] gives. *)
Lemma apart_fresh (cls : declaration) (p : string) (g : list (string * pyval)) :
  p ∈ keys (cls_hints cls) ->
  has_key p (map (fun e : string * pyval => (apart cls e.1, e.2)) g) = false.
Proof.
  intros Hin. apply length_fold_append in Hin.
  unfold has_key. induction g as [|[k v] g IH]; [reflexivity|].
  cbn [map assoc fst snd]. destruct (String.eqb p (apart cls k)) eqn:Heq; [|exact IH].
  apply String.eqb_eq in Heq. exfalso.
  assert (String.length p = String.length (apart cls k)) as Hlen by congruence.
  unfold apart in Hlen. rewrite length_append in Hlen. lia.
Qed.

(** C5, as stated, fails: a top-level field named like a field of a
    nested class does not make [setup] raise a DeclarationError.  The class
    with [host] at the top level and in the nested [Net] ends in the
    ValueError of line 79, the very outcome of the class with [x] beside
    [Net], where no name collides. *)
Lemma C5_colliding_class_counterexample :
  collides colliding_class = true /\
  setup colliding_class new_object = Raise ValueError /\
  ~ raises "DeclarationError" (setup colliding_class new_object) /\
  collides mixed_class = false /\
  setup mixed_class new_object = Raise ValueError.
Proof.
  split; [reflexivity|]. split; [reflexivity|]. split; [|split; reflexivity].
  intros (e & He & Hname). apply setup_Raise in He as (-> & _). discriminate.
Qed.

(** C5, amended: introspection makes no name-collision check.  It never
    raises a DeclarationError, and whether it fails, and with which
    exception, does not depend on the names of the nested classes' fields:
    the declaration with these fields renamed has the same outcome, and
    renaming them apart from the top-level fields leaves no collision.  So
    a declaration with a collision is treated like one without. *)
Theorem C5_no_collision_check (cls : declaration) (self : ConfigBase) :
  ~ raises "DeclarationError" (setup cls self) /\
  (forall (f : string -> string) (e : exn),
     setup (rename_group_fields f cls) self = Raise e <-> setup cls self = Raise e) /\
  (forall f : string -> string,
     (exists self', setup (rename_group_fields f cls) self = Ok self')
     <-> (exists self', setup cls self = Ok self')) /\
  collides (rename_group_fields (apart cls) cls) = false.
Proof.
  assert (forall (f : string -> string) (e : exn),
            setup (rename_group_fields f cls) self = Raise e <-> setup cls self = Raise e)
    as Hsame.
  { intros f e. rewrite !setup_Raise, annotation_groups_of_rename. reflexivity. }
  split; [|split; [exact Hsame|split]].
  - intros (e & He & Hname). apply setup_Raise in He as (-> & _). discriminate.
  - intros f. specialize (Hsame f).
    destruct (setup (rename_group_fields f cls) self) as [s|e] eqn:H1,
             (setup cls self) as [s'|e'] eqn:H2.
    + split; eauto.
    + discriminate (proj2 (Hsame e') eq_refl).
    + discriminate (proj1 (Hsame e) eq_refl).
    + split; intros (? & ?); discriminate.
  - unfold collides. apply not_true_is_false. intros Hex.
    apply existsb_exists in Hex as (p & Hp & Hex).
    apply existsb_exists in Hex as ([k m] & Hin & Hm).
    cbn [rename_group_fields cls_hints cls_vars] in *.
    apply in_map_iff in Hin as ([k' m'] & [= <- <-] & _).
    apply andb_true_iff in Hm as (_ & Hkey). cbn [snd] in Hkey.
    apply list_elem_of_In in Hp.
    destruct m' as [v|g]; cbn [rename_member member_class g_hints rename_group] in Hkey.
    + discriminate.
    + by rewrite apart_fresh in Hkey.
Qed.

(** Two nested classes sharing the field name [host] are introspected
    without complaint. *)
Example setup_two_groups_class :
  collides two_groups_class = false /\
  exists self', setup two_groups_class new_object = Ok self' /\
    _settings self'
    = SDict [("Net", OSpecs [("--host", {[ "default" := VStr "localhost";
                                            "type" := VClass Cstr ]});
                             ("--port", {[ "default" := VInt 8080;
                                            "type" := VClass Cint ]})]);
             ("Db", OSpecs [("--host", {[ "default" := VStr "db";
                                           "type" := VClass Cstr ]})])].
Proof. split; [reflexivity|]. eexists. split; reflexivity. Qed.

(** C8: no spec is both positional and a toggle.  A boolean-typed field
    always gets the optional flag [--name] with the [store_const] action,
    whatever [positional] says (also when no default was given), and only
    boolean-typed fields are toggles; this holds for every spec of every
    collection [setup] builds. *)
Theorem C8_toggle_never_positional :
  (forall (name : string) (dflt typ : pyval) (positional : bool),
     let s := add_arg_format name dflt typ positional in
     spec_positional s && spec_toggle s = false /\
     spec_toggle s = is_bool_class typ /\
     (is_bool_class typ = true -> s.1 = "--" +:+ name /\ spec_positional s = false)) /\
  (forall (cls : declaration) (self self' : ConfigBase),
     setup cls self = Ok self' ->
     Forall (fun s => spec_positional s && spec_toggle s = false)
            (settings_specs (_settings self'))).
Proof.
  split.
  - intros name dflt typ positional s. subst s.
    split; [apply add_arg_format_exclusive|].
    split; [apply add_arg_format_toggle|].
    intros Hb. apply is_bool_class_true in Hb as ->. by split.
  - intros cls self self' Hs. apply setup_built in Hs.
    eapply Forall_impl; [exact Hs|].
    intros s (name & dflt & typ & positional & ->). apply add_arg_format_exclusive.
Qed.

(** A boolean field without a default, in a class that annotates it: the
    flag is [--verbose], not the bare name. *)
Example setup_bool_without_default :
  exists self',
    setup {| cls_hints := [("verbose", VClass Cbool)]; cls_vars := [];
             setup_parameters := [] |} new_object = Ok self' /\
    _settings self'
    = SList [("--verbose", {[ "default" := VNone; "action" := VStr "store_const";
                               "const" := VBool true ]})].
Proof. eexists. split; reflexivity. Qed.



(** C4 (the code departs from the claim): in the signature fallback the
    [positional] argument is [not bool(default)], the falsiness of the
    default, where a missing default is the truthy class [inspect._empty].
    So a parameter without a default is made optional, and a parameter
    whose default is 0, False or the empty string is made positional. *)
Theorem C4_signature_positional_by_truthiness :
  (forall (p : string) (prm : parameter),
     starts_with_dash p = false ->
     is_bool_class (p_annotation prm) = false ->
     forall s, signature_specs [(p, prm)] = [s] ->
     spec_positional s = negb (truthy (p_default prm))) /\
  (forall prm, has_no_default prm = true -> negb (truthy (p_default prm)) = false) /\
  negb (truthy (VInt 0)) = true /\
  negb (truthy (VBool false)) = true /\
  negb (truthy (VStr "")) = true /\
  (exists self',
     setup signature_class new_object = Ok self' /\
     _settings self'
     = SList [("--a", {[ "default" := VClass Cempty; "type" := VClass Cint ]});
              ("n", {[ "default" := VInt 0; "type" := VClass Cint ]});
              ("--m", {[ "default" := VInt 5; "type" := VClass Cint ]})] /\
     map spec_positional (settings_specs (_settings self')) = [false; true; false] /\
     map (fun e : string * parameter => has_no_default e.2)
         (setup_parameters signature_class) = [true; false; false]).
Proof.
  split; [|split; [|repeat split]].
  - intros p prm Hp Hb s [= <-].
    rewrite add_arg_format_value by done. unfold spec_positional. simpl.
    destruct (truthy (p_default prm)); simpl; [done|by rewrite Hp].
  - intros prm Hd. apply bool_decide_eq_true in Hd. by rewrite Hd.
  - eexists. repeat split; reflexivity.
Qed.

(** ** Copy-back *)

Lemma same_but_attrs_refl (self : ConfigBase) : same_but_attrs self self.
Proof. by repeat split. Qed.

Lemma same_but_attrs_setattr (self self' : ConfigBase) (a : string) (v : pyval) :
  same_but_attrs self self' -> same_but_attrs self (setattr a v self').
Proof. unfold same_but_attrs. simpl. tauto. Qed.

Lemma copy_back_step_spec (self : ConfigBase) (ns : gmap string pyval) (a : string) :
  settings self = Some ns ->
  copy_back_step self a
  = Ok (match ns !! a with Some v => setattr a v self | None => self end).
Proof.
  intros Hs. unfold copy_back_step, get_settings. rewrite Hs. simpl.
  by destruct (ns !! a).
Qed.

(** The loop sets [a] to [ns[a]] for every listed name that [ns] has, and
    touches nothing else. *)
Lemma copy_back_loop (ns : gmap string pyval) (names : list string) (self : ConfigBase) :
  settings self = Some ns ->
  exists self',
    foldM copy_back_step names self = Ok self' /\
    same_but_attrs self self' /\
    forall name,
      attrs self' !! name
      = if bool_decide (name ∈ names)
        then match ns !! name with Some v => Some v | None => attrs self !! name end
        else attrs self !! name.
Proof.
  revert self. induction names as [|a names IH]; intros self Hs.
  - exists self. split; [done|]. split; [apply same_but_attrs_refl|]. done.
  - simpl. rewrite (copy_back_step_spec self ns a Hs). simpl.
    set (self1 := match ns !! a with Some v => setattr a v self | None => self end).
    assert (settings self1 = Some ns) as Hs1.
    { unfold self1. by destruct (ns !! a). }
    assert (same_but_attrs self self1) as Hsame1.
    { unfold self1. destruct (ns !! a);
        [apply same_but_attrs_setattr|]; apply same_but_attrs_refl. }
    destruct (IH self1 Hs1) as (self' & Hrun & Hsame & Hattrs).
    exists self'. split; [done|]. split.
    { unfold same_but_attrs in *. intuition congruence. }
    intros name. rewrite Hattrs.
    assert (attrs self1 !! name
            = if bool_decide (name = a)
              then match ns !! name with Some v => Some v | None => attrs self !! name end
              else attrs self !! name) as ->.
    { unfold self1. case_bool_decide as Hna.
      - subst name. destruct (ns !! a); simpl; [apply lookup_insert_eq|done].
      - destruct (ns !! a); simpl; [by rewrite lookup_insert_ne|done]. }
    rewrite (bool_decide_ext (name ∈ a :: names) (name = a \/ name ∈ names))
      by apply elem_of_cons.
    rewrite bool_decide_or.
    by destruct (bool_decide (name = a)), (bool_decide (name ∈ names)), (ns !! name).
Qed.
(** ** The synthesized callable *)

Lemma assoc_app_l {V : Type} (k : string) (v : V) (d d' : list (string * V)) :
  assoc k d = Some v -> assoc k (d ++ d')%list = Some v.
Proof.
  induction d as [|[k0 v0] d IH]; simpl; [done|].
  by destruct (String.eqb k k0).
Qed.

(** A keyword argument never rebinds a parameter that is already bound. *)
Lemma bind_keywords_keep (rest : list string) (k : string) (v : pyval)
    (kwargs bound bound' : list (string * pyval)) :
  foldM (bind_keyword rest) kwargs bound = Ok bound' ->
  assoc k bound = Some v -> assoc k bound' = Some v.
Proof.
  revert bound. induction kwargs as [|kw kwargs IH]; intros bound; simpl.
  - by intros [= <-].
  - intros H Hk. apply bind_Ok in H as (b1 & Hb1 & H).
    apply (IH b1 H). unfold bind_keyword in Hb1.
    destruct (has_key kw.1 bound); [discriminate|].
    case_bool_decide; [|discriminate]. injection Hb1 as <-.
    by apply assoc_app_l.
Qed.

(** The locals are the parameters, each with the value bound to its name. *)
Lemma mapR_lookup_spec (bound : list (string * pyval)) (params : list string)
    (locals : list (string * pyval)) :
  mapR (fun p => match assoc p bound with
                 | Some v => Ok (p, v)
                 | None => Raise TypeError
                 end) params = Ok locals ->
  keys locals = params /\ Forall (fun e => assoc e.1 bound = Some e.2) locals.
Proof.
  revert locals. induction params as [|p params IH]; intros locals; simpl.
  - by intros [= <-].
  - intros H. apply bind_Ok in H as ([p' v] & Hp & H).
    apply bind_Ok in H as (l & Hl & H). injection H as <-.
    destruct (assoc p bound) as [v'|] eqn:Hv; [|discriminate].
    injection Hp as <- <-. destruct (IH l Hl) as [Hk Hf].
    split; [simpl; by f_equal|]. by constructor.
Qed.

(** [set_settings] leaves at a name the value of the last entry for it. *)
Lemma set_settings_lookup (k : string) (x : pyval) (vardict : list (string * pyval))
    (self : ConfigBase) :
  Forall (fun e : string * pyval => e.1 = k -> e.2 = x) vardict ->
  k ∈ keys vardict \/ attrs self !! k = Some x ->
  attrs (set_settings vardict self) !! k = Some x.
Proof.
  unfold set_settings. revert self.
  induction vardict as [|[a v] vardict IH]; intros self Hall Hk; simpl.
  - destruct Hk as [Hk|Hk]; [by inversion Hk|done].
  - apply Forall_cons in Hall as [Hav Hall]. apply IH; [done|].
    destruct (decide (a = k)) as [->|Hne].
    + right. specialize (Hav eq_refl). simpl in *. subst v. apply lookup_insert_eq.
    + destruct Hk as [Hk|Hk].
      * simpl in Hk. apply elem_of_cons in Hk as [?|?]; [congruence|by left].
      * right. simpl. by rewrite lookup_insert_ne.
Qed.

Lemma set_settings_same_but_attrs (vardict : list (string * pyval)) (self : ConfigBase) :
  same_but_attrs self (set_settings vardict self).
Proof.
  unfold set_settings.
  assert (forall self', same_but_attrs self self' ->
            same_but_attrs self
              (fold_left (fun self '(attr, v) => setattr attr v self) vardict self')) as H.
  { induction vardict as [|[a v] vardict IH]; intros self' Hs; simpl; [done|].
    by apply IH, same_but_attrs_setattr. }
  apply H, same_but_attrs_refl.
Qed.

(** What a successful call leaves behind. *)
Lemma call_Ok_inv (self self' : ConfigBase) (args : list pyval)
    (kwargs : list (string * pyval)) :
  call self args kwargs = Ok self' ->
  exists params locals,
    call_params self = Some params /\
    bind_arguments ("self" :: params) (VSelf :: args) kwargs = Ok locals /\
    self' = set_settings locals self /\
    keys locals = "self" :: params /\
    Forall (fun e : string * pyval => e.1 = "self" -> e.2 = VSelf) locals.
Proof.
  unfold call. destruct (call_params self) as [params|]; [|discriminate].
  intros H. apply bind_Ok in H as (locals & Hb & [= <-]).
  exists params, locals. repeat split; try done.
  - unfold bind_arguments in Hb.
    apply bind_Ok in Hb as ([b r] & Hpos & Hb). cbv beta iota in Hb.
    apply bind_Ok in Hb as (bound & Hkw & Hb).
    by apply mapR_lookup_spec in Hb as [? _].
  - unfold bind_arguments in Hb.
    apply bind_Ok in Hb as ([b r] & Hpos & Hb). cbv beta iota in Hb.
    cbn [bind_positional] in Hpos.
    apply bind_Ok in Hpos as ([b0 r0] & Hpos0 & [= <- <-]).
    apply bind_Ok in Hb as (bound & Hkw & Hb).
    apply mapR_lookup_spec in Hb as [_ Hf].
    eapply Forall_impl; [exact Hf|]. intros [k v] Hkv. simpl in *. intros ->.
    assert (assoc "self" bound = Some VSelf) as Hself.
    { eapply bind_keywords_keep; [exact Hkw|reflexivity]. }
    congruence.
Qed.





(** *** The order of the parameters *)

Lemma insert_desc_true {A : Type} (key : A -> bool) (x : A) (l : list A) :
  key x = true -> insert_desc key x l = x :: l.
Proof. intros Hx. destruct l as [|y l]; simpl; [done|]. by rewrite Hx, andb_false_r. Qed.

Lemma insert_desc_false {A : Type} (key : A -> bool) (x : A) (hi lo : list A) :
  key x = false ->
  Forall (fun y => key y = true) hi -> Forall (fun y => key y = false) lo ->
  insert_desc key x (hi ++ lo) = (hi ++ x :: lo)%list.
Proof.
  intros Hx Hhi Hlo. induction Hhi as [|y hi Hy Hhi IH]; simpl.
  - destruct Hlo as [|z lo Hz Hlo]; simpl; [done|]. by rewrite Hz.
  - by rewrite Hy, Hx, IH.
Qed.

(** The stable descending sort by a boolean key puts the elements with
    the key first, then the others, each block in the original order. *)
Lemma sorted_reverse_partition {A : Type} (key : A -> bool) (l : list A) :
  sorted_reverse key l
  = (List.filter key l ++ List.filter (fun x => negb (key x)) l)%list.
Proof.
  unfold sorted_reverse. induction l as [|x l IH]; simpl; [done|].
  rewrite IH. destruct (key x) eqn:Hx; simpl.
  - by apply insert_desc_true.
  - apply insert_desc_false; [done| |].
    + apply List.Forall_forall. intros y Hy. by apply List.filter_In in Hy as [_ ?].
    + apply List.Forall_forall. intros y Hy. apply List.filter_In in Hy as [_ Hy].
      by apply negb_true_iff.
Qed.

Lemma built_default_is_None (x : spec) :
  built x -> default_is_None x = Ok (default_None x).
Proof.
  intros (name & dflt & typ & positional & ->).
  unfold default_is_None, default_None. rewrite add_arg_format_default.
  by destruct dflt.
Qed.

Lemma filter_map_snd {A : Type} (f : A -> bool) (g : bool -> bool) (l : list A) :
  map snd (List.filter (fun e : bool * A => g e.1) (map (fun x => (f x, x)) l))
  = List.filter (fun x => g (f x)) l.
Proof.
  induction l as [|x l IH]; simpl; [done|].
  destruct (g (f x)); simpl; by rewrite IH.
Qed.

(** [make_call] on a flat collection: the parameters are the names of the
    specs whose default is None, in their order, then the names of the
    others, in their order. *)
Lemma make_call_order (self self1 : ConfigBase) (l : list spec) :
  _settings self = SList l -> Forall built l ->
  make_call self = Ok self1 ->
  call_params self1
  = Some (map parameter_name
            (List.filter default_None l
             ++ List.filter (fun x => negb (default_None x)) l)%list).
Proof.
  intros Hl Hb. unfold make_call. rewrite Hl. simpl.
  assert (mapR (fun x : spec => k ← default_is_None x; Ok (k, x)) l
          = Ok (map (fun x => (default_None x, x)) l)) as ->.
  { clear Hl. induction Hb as [|x l Hx Hb IH]; simpl; [done|].
    rewrite (built_default_is_None x Hx). simpl. by rewrite IH. }
  simpl. rewrite sorted_reverse_partition, map_app.
  rewrite (filter_map_snd default_None (fun b => b)).
  rewrite (filter_map_snd default_None negb).
  intros H. apply bind_Ok in H as (params & Hc & [= <-]).
  unfold compile_def in Hc. case_decide; [|discriminate]. injection Hc as <-.
  reflexivity.
Qed.

(** *** Every parameter is required *)

Lemma assoc_Some_key {V : Type} (k : string) (v : V) (d : list (string * V)) :
  assoc k d = Some v -> k ∈ keys d.
Proof.
  intros H. apply assoc_Some_elem in H. unfold keys.
  apply list_elem_of_fmap. by exists (k, v).
Qed.

Lemma bind_positional_keys (params : list string) (args : list pyval)
    (bound : list (string * pyval)) (rest : list string) :
  bind_positional params args = Ok (bound, rest) ->
  keys bound = take (length args) params.
Proof.
  revert params bound rest. induction args as [|v args IH]; intros params bound rest.
  - destruct params; simpl; by intros [= <- <-].
  - destruct params as [|p params]; simpl; [discriminate|].
    intros H. apply bind_Ok in H as ([b r] & Hb & [= <- <-]).
    simpl. f_equal. by eapply IH.
Qed.

Lemma bind_positional_error (params : list string) (args : list pyval) (e : exn) :
  bind_positional params args = Raise e -> e = TypeError.
Proof.
  revert params. induction args as [|v args IH]; intros params.
  - destruct params; discriminate.
  - destruct params as [|p params]; simpl; [by intros [= <-]|].
    destruct (bind_positional params args) as [[b r]|e'] eqn:Hb; simpl; [discriminate|].
    intros [= <-]. by eapply IH.
Qed.

Lemma bind_keywords_keys (rest : list string) (kwargs bound bound' : list (string * pyval))
    (k : string) :
  foldM (bind_keyword rest) kwargs bound = Ok bound' ->
  k ∈ keys bound' -> k ∈ keys bound \/ k ∈ keys kwargs.
Proof.
  revert bound. induction kwargs as [|kw kwargs IH]; intros bound; simpl.
  - intros [= <-]. by left.
  - intros H Hk. apply bind_Ok in H as (b1 & Hb1 & H).
    destruct (IH b1 H Hk) as [Hin|Hin]; [|right; by right].
    unfold bind_keyword in Hb1. destruct (has_key kw.1 bound); [discriminate|].
    case_bool_decide; [|discriminate]. injection Hb1 as <-.
    unfold keys in Hin. rewrite map_app in Hin. apply elem_of_app in Hin as [?|Hin].
    + by left.
    + right. simpl in Hin. apply elem_of_cons in Hin as [->|Hin]; [left|by inversion Hin].
Qed.

Lemma bind_keywords_error (rest : list string) (kwargs bound : list (string * pyval))
    (e : exn) :
  foldM (bind_keyword rest) kwargs bound = Raise e -> e = TypeError.
Proof.
  revert bound. induction kwargs as [|kw kwargs IH]; intros bound; simpl; [discriminate|].
  destruct (bind_keyword rest bound kw) as [b1|e1] eqn:Hb1; simpl.
  - apply IH.
  - intros [= <-]. unfold bind_keyword in Hb1.
    destruct (has_key kw.1 bound); [by injection Hb1|].
    case_bool_decide; [discriminate|by injection Hb1].
Qed.

Lemma mapR_lookup_outcome (bound : list (string * pyval)) (params : list string) :
  match mapR (fun p => match assoc p bound with
                       | Some v => Ok (p, v)
                       | None => Raise TypeError
                       end) params with
  | Ok _ => Forall (fun p => is_Some (assoc p bound)) params
  | Raise e => e = TypeError
  end.
Proof.
  induction params as [|p params IH]; simpl; [done|].
  destruct (assoc p bound) as [v|] eqn:Hv; simpl; [|done].
  destruct (mapR _ params); simpl; [|done].
  constructor; [by eexists|done].
Qed.

(** Binding fails with a TypeError only, and succeeds only when every
    parameter got a positional or a keyword argument. *)
Lemma bind_arguments_outcome (params : list string) (args : list pyval)
    (kwargs : list (string * pyval)) :
  match bind_arguments params args kwargs with
  | Ok _ => forall p, p ∈ params -> p ∈ take (length args) params \/ p ∈ keys kwargs
  | Raise e => e = TypeError
  end.
Proof.
  unfold bind_arguments.
  destruct (bind_positional params args) as [[b r]|e] eqn:Hb;
    simpl; [|by apply bind_positional_error in Hb as ->].
  destruct (foldM (bind_keyword r) kwargs b) as [bound|e] eqn:Hk;
    simpl; [|by apply bind_keywords_error in Hk as ->].
  pose proof (mapR_lookup_outcome bound params) as Hout.
  destruct (mapR _ params) as [locals|e]; [|done].
  intros p Hin. rewrite Forall_forall in Hout.
  destruct (Hout p Hin) as [v Hv]. apply assoc_Some_key in Hv.
  destruct (bind_keywords_keys _ _ _ _ _ Hk Hv) as [Hpk|Hpk]; [|by right].
  left. by rewrite <- (bind_positional_keys _ _ _ _ Hb).
Qed.

(** The synthesized function gives its parameters no default values: a
    call that leaves a parameter without an argument is a TypeError. *)
Lemma call_missing_argument (self : ConfigBase) (params : list string)
    (args : list pyval) (kwargs : list (string * pyval)) (p : string) :
  call_params self = Some params ->
  p ∈ params -> p <> "self" ->
  p ∉ take (length args) params -> p ∉ keys kwargs ->
  call self args kwargs = Raise TypeError.
Proof.
  intros Hp Hin Hself Hpos Hkw. unfold call. rewrite Hp.
  pose proof (bind_arguments_outcome ("self" :: params) (VSelf :: args) kwargs) as Hout.
  destruct (bind_arguments ("self" :: params) (VSelf :: args) kwargs) as [locals|e];
    [|by subst].
  exfalso. destruct (Hout p) as [Hpk|Hpk]; [by right| |done].
  simpl in Hpk. apply elem_of_cons in Hpk as [?|?]; done.
Qed.

(** C2 (the code departs from the claim): on the declaration of scenario
    1 the synthesized callable has the parameters a, b, c in this order, but
    none of them has a default (the TODO of line 128), so the call
    [settings(5, b=2.0)] does not yield c = 'a': it raises a TypeError for
    the missing argument c, as does every call that leaves a parameter
    unbound.  Parsing the tokens 5 --b 2.0 does yield a = 5, b = 2.0,
    c = 'a', and so does the call once c is passed too.  In general the
    parameters are the fields whose default is None, in declaration order,
    followed by the other fields, in declaration order. *)
Theorem C2_call_requires_every_parameter :
  __init__ scenario1 (PBool false) [] = Ok scenario1_object /\
  call_params scenario1_object = Some ["a"; "b"; "c"] /\
  call scenario1_object [VInt 5] [("b", VFloat 2 0)] = Raise TypeError /\
  (exists f ns,
     parse_args scenario1_object (Some ["5"; "--b"; "2.0"]) [] = Ok (f, ns) /\
     attrs f = {[ "a" := VInt 5; "b" := VFloat 2 0; "c" := VStr "a" ]}) /\
  (exists f,
     call scenario1_object [VInt 5] [("b", VFloat 2 0); ("c", VStr "a")] = Ok f /\
     attrs f = {[ "self" := VSelf; "a" := VInt 5; "b" := VFloat 2 0; "c" := VStr "a" ]}) /\
  (forall (self : ConfigBase) (params : list string) (args : list pyval)
          (kwargs : list (string * pyval)) (p : string),
     call_params self = Some params ->
     p ∈ params -> p <> "self" ->
     p ∉ take (length args) params -> p ∉ keys kwargs ->
     call self args kwargs = Raise TypeError) /\
  (forall (self self1 : ConfigBase) (l : list spec),
     _settings self = SList l -> Forall built l ->
     make_call self = Ok self1 ->
     call_params self1
     = Some (map parameter_name
               (List.filter default_None l
                ++ List.filter (fun x => negb (default_None x)) l)%list)).
Proof.
  split; [by vm_compute|]. split; [by vm_compute|]. split; [by vm_compute|].
  split; [|split; [|split]].
  - eexists _, _. split; by vm_compute.
  - eexists. split; by vm_compute.
  - apply call_missing_argument.
  - apply make_call_order.
Qed.

(** ** Field names *)

Lemma identifier_char_not_dash (c : ascii) :
  identifier_char c = true -> Ascii.eqb c "-" = false.
Proof.
  intros H. destruct (Ascii.eqb_spec c "-") as [->|]; [|done]. discriminate.
Qed.

Lemma identifier_chars_no_dash (s : string) :
  identifier_chars s = true ->
  remove_dashes s = s /\ dashes_to_underscores s = s.
Proof.
  induction s as [|c s IH]; simpl; [done|].
  intros H. apply andb_true_iff in H as [Hc Hs].
  rewrite (identifier_char_not_dash c Hc). destruct (IH Hs) as [-> ->]. done.
Qed.

Lemma identifier_facts (name : string) :
  identifier name = true ->
  name <> "" /\ starts_with_dash name = false /\ lstrip_dashes name = name /\
  remove_dashes name = name /\ dashes_to_underscores name = name.
Proof.
  destruct name as [|c s]; [discriminate|]. unfold identifier.
  intros H. apply andb_true_iff in H as [_ H].
  destruct (identifier_chars_no_dash _ H) as [Hr Hu].
  simpl in H. apply andb_true_iff in H as [Hc _].
  apply identifier_char_not_dash in Hc.
  repeat split; try done.
  - unfold starts_with_dash. destruct c as [[] [] [] [] [] [] [] []]; try done.
  - simpl. destruct c as [[] [] [] [] [] [] [] []]; try done.
Qed.

(** ** A class with one boolean field *)

Lemma setup_toggle_class (name : string) (dflt : pyval) (self : ConfigBase) :
  is_type dflt = false ->
  setup (toggle_class name dflt) self
  = Ok (set__settings (SList [add_arg_format name dflt (VClass Cbool) false])
          (set__annotation_groups [] (set__annotations [(name, VClass Cbool)] self))).
Proof.
  intros Hty. rewrite setup_fields_only; [|discriminate|].
  - simpl. unfold declared_default, has_key. simpl. by rewrite String.eqb_refl.
  - unfold annotation_groups_of. simpl. rewrite filter_cons. simpl.
    rewrite decide_False; [done|]. by rewrite Hty.
Qed.

Lemma make_call_toggle (name : string) (dflt : pyval) (self : ConfigBase) :
  identifier name = true -> name <> "self" ->
  _settings self = SList [add_arg_format name dflt (VClass Cbool) false] ->
  make_call self = Ok (set_call_params [name] self).
Proof.
  intros Hid Hself Hs. apply identifier_facts in Hid as (_ & _ & _ & Hr & _).
  unfold make_call. rewrite Hs. simpl.
  unfold default_is_None. rewrite add_arg_format_default. simpl.
  change ("" +:+ name) with name. rewrite Hr. unfold compile_def. rewrite decide_True; [done|].
  apply NoDup_cons. split; [|apply NoDup_singleton].
  intros Hin. apply list_elem_of_singleton in Hin. congruence.
Qed.

Lemma flag_dashes (name : string) : "--" +:+ name = String "-" (String "-" name).
Proof. reflexivity. Qed.

Lemma add_argument_toggle (name : string) (dflt : pyval) :
  identifier name = true -> name <> "help" ->
  add_argument [help_action] ("--" +:+ name)
    (add_arg_format name dflt (VClass Cbool) false).2
  = Ok (toggle_action name dflt).
Proof.
  intros Hid Hhelp. apply identifier_facts in Hid as (Hne & Hd & Hl & _ & Hu).
  unfold add_argument. simpl. change ("" +:+ name) with name. rewrite Hl, Hu.
  destruct (String.eqb_spec name "") as [?|_]; [done|]. simpl.
  simplify_map_eq. simpl.
  rewrite bool_decide_eq_false_2; [done|].
  intros Hex. apply Exists_cons in Hex as [Hex|Hex]; [|by inversion Hex].
  apply Exists_cons in Hex as [Hex|Hex]; [|by inversion Hex].
  simpl in Hex. rewrite flag_dashes in Hex.
  apply elem_of_cons in Hex as [Hex|Hex]; [discriminate|].
  apply list_elem_of_singleton in Hex. injection Hex as ->. done.
Qed.

Lemma make_parser_toggle (name : string) (dflt : pyval) (self : ConfigBase) :
  identifier name = true -> name <> "help" ->
  groups self = false ->
  _settings self = SList [add_arg_format name dflt (VClass Cbool) false] ->
  make_parser self
  = Ok (set_parser {| actions := [help_action; toggle_action name dflt];
                      argument_groups := [] |} self).
Proof.
  intros Hid Hhelp Hg Hs. unfold make_parser. rewrite Hg, Hs.
  unfold add_specs. cbn [foldM fst snd].
  change (add_arg_format name dflt (VClass Cbool) false).1 with ("--" +:+ name).
  rewrite add_argument_toggle by done. reflexivity.
Qed.

(** Construction of the class with the one boolean field [name]. *)
Lemma init_toggle_class (name : string) (dflt : pyval) (argv : list string) :
  identifier name = true -> name <> "help" -> name <> "self" ->
  is_type dflt = false ->
  __init__ (toggle_class name dflt) (PBool false) argv = Ok (toggle_object name dflt).
Proof.
  intros Hid Hhelp Hself Hty. unfold __init__.
  rewrite setup_toggle_class by done. cbn [mbind res_bind].
  erewrite make_call_toggle by done. cbn [mbind res_bind].
  erewrite make_parser_toggle by done. reflexivity.
Qed.


(** ** The parser: what a toggle does among other tokens *)

Lemma foldM_invariant {A B : Type} (P : A -> Prop) (f : A -> B -> res A)
    (l : list B) (acc r : A) :
  (forall acc x acc', x ∈ l -> P acc -> f acc x = Ok acc' -> P acc') ->
  P acc -> foldM f l acc = Ok r -> P r.
Proof.
  revert acc. induction l as [|x l IH]; intros acc Hstep Hacc; simpl.
  - by intros [= <-].
  - intros H. apply bind_Ok in H as (acc1 & H1 & H).
    apply (IH acc1); [|by eapply Hstep; [left| |]|done].
    intros ? ? ? ?. apply Hstep. by right.
Qed.

Lemma zip_seq_lookup {A : Type} (l : list A) (k i : nat) (a : A) :
  (i, a) ∈ zip (seq k (length l)) l -> (k <= i)%nat /\ l !! (i - k)%nat = Some a.
Proof.
  revert k. induction l as [|x l IH]; intros k; simpl; [by inversion 1|].
  intros H. apply elem_of_cons in H as [[= -> ->]|H].
  - split; [lia|]. by rewrite Nat.sub_diag.
  - apply IH in H as [Hk Hl]. split; [lia|].
    replace (i - k)%nat with (S (i - S k)) by lia. done.
Qed.

(** An index names one action. *)
Lemma indexed_functional (acts : list Action) (i : nat) (a b : Action) :
  (i, a) ∈ indexed acts -> (i, b) ∈ indexed acts -> a = b.
Proof.
  unfold indexed. intros Ha Hb.
  apply zip_seq_lookup in Ha as [_ Ha]. apply zip_seq_lookup in Hb as [_ Hb].
  congruence.
Qed.

Lemma registry_indexed (acts : list Action) (o : string) (i : nat) (a : Action) :
  (o, (i, a)) ∈ option_registry acts -> (i, a) ∈ indexed acts /\ o ∈ option_strings a.
Proof.
  unfold option_registry. intros H. apply list_elem_of_In, in_flat_map in H.
  destruct H as ([j b] & Hjb & H). simpl in H.
  apply in_map_iff in H as (o' & [= <- <- <-] & Ho).
  split; by apply list_elem_of_In.
Qed.

Lemma option_tuples_registered (acts : list Action) (tok : string) (t : token_class) :
  t ∈ option_tuples (option_registry acts) tok -> token_registered acts t.
Proof.
  unfold option_tuples.
  destruct tok as [|c1 [|c2 rest]]; try by inversion 1.
  destruct (Ascii.eqb_spec c2 "-") as [->|Hc2].
  - destruct (partition_at "=" _) as [[l r]|];
      intros H; apply list_elem_of_omap in H as ([o [i a]] & Hin & H);
      destruct (String.prefix _ o); try discriminate; injection H as <-;
      by apply registry_indexed.
  - assert (forall P Q : list token_class,
              t ∈ match c2 with "-"%char => P | _ => Q end -> t ∈ Q) as Hsel.
    { intros P Q. destruct c2 as [[] [] [] [] [] [] [] []]; try done. }
    intros H. apply Hsel in H. clear Hsel.
    apply list_elem_of_omap in H as ([o [i a]] & Hin & H).
    destruct (String.eqb o _); [|destruct (String.prefix _ o)];
      try discriminate; injection H as <-; by apply registry_indexed.
Qed.

Lemma classify_registered (acts : list Action) (tok : string) (t : token_class) :
  classify (option_registry acts) tok = Ok t -> token_registered acts t.
Proof.
  unfold classify. destruct (negb (starts_with_dash tok)); [by intros [= <-]|].
  destruct (assoc tok _) as [[i a]|] eqn:Hreg.
  { intros [= <-]. by apply assoc_Some_elem, registry_indexed in Hreg. }
  destruct (String.length tok =? 1)%nat; [by intros [= <-]|].
  destruct (partition_at "=" tok) as [[o e]|].
  - destruct (assoc o _) as [[i a]|] eqn:Ho.
    { intros [= <-]. by apply assoc_Some_elem, registry_indexed in Ho. }
    pose proof (option_tuples_registered acts tok) as Hot.
    destruct (option_tuples _ tok) as [|t1 [|t2 l]].
    + repeat case_match; by intros [= <-].
    + intros [= <-]. apply Hot. left.
    + discriminate.
  - pose proof (option_tuples_registered acts tok) as Hot.
    destruct (option_tuples _ tok) as [|t1 [|t2 l]].
    + repeat case_match; by intros [= <-].
    + intros [= <-]. apply Hot. left.
    + discriminate.
Qed.

Lemma classify_all_registered (acts : list Action) (toks : list string)
    (ts : list token_class) :
  classify_all (option_registry acts) toks = Ok ts -> Forall (token_registered acts) ts.
Proof.
  revert ts. induction toks as [|tok toks IH]; intros ts; simpl.
  - by intros [= <-].
  - destruct (String.eqb tok "--").
    + intros [= <-]. apply Forall_forall. intros t Ht.
      apply list_elem_of_fmap in Ht as (s & -> & _). done.
    + intros H. apply bind_Ok in H as (t & Ht & H).
      apply bind_Ok in H as (ts' & Hts & [= <-]).
      constructor; [by eapply classify_registered|by apply IH].
Qed.

(** A registered option string in front of the [--] is read as its
    option. *)
Lemma classify_all_flag (acts : list Action) (toks : list string)
    (ts : list token_class) (flag : string) (i : nat) (a : Action) :
  starts_with_dash flag = true ->
  assoc flag (option_registry acts) = Some (i, a) ->
  classify_all (option_registry acts) toks = Ok ts ->
  flag ∈ options_part toks ->
  TOpt i a flag None ∈ ts.
Proof.
  intros Hdash Hreg. revert ts. induction toks as [|tok toks IH]; intros ts; simpl.
  - intros _ H. by inversion H.
  - destruct (String.eqb tok "--"); [intros _ H; by inversion H|].
    intros H Hin. apply bind_Ok in H as (t & Ht & H).
    apply bind_Ok in H as (ts' & Hts & [= <-]).
    apply elem_of_cons in Hin as [<-|Hin]; [|right; by apply IH].
    unfold classify in Ht. rewrite Hdash, Hreg in Ht. simpl in Ht.
    injection Ht as <-. left.
Qed.

Section toggle_among_tokens.
Variables (acts : list Action) (flag : string) (i : nat) (a : Action).
Hypothesis Hreg : (i, a) ∈ indexed acts.
Hypothesis Hflag : flag ∈ option_strings a.
Hypothesis Hkind : kind a = StoreConst.
Hypothesis Hdest : forall j b, (j, b) ∈ indexed acts -> dest b = dest a -> j = i.

Lemma same_dest_same_action (j : nat) (b : Action) :
  (j, b) ∈ indexed acts -> dest b = dest a -> j = i /\ b = a.
Proof.
  intros Hjb Hd. pose proof (Hdest j b Hjb Hd) as ->.
  split; [done|]. by eapply indexed_functional.
Qed.

Lemma take_action_keeps (j : nat) (b : Action) (v : pyval) (st : parse_state) :
  (dest b = dest a -> v = a_const a) ->
  toggled i a st -> toggled i a (take_action j b v st).
Proof.
  intros Hv [Hns Hseen]. split; simpl; [|by right].
  destruct (decide (dest b = dest a)) as [Hd|Hd].
  - rewrite Hd, (Hv Hd). apply lookup_insert_eq.
  - by rewrite lookup_insert_ne.
Qed.

Lemma take_action_sets (st : parse_state) :
  toggled i a (take_action i a (a_const a) st).
Proof. split; simpl; [apply lookup_insert_eq|left]. Qed.

(** Once the toggle was taken, or if its flag is still to come, a parse
    that runs to the end has the constant at the toggle's destination. *)
Lemma consume_toggled (n : nat) :
  forall (toks : list token_class) (st st' : parse_state),
    (length toks <= n)%nat ->
    Forall (token_registered acts) toks ->
    positionals_registered acts st ->
    consume toks st = Ok st' ->
    toggled i a st \/ TOpt i a flag None ∈ toks ->
    toggled i a st'.
Proof.
  induction n as [|n IH]; intros toks st st' Hlen Hall Hpos Hrun Hor.
  { destruct toks; [|simpl in Hlen; lia]. injection Hrun as <-.
    destruct Hor as [?|Hin]; [done|by inversion Hin]. }
  destruct toks as [|t toks].
  { injection Hrun as <-. destruct Hor as [?|Hin]; [done|by inversion Hin]. }
  apply Forall_cons in Hall as [Ht Hall]. simpl in Hlen.
  assert (positionals_registered acts (next_positional st)) as Hnext.
  { unfold positionals_registered in *. simpl.
    destruct (ps_positionals st); [done|]. by apply Forall_cons in Hpos as [_ ?]. }
  destruct t as [s|j b o e|s]; simpl in Hrun.
  - (* an argument *)
    assert (toggled i a st \/ TOpt i a flag None ∈ toks) as Hor'.
    { destruct Hor as [?|Hin]; [by left|].
      apply elem_of_cons in Hin as [?|?]; [done|by right]. }
    destruct (ps_positionals st) as [|[j b] ps] eqn:Hps.
    + apply (IH toks (add_extra s st) st'); [lia|done|exact Hpos|done|].
      destruct Hor' as [[? ?]|?]; [left; by split|by right].
    + apply bind_Ok in Hrun as (v & Hv & Hrun).
      pose proof Hpos as Hpos'. unfold positionals_registered in Hpos'.
      rewrite Hps in Hpos'. apply Forall_cons in Hpos' as [[Hjb Hopt] _].
      apply (IH toks (take_action j b v (next_positional st)) st');
        [lia|done|exact Hnext|done|].
      destruct Hor' as [Htg|?]; [left|by right].
        apply take_action_keeps; [|done].
        intros Hd. destruct (same_dest_same_action j b Hjb Hd) as [_ ->].
        simpl in Hopt. rewrite Hopt in Hflag. by inversion Hflag.
  - (* an option *)
    destruct Ht as [Hjb Ho].
    destruct (kind b) eqn:Hkb, e as [e|]; try discriminate.
    + (* store, explicit value *)
      apply bind_Ok in Hrun as (v & Hv & Hrun).
      apply (IH toks (take_action j b v st) st'); [lia|done|exact Hpos|done|].
      destruct Hor as [Htg|Hin].
      * left. apply take_action_keeps; [|done].
        intros Hd. destruct (same_dest_same_action j b Hjb Hd) as [_ ->]. congruence.
      * apply elem_of_cons in Hin as [?|?]; [done|by right].
    + (* store, next token *)
      destruct toks as [|[s| |] toks]; try discriminate.
      apply bind_Ok in Hrun as (v & Hv & Hrun).
      apply Forall_cons in Hall as [_ Hall]. simpl in Hlen.
      apply (IH toks (take_action j b v st) st'); [lia|done|exact Hpos|done|].
      destruct Hor as [Htg|Hin].
      * left. apply take_action_keeps; [|done].
        intros Hd. destruct (same_dest_same_action j b Hjb Hd) as [_ ->]. congruence.
      * apply elem_of_cons in Hin as [Heq|Hin]; [injection Heq as <- <- <-; congruence|].
        apply elem_of_cons in Hin as [?|?]; [done|by right].
    + (* store_const *)
      apply (IH toks (take_action j b (a_const b) st) st'); [lia|done|exact Hpos|done|].
      destruct Hor as [Htg|Hin].
      * left. apply take_action_keeps; [|done].
        intros Hd. by destruct (same_dest_same_action j b Hjb Hd) as [_ ->].
      * apply elem_of_cons in Hin as [Heq|Hin]; [|by right].
        left. injection Heq as <- <- <-. apply take_action_sets.
    + (* help with an explicit value *)
      destruct (_ && _); discriminate.
  - (* an unknown option *)
    apply (IH toks (add_extra s st) st'); [lia|done|exact Hpos|done|].
    destruct Hor as [[? ?]|Hin]; [left; by split|].
    apply elem_of_cons in Hin as [?|?]; [done|by right].
Qed.

(** The end of the parse does not touch the destination of an action
    that was seen. *)
Lemma finish_toggled (seen : list nat) (ns : gmap string pyval) (missing : bool)
    (r : gmap string pyval * bool) :
  i ∈ seen -> ns !! dest a = Some (a_const a) ->
  foldM (finish_action seen) (indexed acts) (ns, missing) = Ok r ->
  r.1 !! dest a = Some (a_const a).
Proof.
  intros Hseen Hns.
  apply (foldM_invariant (fun acc => acc.1 !! dest a = Some (a_const a))); [|done].
  intros [ns1 m1] [j b] acc' Hjb Hacc. unfold finish_action. simpl in Hacc.
  case_bool_decide as Hj; [by intros [= <-]|].
  destruct (required b); [by intros [= <-]|].
  assert (dest b <> dest a) as Hd.
  { intros Hd. destruct (same_dest_same_action j b Hjb Hd) as [-> _]. done. }
  destruct (kind b), (a_default b); try (by intros [= <-]);
    (case_bool_decide; [|by intros [= <-]]);
    intros Hstep; apply bind_Ok in Hstep as (v & _ & [= <-]); simpl;
    by rewrite lookup_insert_ne.
Qed.

End toggle_among_tokens.

(** A parse that succeeds on tokens with the toggle's flag in front of
    any [--] returns the toggle's constant at its destination. *)
Lemma parse_toggle_present (p : ArgumentParser) (flag : string) (i : nat) (a : Action)
    (toks : list string) (ns : gmap string pyval) :
  toggle_of p flag i a ->
  flag ∈ options_part toks ->
  ArgumentParser_parse_args p toks = Ok ns ->
  ns !! dest a = Some (a_const a).
Proof.
  intros (Hdash & Hreg & Hkind & Hdest) Hin. unfold ArgumentParser_parse_args.
  intros H. apply bind_Ok in H as (ts & Hts & H).
  apply bind_Ok in H as (st & Hst & H).
  apply bind_Ok in H as (r & Hr & H).
  destruct (r.2 : bool); [discriminate|].
  destruct (negb _); [discriminate|]. injection H as <-.
  pose proof (assoc_Some_elem _ _ _ Hreg) as Helem.
  apply registry_indexed in Helem as [Hia Hflag].
  assert (toggled i a st) as [Hns Hseen].
  { eapply (consume_toggled (actions p) flag i a Hia Hflag Hkind Hdest (length ts));
      [done|by eapply classify_all_registered| |exact Hst|].
    - unfold positionals_registered. simpl. apply Forall_forall.
      intros jb Hjb. by apply list_elem_of_filter in Hjb as [? ?].
    - right. by eapply classify_all_flag. }
  by eapply (finish_toggled (actions p) i a Hia Hdest).
Qed.


(** ** Parsing, and parsing again *)

Lemma parse_args_inv (self self1 : ConfigBase) (args : option (list string))
    (argv : list string) (ns : gmap string pyval) :
  parse_args self args argv = Ok (self1, ns) ->
  exists p, parser self = Some p /\
            ArgumentParser_parse_args p (default argv args) = Ok ns /\
            copy_back (set_settings_attr ns self) = Ok self1.
Proof.
  unfold parse_args, get_parser. destruct (parser self) as [p|]; [|discriminate].
  simpl. intros H. apply bind_Ok in H as (ns' & Hns & H).
  apply bind_Ok in H as (self' & Hcb & H).
  destruct (copy_back_loop ns' (keys (_annotations (set_settings_attr ns' self)))
              (set_settings_attr ns' self) eq_refl) as (self'' & Hrun & Hsame & _).
  unfold copy_back in Hcb. rewrite Hrun in Hcb. injection Hcb as <-.
  unfold get_settings in H. destruct Hsame as (_ & _ & _ & _ & _ & _ & _ & Hs).
  rewrite Hs in H. simpl in H. injection H as <- <-.
  exists p. done.
Qed.

Lemma parse_args_intro (self : ConfigBase) (p : ArgumentParser)
    (args : option (list string)) (argv : list string) (ns : gmap string pyval) :
  parser self = Some p ->
  ArgumentParser_parse_args p (default argv args) = Ok ns ->
  exists self1,
    parse_args self args argv = Ok (self1, ns) /\
    same_but_attrs (set_settings_attr ns self) self1 /\
    forall name,
      attrs self1 !! name
      = if bool_decide (name ∈ keys (_annotations self))
        then match ns !! name with Some v => Some v | None => attrs self !! name end
        else attrs self !! name.
Proof.
  intros Hp Hns.
  destruct (copy_back_loop ns (keys (_annotations (set_settings_attr ns self)))
              (set_settings_attr ns self) eq_refl) as (self1 & Hrun & Hsame & Hattrs).
  exists self1. split; [|by split].
  unfold parse_args, get_parser. rewrite Hp. simpl. rewrite Hns. simpl.
  unfold copy_back. rewrite Hrun. simpl.
  unfold get_settings. destruct Hsame as (_ & _ & _ & _ & _ & _ & _ & ->). done.
Qed.

Lemma setattr_same (self : ConfigBase) (a : string) (v : pyval) :
  attrs self !! a = Some v -> setattr a v self = self.
Proof. intros H. destruct self. unfold setattr. simpl in *. f_equal. by apply insert_id. Qed.

Lemma set_settings_attr_same (self : ConfigBase) (ns : gmap string pyval) :
  settings self = Some ns -> set_settings_attr ns self = self.
Proof. intros H. destruct self. unfold set_settings_attr. simpl in *. by subst. Qed.

(** Copy-back changes nothing when the attributes already hold the
    parsed values. *)
Lemma copy_back_fixpoint (ns : gmap string pyval) (names : list string)
    (self : ConfigBase) :
  settings self = Some ns ->
  (forall a v, a ∈ names -> ns !! a = Some v -> attrs self !! a = Some v) ->
  foldM copy_back_step names self = Ok self.
Proof.
  intros Hs. induction names as [|a names IH]; intros Hattrs; simpl; [done|].
  rewrite (copy_back_step_spec self ns a Hs).
  assert (match ns !! a with Some v => setattr a v self | None => self end = self) as ->.
  { destruct (ns !! a) as [v|] eqn:Hv; [|done].
    apply setattr_same, Hattrs; [left|done]. }
  simpl. apply IH. intros a' v' Hin. apply Hattrs. by right.
Qed.

(** Parsing the same tokens again returns the same namespace and leaves
    the object as it is. *)
Lemma parse_args_idempotent (self self1 : ConfigBase) (args : option (list string))
    (argv : list string) (ns : gmap string pyval) :
  parse_args self args argv = Ok (self1, ns) ->
  parse_args self1 args argv = Ok (self1, ns).
Proof.
  intros H. apply parse_args_inv in H as (p & Hp & Hns & Hcb).
  destruct (copy_back_loop ns (keys (_annotations (set_settings_attr ns self)))
              (set_settings_attr ns self) eq_refl) as (self' & Hrun & Hsame & Hattrs).
  unfold copy_back in Hcb. rewrite Hrun in Hcb. injection Hcb as ->.
  destruct Hsame as (_ & Hann & _ & _ & _ & Hpar & _ & Hset). simpl in *.
  unfold parse_args, get_parser. rewrite Hpar, Hp. simpl. rewrite Hns. simpl.
  rewrite (set_settings_attr_same self1 ns Hset).
  unfold copy_back. rewrite copy_back_fixpoint with (ns := ns); [|done|].
  - simpl. unfold get_settings. by rewrite Hset.
  - intros a v Hin Hv. rewrite Hann in Hin.
    rewrite Hattrs, bool_decide_eq_true_2 by done. by rewrite Hv.
Qed.

(** Whether a parse succeeds, and with which namespace, is the parser's
    matter alone. *)
Lemma parse_args_namespace (self : ConfigBase) (p : ArgumentParser)
    (args : option (list string)) (argv : list string) (ns : gmap string pyval) :
  parser self = Some p ->
  (exists self1, parse_args self args argv = Ok (self1, ns))
  <-> ArgumentParser_parse_args p (default argv args) = Ok ns.
Proof.
  intros Hp. split.
  - intros [self1 H]. apply parse_args_inv in H as (p' & Hp' & Hns & _). congruence.
  - intros Hns. destruct (parse_args_intro self p args argv ns Hp Hns) as (self1 & H & _).
    by exists self1.
Qed.

(** After a successful parse the annotated attributes present in the
    namespace hold the parsed values, and the parser is the same. *)
Lemma parse_args_result (self self1 : ConfigBase) (args : option (list string))
    (argv : list string) (ns : gmap string pyval) :
  parse_args self args argv = Ok (self1, ns) ->
  parser self1 = parser self /\
  _annotations self1 = _annotations self /\
  settings self1 = Some ns /\
  forall a v, a ∈ keys (_annotations self) -> ns !! a = Some v ->
              attrs self1 !! a = Some v.
Proof.
  intros H. pose proof H as H'. apply parse_args_inv in H' as (p & Hp & Hns & _).
  destruct (parse_args_intro self p args argv ns Hp Hns) as (self' & H2 & Hsame & Hattrs).
  rewrite H in H2. injection H2 as <-.
  destruct Hsame as (_ & Hann & _ & _ & _ & Hpar & _ & Hset). simpl in *.
  repeat split; try done.
  intros a v Hin Hv. rewrite Hattrs, bool_decide_eq_true_2 by done. by rewrite Hv.
Qed.

(** ** The toggle of a class with one boolean field *)

Lemma toggle_registry (name : string) (dflt : pyval) :
  option_registry [help_action; toggle_action name dflt]
  = [("-h", (0%nat, help_action)); ("--help", (0%nat, help_action));
     ("--" +:+ name, (1%nat, toggle_action name dflt))].
Proof. reflexivity. Qed.

Lemma toggle_flag_lookup (name : string) (dflt : pyval) :
  name <> "help" ->
  assoc ("--" +:+ name) (option_registry [help_action; toggle_action name dflt])
  = Some (1%nat, toggle_action name dflt).
Proof.
  intros Hhelp. rewrite toggle_registry. rewrite flag_dashes. simpl.
  destruct (String.eqb_spec name "help") as [?|_]; [done|].
  by rewrite String.eqb_refl.
Qed.

Lemma toggle_of_object (name : string) (dflt : pyval) :
  name <> "help" ->
  toggle_of {| actions := [help_action; toggle_action name dflt];
               argument_groups := [] |}
            ("--" +:+ name) 1 (toggle_action name dflt).
Proof.
  intros Hhelp. split; [done|]. split; [by apply toggle_flag_lookup|].
  split; [done|]. simpl. intros j b Hjb Hd.
  apply elem_of_cons in Hjb as [[= -> ->]|Hjb]; [simpl in Hd; congruence|].
  apply list_elem_of_singleton in Hjb. by injection Hjb as -> ->.
Qed.

Lemma toggle_initial_namespace (name : string) (dflt : pyval) :
  initial_namespace [help_action; toggle_action name dflt] = {[ name := dflt ]}.
Proof. unfold initial_namespace. simpl. by rewrite lookup_empty, insert_empty. Qed.

(** The parser of the class accepts the flag alone, and no token at
    all. *)
Lemma toggle_parse_flag (name : string) (dflt : pyval) :
  name <> "" -> name <> "help" ->
  ArgumentParser_parse_args
    {| actions := [help_action; toggle_action name dflt]; argument_groups := [] |}
    ["--" +:+ name]
  = Ok (<[name := py_not dflt]> {[ name := dflt ]}).
Proof.
  intros Hne Hhelp. unfold ArgumentParser_parse_args.
  cbn [actions classify_all].
  assert (String.eqb ("--" +:+ name) "--" = false) as ->.
  { rewrite flag_dashes. simpl. by destruct (String.eqb_spec name ""). }
  unfold classify. rewrite toggle_flag_lookup by done.
  rewrite flag_dashes at 1. simpl.
  by rewrite toggle_initial_namespace.
Qed.

Lemma toggle_parse_nothing (name : string) (dflt : pyval) :
  exists ns,
    ArgumentParser_parse_args
      {| actions := [help_action; toggle_action name dflt]; argument_groups := [] |} []
    = Ok ns /\ ns !! name = Some dflt.
Proof.
  unfold ArgumentParser_parse_args. simpl. rewrite toggle_initial_namespace.
  destruct dflt; simpl; try (eexists; split; [reflexivity|apply lookup_singleton_eq]).
  rewrite bool_decide_eq_true_2 by apply lookup_singleton_eq. simpl.
  eexists; split; [reflexivity|apply lookup_insert_eq].
Qed.

(** The object of the class, parsed with its flag and parsed with
    nothing. *)
Lemma toggle_object_flag (name : string) (dflt : pyval) (argv : list string) :
  name <> "" -> name <> "help" ->
  exists self1 ns,
    parse_args (toggle_object name dflt) (Some ["--" +:+ name]) argv = Ok (self1, ns) /\
    attrs self1 !! name = Some (py_not dflt).
Proof.
  intros Hne Hhelp.
  destruct (parse_args_intro (toggle_object name dflt) _ (Some ["--" +:+ name]) argv _
              eq_refl (toggle_parse_flag name dflt Hne Hhelp))
    as (self1 & Hrun & _ & Hattrs).
  eexists self1, _. split; [exact Hrun|].
  rewrite Hattrs. simpl. rewrite bool_decide_eq_true_2 by left.
  by rewrite lookup_insert_eq.
Qed.

Lemma toggle_object_nothing (name : string) (dflt : pyval) (argv : list string) :
  exists self0 ns,
    parse_args (toggle_object name dflt) (Some []) argv = Ok (self0, ns) /\
    attrs self0 !! name = Some dflt.
Proof.
  destruct (toggle_parse_nothing name dflt) as (ns & Hns & Hname).
  destruct (parse_args_intro (toggle_object name dflt) _ (Some []) argv ns eq_refl Hns)
    as (self0 & Hrun & _ & Hattrs).
  exists self0, ns. split; [exact Hrun|].
  rewrite Hattrs. simpl. rewrite bool_decide_eq_true_2 by left. by rewrite Hname.
Qed.


(** A parse of the settings object that succeeds on tokens with the flag
    of a toggle leaves the toggle's constant in the attribute. *)
Lemma parse_args_toggle (self self1 : ConfigBase) (p : ArgumentParser) (flag : string)
    (i : nat) (a : Action) (toks argv : list string) (ns : gmap string pyval) :
  parser self = Some p -> toggle_of p flag i a ->
  dest a ∈ keys (_annotations self) ->
  flag ∈ options_part toks ->
  parse_args self (Some toks) argv = Ok (self1, ns) ->
  attrs self1 !! dest a = Some (a_const a).
Proof.
  intros Hp Htog Hann Hin H.
  pose proof H as H'. apply parse_args_inv in H' as (p' & Hp' & Hns & _).
  assert (p' = p) as -> by congruence. simpl in Hns.
  apply parse_args_result in H as (_ & _ & _ & Hattrs).
  apply Hattrs; [done|]. by eapply parse_toggle_present.
Qed.

(** ** The objects of a proper class

    What the constructor's steps keep, and what they give an object of a
    class whose names are none of [ConfigBase]'s own. *)


Lemma field_name_plain (name : string) : field_name name = true -> plain_name name = true.
Proof. unfold field_name. by intros ((_ & ?)%andb_true_iff & _)%andb_true_iff. Qed.

Lemma field_name_identifier (name : string) :
  field_name name = true -> identifier name = true.
Proof. unfold field_name. by intros ((? & _)%andb_true_iff & _)%andb_true_iff. Qed.

Lemma proper_class_hints (cls : declaration) (name : string) :
  proper_class cls = true -> name ∈ keys (cls_hints cls) -> field_name name = true.
Proof.
  unfold proper_class. intros ((H & _)%andb_true_iff & _)%andb_true_iff Hin.
  rewrite forallb_forall in H. by apply H, list_elem_of_In.
Qed.


Lemma fold_assoc_set_head (f : string -> pyobj) (grps : list string)
    (g : string) (v : pyobj) (d : list (string * pyobj)) :
  exists v' d',
    fold_left (fun d g => assoc_set g (f g) d) grps ((g, v) :: d) = (g, v') :: d'.
Proof.
  revert v d. induction grps as [|g' grps IH]; intros v d; simpl; [by eexists _, _|].
  destruct (String.eqb_spec g' g) as [->|_]; apply IH.
Qed.

(** What [setup] leaves on the object it returns: the annotations of the
    class, and a list of specs unless the class has nested classes only. *)
Lemma setup_Ok_inv (cls : declaration) (self self1 : ConfigBase) :
  setup cls self = Ok self1 ->
  _annotations self1 = cls_hints cls /\
  attrs self1 = attrs self /\
  settings self1 = settings self /\
  (annotation_groups_of cls = [] ->
   _settings self1
   = SList (match cls_hints cls with
            | [] => signature_specs (setup_parameters cls)
            | _ :: _ => annotated_specs (cls_hints cls) (cls_vars cls)
            end)) /\
  (annotation_groups_of cls <> [] ->
   exists g v d, _settings self1 = SDict ((g, v) :: d)).
Proof.
  destruct (decide (cls_hints cls = [])) as [Hh|Hh],
           (decide (annotation_groups_of cls = [])) as [Hg|Hg].
  - rewrite setup_signature by done. intros [= <-]. rewrite Hh. by repeat split.
  - rewrite setup_groups_only by done. intros [= <-]. rewrite Hh.
    repeat split; try done. intros _. cbn [_settings set__settings].
    destruct (annotation_groups_of cls) as [|g grps]; [done|]. cbn [fold_left assoc_set].
    destruct (fold_assoc_set_head (fun g => OSpecs (group_specs (group_of cls g))) grps g
                (OSpecs (group_specs (group_of cls g))) []) as (v' & d' & ->).
    by eexists _, _, _.
  - rewrite setup_fields_only by done. intros [= <-].
    repeat split; try done. intros _. cbn [_settings set__settings].
    by destruct (cls_hints cls).
  - by rewrite setup_fields_and_groups.
Qed.

Lemma make_call_Ok_inv (self self1 : ConfigBase) :
  make_call self = Ok self1 ->
  _annotations self1 = _annotations self /\ attrs self1 = attrs self /\
  settings self1 = settings self /\ _settings self1 = _settings self /\
  exists l, _settings self = SList l \/ _settings self = SDict [].
Proof.
  unfold make_call. intros H. apply bind_Ok in H as (sorted & Hs & H).
  apply bind_Ok in H as (params & _ & [= <-]).
  repeat split; try done. exists (settings_specs (_settings self)).
  destruct (_settings self) as [l|[|[k v] d]]; [by left|by right|].
  simpl in Hs. by destruct (String.length k <? 2)%nat.
Qed.

Lemma make_parser_Ok_inv (self self1 : ConfigBase) :
  make_parser self = Ok self1 ->
  _annotations self1 = _annotations self /\ attrs self1 = attrs self /\
  settings self1 = settings self /\ call_params self1 = call_params self.
Proof.
  unfold make_parser. intros H.
  destruct (groups self), (_settings self) as [[|x l]|[|[k v] d]]; try discriminate;
    try (apply bind_Ok in H as (r & _ & H)); try (injection H as <-); try done.
  by destruct (String.length k <? 2)%nat.
Qed.

(** The steps of a construction that returns. *)
Lemma init_Ok_inv (cls : declaration) (parse : parse_option) (argv : list string)
    (self : ConfigBase) :
  __init__ cls parse argv = Ok self ->
  exists s1 s2 s3,
    setup cls (set_groups false new_object) = Ok s1 /\
    make_call s1 = Ok s2 /\
    make_parser s2 = Ok s3 /\
    (self = s3 \/ exists args ns, parse_args s3 args argv = Ok (self, ns)).
Proof.
  unfold __init__. intros H.
  apply bind_Ok in H as (s1 & H1 & H). apply bind_Ok in H as (s2 & H2 & H).
  apply bind_Ok in H as (s3 & H3 & H). exists s1, s2, s3.
  split; [done|]. split; [done|]. split; [done|].
  destruct parse as [[]|[|t l]].
  - apply bind_Ok in H as ([s ns] & Hp & [= <-]). right. by eexists _, _.
  - left. by injection H.
  - left. by injection H.
  - apply bind_Ok in H as ([s ns] & Hp & [= <-]). right. by eexists _, _.
Qed.


(** The object a construction returns has the annotations of its class,
    and settings for annotated fields only. *)
Lemma init_Ok_annotations (cls : declaration) (parse : parse_option) (argv : list string)
    (self : ConfigBase) :
  __init__ cls parse argv = Ok self ->
  _annotations self = cls_hints cls /\
  forall name, is_Some (attrs self !! name) -> name ∈ keys (cls_hints cls).
Proof.
  intros H. apply init_Ok_inv in H as (s1 & s2 & s3 & H1 & H2 & H3 & H).
  apply setup_Ok_inv in H1 as (Ha1 & Hat1 & _).
  apply make_call_Ok_inv in H2 as (Ha2 & Hat2 & _).
  apply make_parser_Ok_inv in H3 as (Ha3 & Hat3 & _).
  assert (_annotations s3 = cls_hints cls) as Ha by congruence.
  assert (attrs s3 = ∅) as Hat by (rewrite Hat3, Hat2, Hat1; reflexivity).
  destruct H as [->|(args & ns & H)].
  - split; [done|]. intros name [v Hv]. by rewrite Hat in Hv.
  - pose proof H as H'. apply parse_args_inv in H' as (p & Hp & Hns & _).
    destruct (parse_args_intro s3 p args argv ns Hp Hns) as (self' & Hrun & Hsame & Hattrs).
    rewrite H in Hrun. injection Hrun as <-.
    destruct Hsame as (_ & Hann & _). cbn in Hann. split; [congruence|].
    intros name [v Hv]. rewrite Hattrs, Hat, Ha in Hv.
    case_bool_decide as Hin; [done|]. by rewrite lookup_empty in Hv.
Qed.

Lemma parameter_name_built (name : string) (dflt typ : pyval) (positional : bool) :
  identifier name = true ->
  parameter_name (add_arg_format name dflt typ positional) = name.
Proof.
  intros Hid. apply identifier_facts in Hid as (_ & _ & _ & Hr & _).
  unfold parameter_name, add_arg_format.
  destruct (is_bool_class typ), positional; simpl; try done;
    rewrite flag_dashes; simpl; done.
Qed.

Lemma annotated_specs_names (hints : list (string * pyval)) (vars : list (string * member)) :
  Forall (fun f : string * pyval => identifier f.1 = true) hints ->
  map parameter_name (annotated_specs hints vars) = keys hints.
Proof.
  induction 1 as [|[n typ] hints Hn Hall IH]; simpl; [done|].
  rewrite parameter_name_built by done. by f_equal.
Qed.



(** C6: the copy-back loop of [parse_args], run on an object of a class
    whose names are none of [ConfigBase]'s own, with any parsed-values
    object [ns] (its keys plain names, as the destinations of such a class
    are), completes; it sets the attribute [name] to [ns[name]]
    exactly for the names that the class annotates and that are present in
    [ns]; every other attribute, and in particular every key of [ns] that
    is not an annotated name, keeps the value it had.  [parse_args] ends in
    that state, with [ns] the namespace the parser returned.  The
    annotations the loop runs over are those of the class: every object
    that the constructor returns holds them, and has settings of plain
    names only. *)
Theorem C6_copy_back_only_annotated (cls : declaration) (self : ConfigBase)
    (ns : gmap string pyval) :
  proper_class cls = true ->
  _annotations self = cls_hints cls ->
  plain_attrs self ->
  settings self = Some ns -> plain_keys ns ->
  (exists self',
     copy_back self = Ok self' /\
     same_but_attrs self self' /\
     plain_attrs self' /\
     forall name,
       attrs self' !! name
       = if bool_decide (name ∈ keys (cls_hints cls))
         then match ns !! name with Some v => Some v | None => attrs self !! name end
         else attrs self !! name) /\
  (forall (self0 : ConfigBase) (args : option (list string)) (argv : list string)
          (p : ArgumentParser),
     parser self0 = Some p ->
     ArgumentParser_parse_args p (default argv args) = Ok ns ->
     self = set_settings_attr ns self0 ->
     exists self', copy_back self = Ok self' /\
                   parse_args self0 args argv = Ok (self', ns)) /\
  (forall (parse : parse_option) (argv : list string) (self1 : ConfigBase),
     __init__ cls parse argv = Ok self1 ->
     _annotations self1 = cls_hints cls /\ plain_attrs self1).
Proof.
  intros Hproper Hann Hplain Hs _.
  destruct (copy_back_loop ns (keys (_annotations self)) self Hs)
    as (self' & Hrun & Hsame & Hattrs).
  rewrite Hann in Hattrs.
  split; [|split].
  - exists self'. split; [done|]. split; [done|]. split; [|done].
    intros name Hname. rewrite Hattrs in Hname. case_bool_decide as Hin.
    + by apply field_name_plain, (proper_class_hints cls).
    + by apply Hplain.
  - intros self0 args argv p Hp Hparse ->. exists self'. split; [done|].
    unfold parse_args, get_parser. rewrite Hp. simpl. rewrite Hparse. simpl.
    unfold copy_back in Hrun. unfold copy_back. rewrite Hrun. simpl.
    unfold get_settings. destruct Hsame as (_ & _ & _ & _ & _ & _ & _ & ->). done.
  - intros parse argv self1 Hinit.
    apply init_Ok_annotations in Hinit as (Ha & Hat). split; [done|].
    intros name Hname. by apply field_name_plain, (proper_class_hints cls), Hat.
Qed.

(** A namespace with the annotated [flag] and an extra key [extra], on
    an object of the class [flag: bool = False]: the first is copied, the
    attribute [extra] keeps its old value. *)
Lemma C6_extra_key_witness :
  proper_class scenario2 = true /\
  _annotations parsed_with_extra_key = cls_hints scenario2 /\
  plain_attrs parsed_with_extra_key /\
  settings parsed_with_extra_key
  = Some {[ "flag" := VBool true; "extra" := VInt 1 ]} /\
  plain_keys {[ "flag" := VBool true; "extra" := VInt 1 ]} /\
  exists self',
    copy_back parsed_with_extra_key = Ok self' /\
    attrs self' !! "flag" = Some (VBool true) /\
    attrs self' !! "extra" = Some (VInt 0).
Proof.
  assert (plain_attrs parsed_with_extra_key) as Hplain.
  { intros name [v Hv]. cbn in Hv.
    apply lookup_insert_Some in Hv as [[<- _]|[_ Hv]]; [reflexivity|].
    by rewrite lookup_empty in Hv. }
  assert (plain_keys ({[ "flag" := VBool true; "extra" := VInt 1 ]} : gmap string pyval))
    as Hkeys.
  { intros name [v Hv].
    apply lookup_insert_Some in Hv as [[<- _]|[_ Hv]]; [reflexivity|].
    apply lookup_singleton_Some in Hv as [<- _]. reflexivity. }
  split; [reflexivity|]. split; [reflexivity|]. split; [exact Hplain|].
  split; [reflexivity|]. split; [exact Hkeys|].
  destruct (C6_copy_back_only_annotated scenario2 parsed_with_extra_key
              {[ "flag" := VBool true; "extra" := VInt 1 ]} eq_refl eq_refl Hplain eq_refl
              Hkeys)
    as [(self' & Hrun & _ & _ & Hattrs) _].
  exists self'. split; [exact Hrun|]. split.
  - rewrite Hattrs. reflexivity.
  - rewrite Hattrs. reflexivity.
Defined.


(** C1: a boolean-typed field gets the spec [--name] with action
    [store_const] and constant [not default]; hence, on an object whose
    annotated fields are named unlike the attributes and methods of
    [ConfigBase], any successful parse whose tokens contain the flag sets
    the field to the negation of its declared default, whatever else is on
    the command line.  For a class with one boolean field of any such name
    (an identifier other than the reserved words and other than help and
    self, which the parser and the callable reserve) and any default (other than a class, which [setup]
    would take for a group), parsing the flag alone succeeds and yields
    [not default], and parsing nothing yields the default.  In particular [flag: bool = False] gives True for [--flag] and
    False for no token, and a field that defaults to True gives False.  The
    flag takes no value: [--flag=true] and [--flag true] are usage errors. *)
Theorem C1_toggle_negates_default :
  (forall (name : string) (dflt : pyval) (positional : bool),
     add_arg_format name dflt (VClass Cbool) positional
     = ("--" +:+ name,
        {[ "default" := dflt; "action" := VStr "store_const";
           "const" := py_not dflt ]})) /\
  (forall (self self1 : ConfigBase) (p : ArgumentParser) (flag : string) (i : nat)
          (a : Action) (toks argv : list string) (ns : gmap string pyval),
     plain_names (keys (_annotations self)) = true ->
     parser self = Some p -> toggle_of p flag i a ->
     dest a ∈ keys (_annotations self) ->
     flag ∈ options_part toks ->
     parse_args self (Some toks) argv = Ok (self1, ns) ->
     attrs self1 !! dest a = Some (a_const a)) /\
  (forall (name : string) (dflt : pyval) (argv : list string),
     field_name name = true -> name <> "help" -> name <> "self" ->
     is_type dflt = false ->
     exists self,
       __init__ (toggle_class name dflt) (PBool false) argv = Ok self /\
       (exists p, parser self = Some p /\
                  toggle_of p ("--" +:+ name) 1 (toggle_action name dflt)) /\
       (exists self1 ns,
          parse_args self (Some ["--" +:+ name]) argv = Ok (self1, ns) /\
          attrs self1 !! name = Some (py_not dflt)) /\
       (exists self0 ns,
          parse_args self (Some []) argv = Ok (self0, ns) /\
          attrs self0 !! name = Some dflt)) /\
  (exists self self1 ns1 self0 ns0,
     __init__ scenario2 (PBool false) [] = Ok self /\
     parse_args self (Some ["--flag"]) [] = Ok (self1, ns1) /\
     attrs self1 !! "flag" = Some (VBool true) /\
     parse_args self (Some []) [] = Ok (self0, ns0) /\
     attrs self0 !! "flag" = Some (VBool false) /\
     __init__ scenario2 (PList ["--flag"]) [] = Ok self1 /\
     parse_args self (Some ["--flag=true"]) [] = Raise (SystemExit 2) /\
     parse_args self (Some ["--flag"; "true"]) [] = Raise (SystemExit 2)) /\
  (exists self self1 ns1,
     __init__ (toggle_class "quiet" (VBool true)) (PBool false) [] = Ok self /\
     parse_args self (Some ["--quiet"]) [] = Ok (self1, ns1) /\
     attrs self1 !! "quiet" = Some (VBool false)).
Proof.
  split; [reflexivity|]. split; [intros ? ? ? ? ? ? ? ? ? _; apply parse_args_toggle|].
  split; [|split].
  - intros name dflt argv Hid%field_name_identifier Hhelp Hself Hty.
    exists (toggle_object name dflt). split; [by apply init_toggle_class|].
    pose proof (identifier_facts name Hid) as (Hne & _).
    split; [|split].
    + eexists. split; [reflexivity|]. by apply toggle_of_object.
    + by apply toggle_object_flag.
    + apply toggle_object_nothing.
  - eexists _, _, _, _, _. repeat split; by vm_compute.
  - eexists _, _, _. repeat split; by vm_compute.
Qed.

(** C9: parsing again is idempotent and the last parse wins, on an
    object whose annotated fields are named unlike the attributes and
    methods of [ConfigBase].  Running [parse_args] a second time with the
    same tokens returns the same namespace and leaves the object exactly as
    the first run left it; a parse after another succeeds with the
    namespace it would have had without the earlier one, and that
    namespace's values are then in the annotated attributes.  A toggle is
    per parse: two successive parses that both carry the flag both leave
    the toggle's constant, and for a class with one boolean field of such a
    name, defaulting to False, both succeed with True. *)
Theorem C9_reparse_idempotent :
  (forall (self self1 : ConfigBase) (args : option (list string)) (argv : list string)
          (ns : gmap string pyval),
     plain_names (keys (_annotations self)) = true ->
     parse_args self args argv = Ok (self1, ns) ->
     parse_args self1 args argv = Ok (self1, ns)) /\
  (forall (self self1 : ConfigBase) (args1 args2 : option (list string))
          (argv : list string) (ns1 ns2 : gmap string pyval),
     plain_names (keys (_annotations self)) = true ->
     parse_args self args1 argv = Ok (self1, ns1) ->
     ((exists self2, parse_args self1 args2 argv = Ok (self2, ns2))
      <-> (exists self2, parse_args self args2 argv = Ok (self2, ns2))) /\
     (forall self2,
        parse_args self1 args2 argv = Ok (self2, ns2) ->
        settings self2 = Some ns2 /\
        forall a v, a ∈ keys (_annotations self) -> ns2 !! a = Some v ->
                    attrs self2 !! a = Some v)) /\
  (forall (self self1 self2 : ConfigBase) (p : ArgumentParser) (flag : string)
          (i : nat) (a : Action) (toks1 toks2 argv : list string)
          (ns1 ns2 : gmap string pyval),
     plain_names (keys (_annotations self)) = true ->
     parser self = Some p -> toggle_of p flag i a ->
     dest a ∈ keys (_annotations self) ->
     flag ∈ options_part toks1 -> flag ∈ options_part toks2 ->
     parse_args self (Some toks1) argv = Ok (self1, ns1) ->
     parse_args self1 (Some toks2) argv = Ok (self2, ns2) ->
     attrs self1 !! dest a = Some (a_const a) /\
     attrs self2 !! dest a = Some (a_const a)) /\
  (forall (name : string) (argv : list string),
     field_name name = true -> name <> "help" -> name <> "self" ->
     exists self self1 ns,
       __init__ (toggle_class name (VBool false)) (PBool false) argv = Ok self /\
       parse_args self (Some ["--" +:+ name]) argv = Ok (self1, ns) /\
       attrs self1 !! name = Some (VBool true) /\
       parse_args self1 (Some ["--" +:+ name]) argv = Ok (self1, ns)).
Proof.
  split; [intros ? ? ? ? ? _; apply parse_args_idempotent|]. split; [|split].
  - intros self self1 args1 args2 argv ns1 ns2 _ H1.
    pose proof H1 as H1'. apply parse_args_inv in H1' as (p & Hp & _ & _).
    apply parse_args_result in H1 as (Hpar & Hann & _ & _).
    split.
    + rewrite (parse_args_namespace self p args2 argv ns2 Hp).
      apply parse_args_namespace. congruence.
    + intros self2 H2. apply parse_args_result in H2 as (_ & _ & Hset & Hattrs).
      split; [done|]. intros a v Hin. apply Hattrs. by rewrite Hann.
  - intros self self1 self2 p flag i a toks1 toks2 argv ns1 ns2
      _ Hp Htog Hann Hin1 Hin2 H1 H2.
    split; [exact (parse_args_toggle self self1 p flag i a toks1 argv ns1
                     Hp Htog Hann Hin1 H1)|].
    apply parse_args_result in H1 as (Hpar & Hann1 & _ & _).
    apply (parse_args_toggle self1 self2 p flag i a toks2 argv ns2); try done.
    + congruence.
    + by rewrite Hann1.
  - intros name argv Hid%field_name_identifier Hhelp Hself.
    pose proof (identifier_facts name Hid) as (Hne & _).
    destruct (toggle_object_flag name (VBool false) argv Hne Hhelp)
      as (self1 & ns & Hrun & Hattr).
    exists (toggle_object name (VBool false)), self1, ns.
    split; [by apply init_toggle_class|]. split; [done|]. split; [done|].
    exact (parse_args_idempotent _ _ _ _ _ Hrun).
Qed.

(** The toggle among other tokens: [a: int; flag: bool = False] parsed
    with the tokens 5 --flag. *)
Lemma int_and_flag_toggle :
  toggle_of int_and_flag_parser "--flag" 2 (toggle_action "flag" (VBool false)).
Proof.
  split; [reflexivity|]. split; [reflexivity|]. split; [reflexivity|].
  intros j b Hjb Hd. cbn in Hjb.
  repeat (apply elem_of_cons in Hjb as [[= -> ->]|Hjb]; [try done; discriminate|]).
  by inversion Hjb.
Qed.

(** The flag after a positional argument. *)
Lemma C1_int_and_flag_witness :
  __init__ int_and_flag (PBool false) [] = Ok int_and_flag_object /\
  exists self1 ns,
    parse_args int_and_flag_object (Some ["5"; "--flag"]) [] = Ok (self1, ns) /\
    attrs self1 !! "flag" = Some (VBool true) /\
    attrs self1 !! "a" = Some (VInt 5).
Proof.
  split; [by vm_compute|].
  destruct (parse_args int_and_flag_object (Some ["5"; "--flag"]) [])
    as [[self1 ns]|e] eqn:Hrun; [|by vm_compute in Hrun].
  exists self1, ns. split; [reflexivity|]. split.
  - destruct C1_toggle_negates_default as (_ & Htoggle & _).
    apply (Htoggle int_and_flag_object self1 int_and_flag_parser "--flag" 2%nat
             (toggle_action "flag" (VBool false)) ["5"; "--flag"] [] ns).
    + by vm_compute.
    + by vm_compute.
    + apply int_and_flag_toggle.
    + vm_compute. right. left.
    + vm_compute. right. left.
    + exact Hrun.
  - vm_compute in Hrun. injection Hrun as <- _. by vm_compute.
Defined.

(** Two parses in a row, both with the flag; then the second once more. *)
Lemma C9_int_and_flag_witness :
  exists self1 self2 ns1 ns2,
    parse_args int_and_flag_object (Some ["5"; "--flag"]) [] = Ok (self1, ns1) /\
    parse_args self1 (Some ["--flag"; "7"]) [] = Ok (self2, ns2) /\
    attrs self1 !! "flag" = Some (VBool true) /\
    attrs self2 !! "flag" = Some (VBool true) /\
    attrs self2 !! "a" = Some (VInt 7) /\
    parse_args self2 (Some ["--flag"; "7"]) [] = Ok (self2, ns2).
Proof.
  destruct (parse_args int_and_flag_object (Some ["5"; "--flag"]) [])
    as [[self1 ns1]|e] eqn:Hrun1; [|by vm_compute in Hrun1].
  destruct (parse_args self1 (Some ["--flag"; "7"]) [])
    as [[self2 ns2]|e] eqn:Hrun2;
    [|vm_compute in Hrun1; injection Hrun1 as <- _; by vm_compute in Hrun2].
  exists self1, self2, ns1, ns2.
  destruct C9_reparse_idempotent as (Hidem & _ & Htoggle & _).
  destruct (Htoggle int_and_flag_object self1 self2 int_and_flag_parser "--flag" 2%nat
              (toggle_action "flag" (VBool false)) ["5"; "--flag"] ["--flag"; "7"] []
              ns1 ns2) as [H1 H2].
  - by vm_compute.
  - by vm_compute.
  - apply int_and_flag_toggle.
  - vm_compute. right. left.
  - vm_compute. right. left.
  - vm_compute. left.
  - exact Hrun1.
  - exact Hrun2.
  - split; [reflexivity|]. split; [exact Hrun2|]. split; [exact H1|]. split; [exact H2|].
    split.
    + vm_compute in Hrun1. injection Hrun1 as <- _.
      vm_compute in Hrun2. injection Hrun2 as <- _. by vm_compute.
    + apply (Hidem self1 self2 (Some ["--flag"; "7"]) [] ns2); [|exact Hrun2].
      vm_compute in Hrun1. injection Hrun1 as <- _. by vm_compute.
Defined.



(** * Further properties *)

(** ** Calling the settings object: which value goes where *)








Lemma set_settings_frame (vardict : list (string * pyval)) (self : ConfigBase)
    (name : string) :
  name ∉ keys vardict -> attrs (set_settings vardict self) !! name = attrs self !! name.
Proof.
  unfold set_settings. revert self.
  induction vardict as [|[a v] vardict IH]; intros self Hnin; simpl; [done|].
  simpl in Hnin. apply not_elem_of_cons in Hnin as [Hne Hnin].
  rewrite IH by done. simpl. by rewrite lookup_insert_ne.
Qed.



(** ** Construction of a class with nested classes *)



(** ** Construction of a class with annotated fields only *)

Lemma filter_partition_Permutation {A : Type} (f : A -> bool) (l : list A) :
  (List.filter f l ++ List.filter (fun x => negb (f x)) l)%list ≡ₚ l.
Proof.
  induction l as [|x l IH]; simpl; [done|].
  destruct (f x); simpl.
  - by constructor.
  - rewrite <- Permutation_middle. by constructor.
Qed.

Lemma sorted_settings_flat (l : list spec) :
  Forall built l ->
  sorted_settings (SList l)
  = Ok (List.filter default_None l ++ List.filter (fun x => negb (default_None x)) l)%list.
Proof.
  intros Hb. simpl.
  assert (mapR (fun x : spec => k ← default_is_None x; Ok (k, x)) l
          = Ok (map (fun x => (default_None x, x)) l)) as ->.
  { induction Hb as [|x l Hx Hb IH]; simpl; [done|].
    rewrite (built_default_is_None x Hx). simpl. by rewrite IH. }
  simpl. rewrite sorted_reverse_partition, map_app.
  rewrite (filter_map_snd default_None (fun b => b)).
  by rewrite (filter_map_snd default_None negb).
Qed.

(** [make_call] succeeds on the specs of distinct identifiers other than
    self. *)
Lemma make_call_flat (self : ConfigBase) (hints : list (string * pyval))
    (vars : list (string * member)) :
  _settings self = SList (annotated_specs hints vars) ->
  Forall (fun f : string * pyval => identifier f.1 = true) hints ->
  NoDup (keys hints) -> "self" ∉ keys hints ->
  make_call self
  = Ok (set_call_params
          (map parameter_name
             (List.filter default_None (annotated_specs hints vars)
              ++ List.filter (fun x => negb (default_None x))
                             (annotated_specs hints vars))%list)
          self).
Proof.
  intros Hs Hid Hnd Hself. unfold make_call. rewrite Hs.
  rewrite sorted_settings_flat by apply annotated_specs_built.
  cbn [mbind res_bind]. unfold compile_def. rewrite decide_True; [done|].
  assert (map (fun s : spec => remove_dashes s.1)
              (List.filter default_None (annotated_specs hints vars)
               ++ List.filter (fun x => negb (default_None x))
                              (annotated_specs hints vars))%list
          ≡ₚ keys hints) as Hperm.
  { rewrite <- (annotated_specs_names hints vars Hid).
    apply Permutation_map, filter_partition_Permutation. }
  apply NoDup_cons. split.
  - intros Hin. apply Hself. by rewrite <- Hperm.
  - by rewrite Hperm.
Qed.

Lemma flag_injective (n n' : string) : "--" +:+ n = "--" +:+ n' -> n = n'.
Proof. rewrite !flag_dashes. by intros [= ->]. Qed.

Lemma identifier_first_char (name : string) :
  identifier name = true ->
  exists c s, name = String c s /\ Ascii.eqb c "-" = false.
Proof.
  destruct name as [|c s]; [discriminate|]. unfold identifier. simpl.
  intros H. apply andb_true_iff in H as [_ H]. apply andb_true_iff in H as [Hc _].
  exists c, s. split; [done|]. by apply identifier_char_not_dash.
Qed.

(** Registering the spec of a field whose flag is not taken yet. *)
Lemma add_argument_field (registered : list Action) (name : string)
    (dflt typ : pyval) (positional : bool) :
  identifier name = true -> callable_type typ = true ->
  Forall (fun a => "--" +:+ name ∉ option_strings a) registered ->
  add_argument registered (add_arg_format name dflt typ positional).1
               (add_arg_format name dflt typ positional).2
  = Ok (field_action name dflt typ positional).
Proof.
  intros Hid Hcall Hfree.
  pose proof (identifier_facts name Hid) as (Hne & Hd & Hl & _ & Hu).
  assert (bool_decide
            (Exists (fun a : Action =>
                       Exists (fun o : string => o ∈ option_strings a) ["--" +:+ name])
                    registered) = false) as Hconflict.
  { apply bool_decide_eq_false_2. intros Hex.
    apply Exists_exists in Hex as (a & Ha & Hex).
    apply Exists_cons in Hex as [Hex|Hex]; [|by inversion Hex].
    rewrite Forall_forall in Hfree. by apply (Hfree a). }
  unfold add_arg_format, field_action.
  destruct (is_bool_class typ) eqn:Hb.
  - unfold add_argument. cbn [fst snd]. rewrite flag_dashes. cbn -[String.app].
    rewrite Hl, Hu. destruct (String.eqb_spec name "") as [?|_]; [done|].
    cbn [mbind res_bind]. simplify_map_eq. cbn [mbind res_bind negb callable_type].
    rewrite <- flag_dashes, Hconflict. reflexivity.
  - destruct positional.
    + destruct (identifier_first_char name Hid) as (c & s & -> & Hc).
      unfold add_argument. cbn [fst snd]. rewrite Hc.
      cbn [mbind res_bind]. simplify_map_eq. cbn [mbind res_bind].
      rewrite Hcall. cbn [negb].
      rewrite bool_decide_eq_false_2; [done|].
      intros Hex. apply Exists_exists in Hex as (a & _ & Hex). by inversion Hex.
    + unfold add_argument. cbn [fst snd]. rewrite flag_dashes. cbn -[String.app].
      rewrite Hl, Hu. destruct (String.eqb_spec name "") as [?|_]; [done|].
      cbn [mbind res_bind]. simplify_map_eq. cbn [mbind res_bind].
      rewrite Hcall. cbn [negb].
      rewrite <- flag_dashes, Hconflict. reflexivity.
Qed.

Lemma field_action_options (name : string) (dflt typ : pyval) (positional : bool)
    (o : string) :
  o ∈ option_strings (field_action name dflt typ positional) -> o = "--" +:+ name.
Proof.
  unfold field_action. destruct (is_bool_class typ), positional; simpl; intros H;
    try (by inversion H); by apply list_elem_of_singleton in H.
Qed.

(** The loop of [make_parser] over the specs of distinct, well-named
    fields registers one action per field, in order. *)
Lemma add_specs_fields (vars : list (string * member)) (hints : list (string * pyval)) :
  forall (acts added : list Action),
    NoDup (keys hints) ->
    Forall (fun f : string * pyval =>
              identifier f.1 = true /\ callable_type f.2 = true /\
              Forall (fun a => "--" +:+ f.1 ∉ option_strings a) acts) hints ->
    foldM (fun acc (setting : spec) =>
             a ← add_argument acc.1 setting.1 setting.2;
             Ok ((acc.1 ++ [a])%list, (acc.2 ++ [a])%list))
          (annotated_specs hints vars) (acts, added)
    = Ok ((acts ++ map (annotated_action vars) hints)%list,
          (added ++ map (annotated_action vars) hints)%list).
Proof.
  induction hints as [|[n typ] hints IH]; intros acts added Hnd Hall.
  - simpl. by rewrite !app_nil_r.
  - apply Forall_cons in Hall as [(Hid & Hcall & Hfree) Hall].
    simpl in Hnd. apply NoDup_cons in Hnd as [Hn Hnd].
    cbn [annotated_specs map foldM fst snd].
    rewrite add_argument_field by done. cbn [mbind res_bind fst snd].
    rewrite IH; [|done|].
    + unfold annotated_action at 3 6. cbn [fst snd map].
      by rewrite <- !app_assoc.
    + apply Forall_forall. intros [n' typ'] Hin.
      rewrite Forall_forall in Hall. destruct (Hall _ Hin) as (Hid' & Hcall' & Hfree').
      split; [done|]. split; [done|]. cbn [fst].
      apply Forall_app. split; [done|]. constructor; [|done].
      intros Ho. apply field_action_options in Ho. apply flag_injective in Ho.
      cbn [fst] in Ho. subst n'. apply Hn.
      apply list_elem_of_fmap. by exists (n, typ').
Qed.

Lemma flag_not_help (name : string) :
  name <> "help" -> "--" +:+ name ∉ option_strings help_action.
Proof.
  intros Hne Hin. simpl in Hin. rewrite flag_dashes in Hin.
  apply elem_of_cons in Hin as [Hin|Hin]; [discriminate|].
  apply list_elem_of_singleton in Hin. by injection Hin as ->.
Qed.

(** Construction of a class with annotated fields only reaches the
    parse with the object [flat_object cls]. *)
Lemma init_flat_class (cls : declaration) (parse : parse_option) (argv : list string) :
  flat_class cls ->
  __init__ cls parse argv
  = if parse_truthy parse
    then r ← parse_args (flat_object cls)
               (match parse with PList l => Some l | PBool _ => None end) argv;
         Ok r.1
    else Ok (flat_object cls).
Proof.
  intros (_ & Hh & Hg & Hnd & Hall).
  assert (make_parser (set_call_params
            (map parameter_name
               (List.filter default_None (annotated_specs (cls_hints cls) (cls_vars cls))
                ++ List.filter (fun x => negb (default_None x))
                     (annotated_specs (cls_hints cls) (cls_vars cls)))%list)
            (set__settings (SList (annotated_specs (cls_hints cls) (cls_vars cls)))
               (set__annotation_groups []
                  (set__annotations (cls_hints cls) (set_groups false new_object)))))
          = Ok (flat_object cls)) as Hparser.
  { unfold make_parser. cbn [groups _settings set_call_params
      set__settings set__annotation_groups set__annotations set_groups new_object].
    unfold add_specs. rewrite (add_specs_fields (cls_vars cls) (cls_hints cls)); [|done|].
    - reflexivity.
    - eapply Forall_impl; [exact Hall|]. intros f (Hid & Hhelp & _ & Hcall).
      split; [done|]. split; [done|]. constructor; [by apply flag_not_help|done]. }
  unfold __init__.
  rewrite setup_fields_only by done. cbn [mbind res_bind].
  erewrite make_call_flat; [|reflexivity| | |].
  - cbn [mbind res_bind]. rewrite Hparser. cbn [mbind res_bind].
    by destruct parse as [[]|[|t l]].
  - eapply Forall_impl; [exact Hall|]. by intros f (? & _).
  - done.
  - intros Hin. apply list_elem_of_fmap in Hin as (f & Hf & Hin).
    rewrite Forall_forall in Hall. destruct (Hall f Hin) as (_ & _ & Hself & _).
    by apply Hself.
Qed.

(** X3: a class with annotated fields only (distinct identifiers other
    than help and self and other than the names of [ConfigBase]'s own
    attributes and methods, callable annotations, no class among the
    defaults, no other member named like an attribute or a method of
    [ConfigBase]) is always constructed: [cls(parse=False)] returns the object whose
    parser has one action per field, in declaration order, and whose
    callable has one parameter per field.  An empty token list is falsy and
    gives the same unparsed object; a non-empty one is handed to
    [parse_args]. *)
Theorem X3_flat_class_constructs (cls : declaration) (argv : list string) :
  flat_class cls ->
  __init__ cls (PBool false) argv = Ok (flat_object cls) /\
  __init__ cls (PList []) argv = Ok (flat_object cls) /\
  forall (t : string) (l : list string),
    __init__ cls (PList (t :: l)) argv
    = (r ← parse_args (flat_object cls) (Some (t :: l)) argv; Ok r.1).
Proof.
  intros Hflat.
  split; [apply (init_flat_class cls (PBool false) argv Hflat)|].
  split; [apply (init_flat_class cls (PList []) argv Hflat)|].
  intros t l. apply (init_flat_class cls (PList (t :: l)) argv Hflat).
Qed.

Lemma flat_class_scenario1 : flat_class scenario1.
Proof.
  split; [reflexivity|]. split; [discriminate|]. split; [reflexivity|]. split.
  - apply (bool_decide_unpack _). by vm_compute.
  - repeat constructor; done.
Defined.

(** The class of scenario 1. *)
Lemma X3_scenario1_witness :
  flat_class scenario1 /\
  __init__ scenario1 (PBool false) [] = Ok (flat_object scenario1) /\
  call_params (flat_object scenario1) = Some ["a"; "b"; "c"].
Proof.
  split; [exact flat_class_scenario1|]. split; [|reflexivity].
  exact (proj1 (X3_flat_class_constructs scenario1 [] flat_class_scenario1)).
Defined.
(** ** The keys of the parsed namespace *)





(** ** A parsed object of a class with annotated fields only *)

Lemma field_action_dest (name : string) (dflt typ : pyval) (positional : bool) :
  dest (field_action name dflt typ positional) = name /\
  kind (field_action name dflt typ positional) <> Help.
Proof. unfold field_action. by destruct (is_bool_class typ). Qed.

Lemma annotated_action_dest (vars : list (string * member)) (f : string * pyval) :
  dest (annotated_action vars f) = f.1 /\ kind (annotated_action vars f) <> Help.
Proof. apply field_action_dest. Qed.



(** ** The read accessors *)



(** X6: an object whose parser has not run exposes no value by key: a
    key read raises a KeyError (the missing attribute [settings]), and the
    attribute fallback, asked for a plain name (none of the object's own
    attributes, which the instance dictionary holds as well), finds the
    setting of that name and raises a KeyError when there is none, never an
    AttributeError.  A construction without a parse of a class with
    annotated fields only ends in that state, with no setting: both
    accessors raise a KeyError for every plain name, the declared fields
    included. *)
Theorem X6_accessors_before_parse :
  (forall (self : ConfigBase) (k : string),
     plain_name k = true ->
     settings self = None ->
     __getitem__ self k = Fails KeyError /\
     __getattr__ self k
     = match attrs self !! k with Some v => Value v | None => Fails KeyError end) /\
  (forall (cls : declaration) (parse : parse_option) (argv : list string) (k : string),
     flat_class cls -> parse_truthy parse = false ->
     plain_name k = true ->
     __init__ cls parse argv = Ok (flat_object cls) /\
     __getitem__ (flat_object cls) k = Fails KeyError /\
     __getattr__ (flat_object cls) k = Fails KeyError).
Proof.
  split.
  - intros self k _ Hs. unfold __getitem__, __getattr__, instance_dict_getitem.
    by rewrite Hs.
  - intros cls parse argv k Hflat Hfalse _.
    rewrite (init_flat_class cls parse argv Hflat), Hfalse. done.
Qed.
(** ** Construction on an empty command line *)

Lemma get_value_error (a : Action) (s : string) (e : exn) :
  get_value a s = Raise e -> e = SystemExit 2.
Proof. unfold get_value. destruct (convert _ _); [discriminate|by intros [= <-]]. Qed.

Lemma annotated_action_required (vars : list (string * member)) (f : string * pyval) :
  required (annotated_action vars f) = positional_field vars f /\
  a_default (annotated_action vars f) = declared_default f.1 vars.
Proof.
  unfold annotated_action, field_action, positional_field.
  by destruct (is_bool_class f.2).
Qed.

(** Every destination starts at its default. *)
Lemma initial_namespace_lookup (acts : list Action) :
  forall ns0 : gmap string pyval,
    Forall (fun a => kind a <> Help) acts -> NoDup (map dest acts) ->
    (forall a, a ∈ acts -> ns0 !! dest a = None) ->
    forall a, a ∈ acts ->
      fold_left (fun ns a =>
                   match kind a, ns !! dest a with
                   | Help, _ | _, Some _ => ns
                   | _, None => <[dest a := a_default a]> ns
                   end) acts ns0 !! dest a = Some (a_default a).
Proof.
  induction acts as [|b acts IH]; intros ns0 Hk Hnd Hfree a Ha; [by inversion Ha|].
  apply Forall_cons in Hk as [Hkb Hk]. apply NoDup_cons in Hnd as [Hb Hnd].
  assert (forall ns1 : gmap string pyval,
            ns1 !! dest b = Some (a_default b) ->
            fold_left (fun ns a =>
                         match kind a, ns !! dest a with
                         | Help, _ | _, Some _ => ns
                         | _, None => <[dest a := a_default a]> ns
                         end) acts ns1 !! dest b = Some (a_default b)) as Hkeep.
  { clear -Hb. revert Hb. induction acts as [|c acts IH]; intros Hb ns1 H1; [done|].
    simpl in Hb. apply not_elem_of_cons in Hb as [Hbc Hb]. simpl.
    apply IH; [done|].
    destruct (kind c), (ns1 !! dest c); try done; by rewrite lookup_insert_ne. }
  simpl. rewrite (Hfree b) by left.
  assert (match kind b with
          | Help => ns0
          | _ => <[dest b := a_default b]> ns0
          end = <[dest b := a_default b]> ns0) as -> by (by destruct (kind b)).
  apply elem_of_cons in Ha as [->|Ha].
  - apply Hkeep, lookup_insert_eq.
  - apply IH; [done|done| |done].
    intros c Hc. rewrite lookup_insert_ne; [apply Hfree; by right|].
    intros Heq. apply Hb. rewrite Heq. apply list_elem_of_fmap. by exists c.
Qed.

(** Once an action is missing, the end of the parse is a usage error. *)
Lemma finish_missing (seen : list nat) (l : list (nat * Action)) :
  forall ns : gmap string pyval,
    foldM (finish_action seen) l (ns, true) = Raise (SystemExit 2) \/
    exists ns', foldM (finish_action seen) l (ns, true) = Ok (ns', true).
Proof.
  induction l as [|[i a] l IH]; intros ns; [right; by exists ns|].
  simpl. case_bool_decide; [apply IH|].
  destruct (required a); [apply IH|].
  destruct (kind a), (a_default a); try apply IH;
    (case_bool_decide; [|apply IH]);
    (destruct (get_value a s) as [v|e] eqn:Hv;
     [apply IH|left; by rewrite (get_value_error _ _ _ Hv)]).
Qed.


Lemma finish_action_default (seen : list nat) (i : nat) (a : Action)
    (ns : gmap string pyval) (m : bool) :
  i ∉ seen -> kind a <> Help -> required a = false ->
  ns !! dest a = Some (a_default a) ->
  finish_action seen (ns, m) (i, a) = (v ← default_value a; Ok (<[dest a := v]> ns, m)).
Proof.
  intros Hi Hk Hreq Hns. unfold finish_action, default_value.
  rewrite bool_decide_eq_false_2 by done. rewrite Hreq.
  destruct (kind a), (a_default a) eqn:Hd; try done;
    try (simpl; by rewrite insert_id);
    by rewrite bool_decide_eq_true_2.
Qed.

(** The end of a parse that has seen nothing, over storing actions with
    distinct destinations that are still at their defaults: a required
    action, or a string default that the type function rejects, is a usage
    error. *)
Lemma finish_unmet (l : list (nat * Action)) :
  forall (ns : gmap string pyval) (m : bool),
    Forall (fun ia : nat * Action => kind ia.2 <> Help) l ->
    NoDup (map (fun ia : nat * Action => dest ia.2) l) ->
    (forall ia, ia ∈ l -> ns !! dest ia.2 = Some (a_default ia.2)) ->
    Exists (fun ia : nat * Action =>
              required ia.2 = true \/ exists e, default_value ia.2 = Raise e) l ->
    foldM (finish_action []) l (ns, m) = Raise (SystemExit 2) \/
    exists ns', foldM (finish_action []) l (ns, m) = Ok (ns', true).
Proof.
  induction l as [|[i a] l IH]; intros ns m Hk Hnd Hns Hex; [by inversion Hex|].
  apply Forall_cons in Hk as [Hka Hk]. simpl in Hnd. apply NoDup_cons in Hnd as [Ha Hnd].
  simpl in Hka.
  pose proof (Hns (i, a) ltac:(left)) as Hnsa. simpl in Hnsa.
  cbn [foldM]. destruct (required a) eqn:Hreq.
  { unfold finish_action. cbn [fst snd]. rewrite bool_decide_eq_false_2 by (by inversion 1).
    rewrite Hreq. cbn [mbind res_bind]. apply finish_missing. }
  rewrite finish_action_default by (done || by inversion 1).
  destruct (default_value a) as [v|e] eqn:Hv; cbn [mbind res_bind].
  - apply IH; [done|done| |].
    + intros ia Hia. rewrite lookup_insert_ne; [apply Hns; by right|].
      intros Heq. apply Ha. rewrite Heq. apply list_elem_of_fmap. by exists ia.
    + apply Exists_cons in Hex as [[?|[e He]]|Hex]; simpl in *; [congruence|congruence|done].
  - left. unfold default_value in Hv.
    destruct (a_default a); try discriminate.
    by rewrite (get_value_error _ _ _ Hv).
Qed.

Lemma parse_nothing (p : ArgumentParser) :
  ArgumentParser_parse_args p []
  = (r ← foldM (finish_action []) (indexed (actions p))
           (initial_namespace (actions p), false);
     if (r.2 : bool) then Raise (SystemExit 2) else Ok r.1).
Proof. reflexivity. Qed.

(** The end of the parse of an empty command line by the parser of a class
    with annotated fields only. *)
Lemma flat_parse_nothing (vars : list (string * member)) (hints : list (string * pyval)) :
  NoDup (keys hints) ->
  let acts := help_action :: map (annotated_action vars) hints in
  let run := foldM (finish_action []) (indexed acts) (initial_namespace acts, false) in
  Exists (fun f => positional_field vars f = true \/
                   exists e, default_value (annotated_action vars f) = Raise e) hints ->
  run = Raise (SystemExit 2) \/ exists ns, run = Ok (ns, true).
Proof.
  intros Hnd acts run Hex.
  set (A := map (annotated_action vars) hints).
  set (l := zip (seq 1 (length A)) A).
  assert (map snd l = A) as Hsnd.
  { apply snd_zip. by rewrite length_seq. }
  assert (map dest A = keys hints) as Hdest.
  { unfold A, keys. rewrite map_map. apply map_ext.
    intros f. apply annotated_action_dest. }
  assert (Forall (fun a => kind a <> Help) A) as HkA.
  { apply Forall_forall. intros a Ha.
    apply list_elem_of_fmap in Ha as (f & -> & _). apply annotated_action_dest. }
  assert (run = foldM (finish_action []) l (initial_namespace acts, false)) as ->
    by reflexivity.
  assert (map (fun ia : nat * Action => dest ia.2) l = keys hints) as Hdl.
  { rewrite <- Hdest, <- Hsnd, map_map. reflexivity. }
  assert (forall ia, ia ∈ l -> exists f, f ∈ hints /\ ia.2 = annotated_action vars f)
    as Hin1.
  { intros ia Hia. assert (ia.2 ∈ A) as Hin.
    { rewrite <- Hsnd. apply list_elem_of_fmap. by exists ia. }
    apply list_elem_of_fmap in Hin as (f & Heq & Hf). by exists f. }
  assert (forall f, f ∈ hints -> exists ia, ia ∈ l /\ ia.2 = annotated_action vars f)
    as Hin2.
  { intros f Hf. assert (annotated_action vars f ∈ map snd l) as Hin.
    { rewrite Hsnd. apply list_elem_of_fmap. by exists f. }
    apply list_elem_of_fmap in Hin as (ia & Heq & Hia). by exists ia. }
  apply finish_unmet.
  - apply Forall_forall. intros ia Hia. destruct (Hin1 ia Hia) as (f & _ & ->).
    apply annotated_action_dest.
  - by rewrite Hdl.
  - intros ia Hia.
    apply (initial_namespace_lookup A ∅ HkA); [by rewrite Hdest|done|].
    rewrite <- Hsnd. apply list_elem_of_fmap. by exists ia.
  - apply Exists_exists in Hex as (f & Hf & Hbad).
    destruct (Hin2 f Hf) as (ia & Hia & Heq).
    apply Exists_exists. exists ia. split; [done|]. rewrite Heq.
    by rewrite (proj1 (annotated_action_required vars f)).
Qed.

(** X7: [cls()] on an empty command line, for a class with annotated
    fields only (none named like an attribute or a method of [ConfigBase])
    whose defaults go through no type function that could change or reject
    them (a string default on a string or boolean field only): if some
    field is a required positional (not boolean, no value in the class
    body), the construction ends the process with exit status 2 and
    returns no object. *)
Theorem X7_empty_command_line_exits (cls : declaration) :
  flat_class cls ->
  Forall (fun f => plain_default (cls_vars cls) f = true) (cls_hints cls) ->
  Exists (fun f => positional_field (cls_vars cls) f = true) (cls_hints cls) ->
  __init__ cls (PBool true) [] = Raise (SystemExit 2).
Proof.
  intros Hflat _ Hex. rewrite (init_flat_class cls (PBool true) [] Hflat).
  assert (Exists (fun f => positional_field (cls_vars cls) f = true \/
                           exists e, default_value (annotated_action (cls_vars cls) f)
                                     = Raise e)
                 (cls_hints cls)) as Hex'.
  { eapply Exists_impl; [exact Hex|]. intros f Hf. by left. }
  clear Hex. rename Hex' into Hex.
  destruct Hflat as (_ & _ & _ & Hnd & _).
  pose proof (flat_parse_nothing (cls_vars cls) (cls_hints cls) Hnd) as Hbad.
  unfold parse_truthy, parse_args, get_parser, flat_object.
  cbn [parser mbind res_bind default]. rewrite parse_nothing. cbn [actions].
  destruct (Hbad Hex) as [->|[ns ->]]; reflexivity.
Qed.

(** The class of scenario 1: the field [a] has no default. *)
Lemma X7_scenario1_witness :
  flat_class scenario1 /\
  Forall (fun f => plain_default (cls_vars scenario1) f = true) (cls_hints scenario1) /\
  positional_field (cls_vars scenario1) ("a", VClass Cint) = true /\
  __init__ scenario1 (PBool true) [] = Raise (SystemExit 2).
Proof.
  assert (Forall (fun f => plain_default (cls_vars scenario1) f = true)
                 (cls_hints scenario1)) as Hplain by (repeat constructor).
  split; [exact flat_class_scenario1|]. split; [exact Hplain|]. split; [reflexivity|].
  apply (X7_empty_command_line_exits scenario1 flat_class_scenario1 Hplain).
  left. reflexivity.
Defined.

(** ** Plain arguments and options on the command line *)

Lemma classify_all_arguments (reg : list (string * (nat * Action))) (l : list string) :
  Forall (fun t => starts_with_dash t = false) l ->
  classify_all reg l = Ok (map TArg l).
Proof.
  induction 1 as [|t l Ht Hl IH]; simpl; [done|].
  destruct (String.eqb_spec t "--") as [->|_]; [discriminate|].
  unfold classify. rewrite Ht. simpl. by rewrite IH.
Qed.


















(** ** A field named self *)

(** [make_call] cannot compile a parameter list that names [self] again. *)
Lemma make_call_self (self : ConfigBase) (l : list spec) :
  _settings self = SList l -> Forall built l ->
  (exists x, x ∈ l /\ parameter_name x = "self") ->
  make_call self = Raise SyntaxError.
Proof.
  intros Hl Hb (x & Hx & Hname). unfold make_call. rewrite Hl.
  rewrite (sorted_settings_flat l Hb). cbn [mbind res_bind].
  unfold compile_def. rewrite decide_False; [done|].
  intros Hnd. apply NoDup_cons in Hnd as [Hself _]. apply Hself.
  rewrite <- Hname. apply list_elem_of_fmap. exists x. split; [done|].
  rewrite filter_partition_Permutation. done.
Qed.

Lemma parameter_name_self (dflt typ : pyval) (positional : bool) :
  parameter_name (add_arg_format "self" dflt typ positional) = "self".
Proof. unfold add_arg_format. by destruct (is_bool_class typ), positional. Qed.

(** X9: a settings class without nested classes that has a field named
    [self] (an annotated field, or, when nothing is annotated, a parameter
    of [setup]) cannot be constructed: [make_call] puts the name behind
    the [self] of the synthesized [set_variables], and compiling the
    definition raises a SyntaxError, whatever [parse] is. *)
Theorem X9_field_named_self (cls : declaration) (parse : parse_option)
    (argv : list string) :
  annotation_groups_of cls = [] ->
  "self" ∈ keys (cls_hints cls) \/
  (cls_hints cls = [] /\ "self" ∈ keys (setup_parameters cls)) ->
  __init__ cls parse argv = Raise SyntaxError.
Proof.
  intros Hg Hself. unfold __init__.
  destruct Hself as [Hself|[Hh Hself]].
  - assert (cls_hints cls <> []) as Hh by (intros Heq; rewrite Heq in Hself; by inversion Hself).
    rewrite setup_fields_only by done. cbn [mbind res_bind].
    erewrite make_call_self; [done|reflexivity|apply annotated_specs_built|].
    apply list_elem_of_fmap in Hself as ([n typ] & Hn & Hin). simpl in Hn. subst n.
    exists (add_arg_format "self" (declared_default "self" (cls_vars cls)) typ
              (negb (has_key "self" (cls_vars cls)))).
    split; [|apply parameter_name_self].
    unfold annotated_specs. apply list_elem_of_fmap. by exists ("self", typ).
  - rewrite setup_signature by done. cbn [mbind res_bind].
    erewrite make_call_self; [done|reflexivity|apply signature_specs_built|].
    apply list_elem_of_fmap in Hself as ([n prm] & Hn & Hin). simpl in Hn. subst n.
    exists (add_arg_format "self" (p_default prm) (p_annotation prm)
              (negb (truthy (p_default prm)))).
    split; [|apply parameter_name_self].
    unfold signature_specs. apply list_elem_of_fmap. by exists ("self", prm).
Qed.

(** The class with the one field [self: int]. *)
Lemma X9_self_class_witness :
  annotation_groups_of self_class = [] /\
  __init__ self_class (PBool false) [] = Raise SyntaxError.
Proof.
  split; [reflexivity|].
  apply (X9_field_named_self self_class (PBool false) [] eq_refl).
  left. vm_compute. left.
Defined.
(** ** Nested classes that share an option *)

Lemma foldM_app {A B : Type} (f : A -> B -> res A) (l1 l2 : list B) (acc : A) :
  foldM f (l1 ++ l2)%list acc = (acc' ← foldM f l1 acc; foldM f l2 acc').
Proof.
  revert acc. induction l1 as [|x l1 IH]; intros acc; simpl; [done|].
  destruct (f acc x); simpl; [apply IH|done].
Qed.

(** An option that [add_argument] accepts is new to the parser. *)
Lemma add_argument_option (registered : list Action) (flag : string)
    (kw : gmap string pyval) (a : Action) :
  add_argument registered flag kw = Ok a -> starts_with_dash flag = true ->
  option_strings a = [flag] /\ ~ option_registered registered flag.
Proof.
  unfold add_argument. destruct flag as [|c rest]; [discriminate|].
  intros H Hdash.
  assert (c = "-"%char) as ->.
  { unfold starts_with_dash in Hdash.
    destruct c as [[] [] [] [] [] [] [] []]; try discriminate. reflexivity. }
  rewrite Ascii.eqb_refl in H.
  destruct (String.eqb (lstrip_dashes (String "-" rest)) ""); [discriminate|].
  cbn [mbind res_bind] in H.
  apply bind_Ok in H as (k & _ & H).
  destruct (negb (callable_type _)); [discriminate|].
  case_bool_decide as Hex; [discriminate|]. injection H as <-.
  split; [reflexivity|]. intros Hreg. apply Hex.
  unfold option_registered in Hreg. eapply Exists_impl; [exact Hreg|].
  intros b Hb. by left.
Qed.

(** Registering specs keeps the options held, adds the option of every
    spec with a dashed flag, and fails on one that is held already. *)
Lemma add_specs_options (l : list spec) :
  forall (acts added acts' added' : list Action),
    foldM (fun acc (setting : spec) =>
             a ← add_argument acc.1 setting.1 setting.2;
             Ok ((acc.1 ++ [a])%list, (acc.2 ++ [a])%list)) l (acts, added)
    = Ok (acts', added') ->
    (forall o, option_registered acts o -> option_registered acts' o) /\
    (forall s, s ∈ l -> starts_with_dash s.1 = true ->
               option_registered acts' s.1 /\ ~ option_registered acts s.1).
Proof.
  induction l as [|s l IH]; intros acts added acts' added' H.
  { injection H as <- <-. split; [done|]. intros s Hs. by inversion Hs. }
  simpl in H. apply bind_Ok in H as (acc1 & H1 & H).
  apply bind_Ok in H1 as (a & Ha & [= <-]).
  apply IH in H as [Hmono Hnew].
  assert (forall o, option_registered acts o -> option_registered (acts ++ [a]) o)
    as Hstep.
  { intros o Ho. apply Exists_app. by left. }
  split; [intros o Ho; by apply Hmono, Hstep|].
  intros s' Hs' Hdash. apply elem_of_cons in Hs' as [->|Hs'].
  - destruct (add_argument_option _ _ _ _ Ha Hdash) as [Hopt Hfree].
    split; [|done]. apply Hmono, Exists_app. right. constructor.
    rewrite Hopt. left.
  - destruct (Hnew s' Hs' Hdash) as [Hin Hout]. split; [done|].
    intros Ho. by apply Hout, Hstep.
Qed.

(** The same for the argument groups of [make_parser]. *)
Lemma add_groups_options (d : list (string * pyobj)) :
  forall (acc r : list Action * list (string * list Action)),
    foldM add_group d acc = Ok r ->
    (forall o, option_registered acc.1 o -> option_registered r.1 o) /\
    (forall g l s, (g, OSpecs l) ∈ d -> s ∈ l -> starts_with_dash s.1 = true ->
                   option_registered r.1 s.1 /\ ~ option_registered acc.1 s.1).
Proof.
  induction d as [|[g o] d IH]; intros acc r H.
  { injection H as <-. split; [done|]. intros g l s Hin. by inversion Hin. }
  simpl in H. apply bind_Ok in H as (acc1 & H1 & H).
  apply IH in H as [Hmono Hnew].
  assert ((forall o', option_registered acc.1 o' -> option_registered acc1.1 o') /\
          (forall l s, o = OSpecs l -> s ∈ l -> starts_with_dash s.1 = true ->
                       option_registered acc1.1 s.1 /\ ~ option_registered acc.1 s.1))
    as [Hmono1 Hnew1].
  { unfold add_group in H1. simpl in H1. destruct o as [[|c str]|l].
    - injection H1 as <-. split; [done|]. intros l s [=].
    - discriminate.
    - apply bind_Ok in H1 as ([acts' added'] & Hadd & [= <-]). simpl.
      unfold add_specs in Hadd. apply add_specs_options in Hadd as [Hm Hn].
      split; [done|]. intros l' s [= <-]. apply Hn. }
  split; [intros o' Ho'; by apply Hmono, Hmono1|].
  intros g' l s Hin Hs Hdash. apply elem_of_cons in Hin as [[= -> <-]|Hin].
  - destruct (Hnew1 l s eq_refl Hs Hdash) as [Hin1 Hout]. split; [|done].
    by apply Hmono.
  - destruct (Hnew g' l s Hin Hs Hdash) as [Hin1 Hout]. split; [done|].
    intros Ho. by apply Hout, Hmono1.
Qed.

(** Two groups of one collection cannot both hold a spec with the same
    dashed flag. *)
Lemma add_groups_shared_option (d : list (string * pyobj))
    (acc : list Action * list (string * list Action))
    (g1 g2 : string) (l1 l2 : list spec) (s1 s2 : spec) :
  (g1, OSpecs l1) ∈ d -> (g2, OSpecs l2) ∈ d -> g1 <> g2 ->
  s1 ∈ l1 -> s2 ∈ l2 -> s1.1 = s2.1 -> starts_with_dash s1.1 = true ->
  forall r, foldM add_group d acc <> Ok r.
Proof.
  assert (forall (g1 g2 : string) (l1 l2 : list spec) (s1 s2 : spec)
                 (d1 d2 : list (string * pyobj)),
            (g1, OSpecs l1) ∈ d1 ->
            s1 ∈ l1 -> s2 ∈ l2 -> s1.1 = s2.1 -> starts_with_dash s1.1 = true ->
            forall r, foldM add_group (d1 ++ (g2, OSpecs l2) :: d2)%list acc <> Ok r)
    as Hsplit.
  { clear. intros g1 g2 l1 l2 s1 s2 d1 d2 Hin1 Hs1 Hs2 Heq Hdash r H.
    rewrite foldM_app in H. apply bind_Ok in H as (acc1 & H1 & H2).
    apply add_groups_options in H1 as [_ Hnew1].
    apply add_groups_options in H2 as [_ Hnew2].
    destruct (Hnew1 g1 l1 s1 Hin1 Hs1 Hdash) as [Hin _].
    destruct (Hnew2 g2 l2 s2 ltac:(left) Hs2 ltac:(by rewrite <- Heq)) as [_ Hout].
    apply Hout. by rewrite <- Heq. }
  intros Hin1 Hin2 Hne Hs1 Hs2 Heq Hdash.
  apply list_elem_of_split in Hin2 as (d1 & d2 & ->).
  apply elem_of_app in Hin1 as [Hin1|Hin1].
  - by eapply Hsplit.
  - apply elem_of_cons in Hin1 as [[= ? _]|Hin1]; [done|].
    apply list_elem_of_split in Hin1 as (m1 & m2 & ->).
    replace (d1 ++ (g2, OSpecs l2) :: m1 ++ (g1, OSpecs l1) :: m2)%list
      with ((d1 ++ (g2, OSpecs l2) :: m1) ++ (g1, OSpecs l1) :: m2)%list
      by (by rewrite <- app_assoc).
    eapply (Hsplit g2 g1 l2 l1 s2 s1); [|done|done|done|by rewrite <- Heq].
    apply elem_of_app. right. left.
Qed.

Lemma group_spec_option (g : group_decl) (name : string) :
  optional_group_field g name = true ->
  exists s, s ∈ group_specs g /\ s.1 = "--" +:+ name.
Proof.
  unfold optional_group_field.
  destruct (assoc name (g_hints g)) as [typ|] eqn:Hty; [|discriminate].
  intros Hopt. apply assoc_Some_elem in Hty.
  exists (add_arg_format name
            (match assoc name (g_vars g) with Some v => v | None => VNone end)
            typ (negb (has_key name (g_vars g)))).
  split.
  - unfold group_specs. apply list_elem_of_fmap. by exists (name, typ).
  - unfold add_arg_format. destruct (is_bool_class typ); [done|].
    simpl in Hopt. by rewrite Hopt.
Qed.

(** X10: two nested classes that both have an optional field of the same
    name are introspected by [setup] without complaint, but no parser can
    be assembled from the result: [make_parser] registers the option
    [--name] for the first class and raises when the second brings it
    again. *)
Theorem X10_shared_option_breaks_parser (cls : declaration) (self : ConfigBase)
    (g1 g2 name : string) (c1 c2 : group_decl) :
  cls_hints cls = [] -> g1 <> g2 ->
  assoc g1 (cls_vars cls) = Some (Nested c1) ->
  assoc g2 (cls_vars cls) = Some (Nested c2) ->
  optional_group_field c1 name = true -> optional_group_field c2 name = true ->
  exists self1, setup cls self = Ok self1 /\ forall r, make_parser self1 <> Ok r.
Proof.
  intros Hh Hne H1 H2 Ho1 Ho2.
  assert (g1 ∈ annotation_groups_of cls) as Hg1.
  { apply assoc_Some_elem in H1. by eapply annotation_groups_of_elem. }
  assert (g2 ∈ annotation_groups_of cls) as Hg2.
  { apply assoc_Some_elem in H2. by eapply annotation_groups_of_elem. }
  rewrite setup_groups_only; [|done|intros Heq; rewrite Heq in Hg1; by inversion Hg1].
  eexists. split; [reflexivity|]. intros r. unfold make_parser. simpl.
  set (d := fold_left _ _ _).
  intros H. apply bind_Ok in H as (r' & H & _). revert H.
  destruct (group_spec_option c1 name Ho1) as (s1 & Hs1 & Hf1).
  destruct (group_spec_option c2 name Ho2) as (s2 & Hs2 & Hf2).
  apply (add_groups_shared_option d _ g1 g2 (group_specs c1) (group_specs c2) s1 s2);
    try done.
  - apply assoc_Some_elem. unfold d.
    rewrite (fold_assoc_set_lookup (fun g => OSpecs (group_specs (group_of cls g))))
      by (by left).
    unfold group_of. by rewrite H1.
  - apply assoc_Some_elem. unfold d.
    rewrite (fold_assoc_set_lookup (fun g => OSpecs (group_specs (group_of cls g))))
      by (by left).
    unfold group_of. by rewrite H2.
  - congruence.
  - by rewrite Hf1, flag_dashes.
Qed.

(** Two nested classes with the field [host: str] and a default each. *)
Lemma X10_two_groups_witness :
  exists self1,
    setup two_groups_class new_object = Ok self1 /\
    forall r, make_parser self1 <> Ok r.
Proof.
  apply (X10_shared_option_breaks_parser two_groups_class new_object "Net" "Db" "host"
           net_group {| g_hints := [("host", VClass Cstr)];
                        g_vars := [("host", VStr "db")] |});
    [reflexivity|discriminate|reflexivity|reflexivity|reflexivity|reflexivity].
Defined.
(** ** Calling twice *)

Lemma same_but_attrs_eq (self self' : ConfigBase) :
  same_but_attrs self self' -> attrs self' = attrs self -> self' = self.
Proof.
  destruct self, self'. unfold same_but_attrs. simpl.
  intros (-> & -> & -> & -> & -> & -> & -> & ->) ->. reflexivity.
Qed.

(** Setting the same values again changes nothing, when no name comes
    with two values. *)
Lemma set_settings_again (vardict : list (string * pyval)) (self : ConfigBase) :
  (forall e e', e ∈ vardict -> e' ∈ vardict -> e.1 = e'.1 -> e.2 = e'.2) ->
  set_settings vardict (set_settings vardict self) = set_settings vardict self.
Proof.
  intros Hfun. apply same_but_attrs_eq; [apply set_settings_same_but_attrs|].
  apply map_eq. intros k.
  destruct (decide (k ∈ keys vardict)) as [Hk|Hk].
  - pose proof Hk as Hk'. apply list_elem_of_fmap in Hk' as ([k' x] & -> & Hin).
    assert (Forall (fun e : string * pyval => e.1 = k' -> e.2 = x) vardict) as Hall.
    { apply Forall_forall. intros e He Heq. by apply (Hfun e (k', x)). }
    simpl. rewrite !(set_settings_lookup k' x) by (done || by left). done.
  - by rewrite set_settings_frame.
Qed.

Lemma bind_arguments_functional (params : list string) (args : list pyval)
    (kwargs locals : list (string * pyval)) :
  bind_arguments params args kwargs = Ok locals ->
  forall e e', e ∈ locals -> e' ∈ locals -> e.1 = e'.1 -> e.2 = e'.2.
Proof.
  unfold bind_arguments. intros H.
  apply bind_Ok in H as ([b r] & _ & H). cbv beta iota in H.
  apply bind_Ok in H as (bound & _ & H).
  apply mapR_lookup_spec in H as [_ Hf]. rewrite Forall_forall in Hf.
  intros e e' He He' Heq. apply Hf in He, He'. congruence.
Qed.

(** X11: on an object whose callable has parameters named unlike the
    attributes and methods of [ConfigBase], a call that returns can be
    repeated with the same arguments: the second call returns too and
    leaves the object as the first left it. *)
Theorem X11_call_twice (self self' : ConfigBase) (params : list string)
    (args : list pyval) (kwargs : list (string * pyval)) :
  call_params self = Some params -> plain_names params = true ->
  call self args kwargs = Ok self' -> call self' args kwargs = Ok self'.
Proof.
  unfold call. intros Hp _. rewrite Hp.
  intros H. apply bind_Ok in H as (locals & Hb & [= <-]).
  pose proof (set_settings_same_but_attrs locals self)
    as (_ & _ & _ & _ & -> & _ & _ & _).
  rewrite Hp, Hb. cbn [mbind res_bind]. f_equal.
  apply set_settings_again. by eapply bind_arguments_functional.
Qed.

(** The call [settings(5, b=2.0, c='z')] on the object of scenario 1. *)
Lemma X11_scenario1_witness :
  exists self',
    call scenario1_object [VInt 5] [("b", VFloat 2 0); ("c", VStr "z")] = Ok self' /\
    call self' [VInt 5] [("b", VFloat 2 0); ("c", VStr "z")] = Ok self'.
Proof.
  destruct (call scenario1_object [VInt 5] [("b", VFloat 2 0); ("c", VStr "z")])
    as [self'|e] eqn:Hcall; [|by vm_compute in Hcall].
  exists self'. split; [reflexivity|].
  exact (X11_call_twice scenario1_object self' ["a"; "b"; "c"] _ _ eq_refl eq_refl Hcall).
Defined.
(** ** Asking for help *)

(** X12: constructing a class with annotated fields only (none named
    like an attribute or a method of [ConfigBase]) from a token list that
    starts with [-h] or [--help], followed by plain arguments only,
    ends the process with exit status 0 and returns no object, whether or
    not the arguments would have been accepted. *)
Theorem X12_help_exits (cls : declaration) (h : string) (l argv : list string) :
  flat_class cls -> h = "-h" \/ h = "--help" ->
  Forall (fun t => starts_with_dash t = false) l ->
  __init__ cls (PList (h :: l)) argv = Raise (SystemExit 0).
Proof.
  intros Hflat Hh Hl. rewrite (init_flat_class cls (PList (h :: l)) argv Hflat).
  cbn [parse_truthy length Nat.eqb negb].
  unfold parse_args, get_parser, flat_object. cbn [parser mbind res_bind default].
  unfold ArgumentParser_parse_args. cbn [actions].
  set (acts := help_action :: map _ _).
  assert (exists rest, option_registry acts
                       = ("-h", (0%nat, help_action)) :: ("--help", (0%nat, help_action))
                         :: rest) as [rest Hreg] by (by eexists).
  rewrite Hreg. change (id (h :: l)) with (h :: l).
  assert (classify_all
            (("-h", (0%nat, help_action)) :: ("--help", (0%nat, help_action)) :: rest)
            (h :: l)
          = Ok (TOpt 0 help_action h None :: map TArg l)) as ->.
  { cbn [classify_all]. rewrite (classify_all_arguments _ l Hl).
    by destruct Hh as [->| ->]. }
  reflexivity.
Qed.

(** The class of scenario 1, asked for help with an argument that is no
    integer. *)
Lemma X12_scenario1_witness :
  flat_class scenario1 /\
  __init__ scenario1 (PList ["--help"; "five"]) [] = Raise (SystemExit 0).
Proof.
  split; [exact flat_class_scenario1|].
  apply (X12_help_exits scenario1 "--help" ["five"] [] flat_class_scenario1).
  - by right.
  - by repeat constructor.
Defined.
(** ** An optional field named help *)

(** Registering the spec of an optional field whose flag is taken. *)
Lemma add_argument_conflict (registered : list Action) (name : string)
    (dflt typ : pyval) (positional : bool) :
  identifier name = true -> callable_type typ = true ->
  is_bool_class typ = true \/ positional = false ->
  Exists (fun a => "--" +:+ name ∈ option_strings a) registered ->
  add_argument registered (add_arg_format name dflt typ positional).1
               (add_arg_format name dflt typ positional).2
  = Raise ArgumentError.
Proof.
  intros Hid Hcall Hopt Htaken.
  pose proof (identifier_facts name Hid) as (Hne & Hd & Hl & _ & Hu).
  assert (bool_decide
            (Exists (fun a : Action =>
                       Exists (fun o : string => o ∈ option_strings a) ["--" +:+ name])
                    registered) = true) as Hconflict.
  { apply bool_decide_eq_true_2. eapply Exists_impl; [exact Htaken|].
    intros a Ha. by left. }
  unfold add_arg_format.
  destruct (is_bool_class typ) eqn:Hb.
  - unfold add_argument. cbn [fst snd]. rewrite flag_dashes. cbn -[String.app].
    rewrite Hl, Hu. destruct (String.eqb_spec name "") as [?|_]; [done|].
    cbn [mbind res_bind]. simplify_map_eq. cbn [mbind res_bind negb callable_type].
    rewrite <- flag_dashes, Hconflict. reflexivity.
  - destruct Hopt as [?| ->]; [discriminate|].
    unfold add_argument. cbn [fst snd]. rewrite flag_dashes. cbn -[String.app].
    rewrite Hl, Hu. destruct (String.eqb_spec name "") as [?|_]; [done|].
    cbn [mbind res_bind]. simplify_map_eq. cbn [mbind res_bind].
    rewrite Hcall. cbn [negb].
    rewrite <- flag_dashes, Hconflict. reflexivity.
Qed.

(** X13: a class with annotated fields only, one of them an optional
    field named [help] (boolean, or with a value in the class body),
    cannot be constructed: [make_parser] asks the parser for the option
    [--help], which the parser holds already, and the ArgumentError of the
    parser ends the construction, whatever [parse] is. *)
Theorem X13_optional_field_named_help (cls : declaration) (typ : pyval)
    (parse : parse_option) (argv : list string) :
  ("help", typ) ∈ cls_hints cls ->
  annotation_groups_of cls = [] -> NoDup (keys (cls_hints cls)) ->
  Forall (fun f : string * pyval =>
            identifier f.1 = true /\ f.1 <> "self" /\ callable_type f.2 = true)
         (cls_hints cls) ->
  positional_field (cls_vars cls) ("help", typ) = false ->
  __init__ cls parse argv = Raise ArgumentError.
Proof.
  intros Hin Hg Hnd Hall Hopt.
  assert (cls_hints cls <> []) as Hh by (intros Heq; rewrite Heq in Hin; by inversion Hin).
  unfold __init__. rewrite setup_fields_only by done. cbn [mbind res_bind].
  erewrite make_call_flat; [|reflexivity| |done|].
  2: { eapply Forall_impl; [exact Hall|]. by intros f (? & _). }
  2: { intros Hself. apply list_elem_of_fmap in Hself as (f & Hf & Hfin).
       rewrite Forall_forall in Hall. destruct (Hall f Hfin) as (_ & Hne & _). done. }
  cbn [mbind res_bind]. unfold make_parser.
  cbn [groups _settings set_call_params set__settings set__annotation_groups
       set__annotations set_groups new_object].
  apply list_elem_of_split in Hin as (l1 & l2 & Hsplit).
  rewrite Hsplit in Hnd, Hall |- *.
  unfold keys in Hnd. rewrite map_app in Hnd. apply NoDup_app in Hnd as (Hnd1 & Hdisj & _).
  apply Forall_app in Hall as [Hall1 Hall2]. apply Forall_cons in Hall2 as [(Hid & _ & Hcall) _].
  assert (annotated_specs (l1 ++ ("help", typ) :: l2) (cls_vars cls)
          = (annotated_specs l1 (cls_vars cls)
             ++ add_arg_format "help" (declared_default "help" (cls_vars cls)) typ
                  (negb (has_key "help" (cls_vars cls)))
                :: annotated_specs l2 (cls_vars cls))%list) as Hspecs.
  { unfold annotated_specs. by rewrite map_app. }
  unfold add_specs. rewrite Hspecs, foldM_app.
  rewrite (add_specs_fields (cls_vars cls) l1); [|done|].
  - cbn [mbind res_bind map foldM fst snd].
    rewrite add_argument_conflict; [done|done|done| |].
    + unfold positional_field in Hopt. cbn [fst snd] in Hopt.
      destruct (is_bool_class typ); [by left|right].
      by destruct (has_key "help" (cls_vars cls)).
    + constructor. right. left.
  - apply Forall_forall. intros f Hf. rewrite Forall_forall in Hall1.
    destruct (Hall1 f Hf) as (Hidf & _ & Hcallf).
    split; [done|]. split; [done|]. constructor; [|done].
    apply flag_not_help. intros Heq. apply (Hdisj "help").
    + rewrite <- Heq. apply list_elem_of_fmap. by exists f.
    + left.
Qed.

(** The class [n: int; help: str = 'none']. *)
Lemma X13_help_class_witness :
  ("help", VClass Cstr) ∈ cls_hints help_class /\
  __init__ help_class (PBool false) [] = Raise ArgumentError.
Proof.
  split; [right; left|].
  apply (X13_optional_field_named_help help_class (VClass Cstr) (PBool false) []).
  - right. left.
  - reflexivity.
  - apply (bool_decide_unpack _). by vm_compute.
  - repeat constructor; done.
  - reflexivity.
Defined.
(** ** A call after a parse *)

(** X14: on an object whose callable has parameters named unlike the
    attributes and methods of [ConfigBase], a call of the synthesized
    callable never touches the parsed namespace: after it, every key read
    and the text of the object are what they were before.  An object that
    was only called still shows as uninitialised, and on a parsed object
    the key read keeps returning the parsed value of a field while the
    attribute holds the value of the call. *)
Theorem X14_call_keeps_namespace (self self' : ConfigBase) (params : list string)
    (args : list pyval) (kwargs : list (string * pyval)) :
  call_params self = Some params -> plain_names params = true ->
  call self args kwargs = Ok self' ->
  settings self' = settings self /\
  (forall k, __getitem__ self' k = __getitem__ self k) /\
  (forall class_name, __repr__ class_name self' = __repr__ class_name self).
Proof.
  intros _ _ Hcall.
  apply call_Ok_inv in Hcall as (params' & locals & _ & _ & -> & _ & _).
  pose proof (set_settings_same_but_attrs locals self)
    as (_ & _ & _ & _ & _ & _ & _ & Hset).
  split; [done|]. unfold __getitem__, __repr__. by rewrite Hset.
Qed.

(** The class of scenario 1, parsed from [5] and then called with 7 for
    the field [a]. *)
Lemma X14_scenario1_witness :
  exists self1 self2,
    __init__ scenario1 (PList ["5"]) [] = Ok self1 /\
    call self1 [VInt 7; VFloat 1 (-1); VStr "a"] [] = Ok self2 /\
    attrs self2 !! "a" = Some (VInt 7) /\
    __getitem__ self2 "a" = Value (VInt 5) /\
    __repr__ "Settings" self2 = __repr__ "Settings" self1.
Proof.
  destruct (__init__ scenario1 (PList ["5"]) []) as [self1|e] eqn:Hinit;
    [|by vm_compute in Hinit].
  destruct (call self1 [VInt 7; VFloat 1 (-1); VStr "a"] []) as [self2|e] eqn:Hcall;
    [|vm_compute in Hinit; injection Hinit as <-; by vm_compute in Hcall].
  exists self1, self2. split; [reflexivity|]. split; [exact Hcall|].
  assert (call_params self1 = Some ["a"; "b"; "c"]) as Hparams.
  { vm_compute in Hinit. injection Hinit as <-. reflexivity. }
  destruct (X14_call_keeps_namespace self1 self2 ["a"; "b"; "c"] _ _ Hparams eq_refl Hcall)
    as (_ & Hget & Hrepr).
  split; [|split; [|apply Hrepr]].
  - vm_compute in Hinit. injection Hinit as <-.
    vm_compute in Hcall. injection Hcall as <-. by vm_compute.
  - rewrite Hget. vm_compute in Hinit. injection Hinit as <-. by vm_compute.
Defined.
(** ** A class declared by the signature of setup *)

(** X15: a class without annotated fields and without nested classes
    (its fields are the parameters of [setup], each with a default, as the
    constructor calls [setup] without arguments, and none named like an
    attribute or a method of [ConfigBase]) gets no instance attribute from
    a construction, parsed or not: [_annotations] is empty, so the
    copy-back loop of [parse_args] has nothing to copy.  The parsed values
    are in the namespace only, where the key read and the attribute
    fallback find them. *)
Theorem X15_signature_class_sets_no_attribute (cls : declaration)
    (parse : parse_option) (argv : list string) (self' : ConfigBase) :
  proper_class cls = true ->
  cls_hints cls = [] -> annotation_groups_of cls = [] ->
  __init__ cls parse argv = Ok self' ->
  attrs self' = ∅ /\ _annotations self' = [] /\
  forall ns k v,
    settings self' = Some ns -> ns !! k = Some v -> plain_name k = true ->
    __getitem__ self' k = Value v /\ __getattr__ self' k = Value v.
Proof.
  intros _ Hh Hg. unfold __init__. rewrite setup_signature by done.
  cbn [mbind res_bind]. intros H.
  apply bind_Ok in H as (self1 & Hcall & H).
  apply bind_Ok in H as (self2 & Hparser & H).
  assert (attrs self2 = ∅ /\ _annotations self2 = [] /\ settings self2 = None)
    as (Hattrs & Hann & Hset).
  { unfold make_call in Hcall. apply bind_Ok in Hcall as (sorted & _ & Hcall).
    apply bind_Ok in Hcall as (params & _ & [= <-]).
    unfold make_parser in Hparser. simpl in Hparser.
    apply bind_Ok in Hparser as (r & _ & [= <-]). done. }
  assert (forall (args : option (list string)) r,
            parse_args self2 args argv = Ok r ->
            attrs r.1 = ∅ /\ _annotations r.1 = [] /\ settings r.1 = Some r.2)
    as Hparse.
  { intros args [self3 ns] Hrun.
    pose proof Hrun as Hrun'. apply parse_args_inv in Hrun' as (p & Hp & Hns & _).
    destruct (parse_args_intro self2 p args argv ns Hp Hns)
      as (self4 & H4 & Hsame & Hattrs4).
    rewrite Hrun in H4. injection H4 as <-.
    destruct Hsame as (_ & Hann4 & _ & _ & _ & _ & _ & Hset4). simpl in *.
    split; [|split; [congruence|done]].
    apply map_eq. intros k. rewrite Hattrs4, Hann, Hattrs.
    by rewrite bool_decide_eq_false_2 by (by inversion 1). }
  assert (attrs self' = ∅ /\ _annotations self' = [] /\
          forall ns, settings self' = Some ns -> True) as (Ha & Hb & _).
  { destruct parse as [[]|[|t l]].
    - apply bind_Ok in H as (r & Hr & [= <-]). by destruct (Hparse _ _ Hr) as (? & ? & _).
    - injection H as <-. done.
    - injection H as <-. done.
    - apply bind_Ok in H as (r & Hr & [= <-]). by destruct (Hparse _ _ Hr) as (? & ? & _). }
  split; [done|]. split; [done|].
  intros ns k v Hs Hk _. unfold __getitem__, __getattr__. by rewrite Hs, Hk.
Qed.

(** The class with [def setup(_, n: int = 0, m: int = 5)], parsed from
    the argument 3: the parameter [n], whose default is falsy, is the
    positional argument. *)
Lemma X15_defaults_signature_witness :
  proper_class defaults_signature_class = true /\
  exists self',
    __init__ defaults_signature_class (PList ["3"]) [] = Ok self' /\
    attrs self' !! "n" = None /\
    __getattr__ self' "n" = Value (VInt 3) /\
    __getitem__ self' "m" = Value (VInt 5).
Proof.
  split; [reflexivity|].
  destruct (__init__ defaults_signature_class (PList ["3"]) []) as [self'|e] eqn:Hinit;
    [|by vm_compute in Hinit].
  exists self'. split; [reflexivity|].
  destruct (X15_signature_class_sets_no_attribute defaults_signature_class
              (PList ["3"]) [] self' eq_refl eq_refl eq_refl Hinit)
    as (Hattrs & _ & Hread).
  split; [by rewrite Hattrs|].
  vm_compute in Hinit. injection Hinit as <-. split; by vm_compute.
Defined.
(** * Properties of the report section keywords *)

Lemma assoc_set_lookup {V : Type} (k k' : string) (v : V) (d : list (string * V)) :
  assoc k (assoc_set k' v d) = if String.eqb k k' then Some v else assoc k d.
Proof.
  destruct (String.eqb_spec k k') as [->|Hne].
  - apply assoc_set_eq.
  - by apply assoc_set_ne.
Qed.

Lemma assoc_set_nonempty {V : Type} (k : string) (v : V) (d : list (string * V)) :
  assoc_set k v d <> [].
Proof. destruct d as [|[k' v'] d]; simpl; [done|]. by destruct (String.eqb k k'). Qed.

Lemma dict_of_nonempty {V : Type} (l : list (string * V)) :
  nonempty (dict_of l) = nonempty l.
Proof.
  unfold dict_of. destruct l as [|x l]; [done|]. simpl.
  assert (forall d : list (string * V), d <> [] ->
            fold_left (fun d (kv : string * V) => assoc_set kv.1 kv.2 d) l d <> [])
    as Hfold.
  { induction l as [|y l IH]; intros d Hd; [done|]. simpl.
    apply IH, assoc_set_nonempty. }
  specialize (Hfold (assoc_set x.1 x.2 []) (assoc_set_nonempty _ _ _)).
  unfold nonempty. by destruct (fold_left _ l _).
Qed.

(** A dictionary built from the pairs whose key passes a test has, at a
    key that passes, the value of the dictionary built from all pairs, and
    nothing at a key that fails. *)
Lemma dict_of_filter_keys {V : Type} (P : string -> bool) (l : list (string * V))
    (k : string) :
  assoc k (dict_of (List.filter (fun r => P r.1) l))
  = if P k then assoc k (dict_of l) else None.
Proof.
  unfold dict_of.
  assert (forall d d' : list (string * V),
            assoc k d' = (if P k then assoc k d else None) ->
            assoc k (fold_left (fun d (kv : string * V) => assoc_set kv.1 kv.2 d)
                       (List.filter (fun r => P r.1) l) d')
            = if P k
              then assoc k (fold_left (fun d (kv : string * V) => assoc_set kv.1 kv.2 d) l d)
              else None) as Hgen.
  { induction l as [|x l IH]; intros d d' Hd; [done|]. simpl.
    destruct (P x.1) eqn:Hx; simpl; apply IH; rewrite ?assoc_set_lookup.
    - destruct (String.eqb_spec k x.1) as [->|Hne]; [by rewrite Hx|done].
    - destruct (String.eqb_spec k x.1) as [->|Hne]; [by rewrite Hx in Hd |- *|done]. }
  apply Hgen. by destruct (P k).
Qed.

Lemma filter_all {A : Type} (f : A -> bool) (l : list A) :
  (forall x, f x = true) -> List.filter f l = l.
Proof. intros Hf. induction l as [|x l IH]; simpl; [done|]. by rewrite Hf, IH. Qed.

Lemma filter_nonempty {A : Type} (f : A -> bool) (l : list A) :
  nonempty (List.filter f l) = existsb f l.
Proof.
  induction l as [|x l IH]; simpl; [done|]. destruct (f x); simpl; [done|exact IH].
Qed.

(** X16: the keyword dictionary built from a list of pairs.  If the list
    holds a table (a data frame or a series), the filter of line 68 lets
    every pair through: at any key other than figures, tables and title
    the dictionary has the value of the last pair with that key, figures
    and tables included, beside the collected dictionaries.  If it holds no
    table, the pairs whose key names a figure are left out, and the others
    are kept. *)
Theorem X16_section_pairs_kept (function : string) (l : list (string * section_value))
    (k : string) :
  k <> "figures" -> k <> "tables" -> k <> "title" ->
  assoc k (section_keywords function (ResultList l))
  = if existsb (fun r => is_table r.2) l then assoc k (dict_of l)
    else if has_key k (figures_of l) then None
    else assoc k (dict_of l).
Proof.
  intros Hf Ht Hti. unfold section_keywords.
  set (kept := dict_of (List.filter _ l)).
  assert (assoc k kept
          = if existsb (fun r => is_table r.2) l then assoc k (dict_of l)
            else if has_key k (figures_of l) then None
            else assoc k (dict_of l)) as Hkept.
  { unfold kept.
    assert (nonempty (keys (tables_of l)) = existsb (fun r => is_table r.2) l) as ->.
    { unfold nonempty, keys. rewrite length_map. fold (nonempty (tables_of l)).
      unfold tables_of. by rewrite dict_of_nonempty, filter_nonempty. }
    destruct (existsb _ l).
    - rewrite filter_all; [done|]. intros x. apply orb_true_r.
    - rewrite (List.filter_ext _ (fun r => negb (has_key r.1 (figures_of l))))
        by (intros x; apply orb_false_r).
      rewrite (dict_of_filter_keys (fun k => negb (has_key k (figures_of l)))).
      by destruct (has_key k (figures_of l)). }
  assert (forall (d : list (string * section_value)) v,
            assoc k (assoc_set "title" v d) = assoc k d) as Htitle.
  { intros d v. rewrite assoc_set_lookup. by destruct (String.eqb_spec k "title"). }
  assert (forall (d : list (string * section_value)) v,
            assoc k (assoc_set "figures" v d) = assoc k d) as Hfig.
  { intros d v. rewrite assoc_set_lookup. by destruct (String.eqb_spec k "figures"). }
  assert (forall (d : list (string * section_value)) v,
            assoc k (assoc_set "tables" v d) = assoc k d) as Htab.
  { intros d v. rewrite assoc_set_lookup. by destruct (String.eqb_spec k "tables"). }
  destruct (nonempty (figures_of l)), (nonempty (tables_of l)), (negb (has_key "title" _));
    rewrite ?Htitle, ?Htab, ?Hfig; exact Hkept.
Qed.

(** A table and a figure: the figure stays at the top level, beside the
    collected figures. *)
Lemma X16_table_and_figure_witness :
  assoc "fig 1" (section_keywords "section_1" (ResultList table_and_figure))
  = Some (Figure 2) /\
  assoc "figures" (section_keywords "section_1" (ResultList table_and_figure))
  = Some (Collected [("fig 1", Figure 2)]).
Proof.
  split; [|reflexivity].
  rewrite (X16_section_pairs_kept "section_1" table_and_figure "fig 1");
    [reflexivity|discriminate|discriminate|discriminate].
Defined.

Lemma replace_underscores_spec (s : string) :
  String.length (replace_underscores s) = String.length s /\
  contains_char "_" (replace_underscores s) = false.
Proof.
  induction s as [|c s [IH1 IH2]]; [done|]. simpl. rewrite IH1, IH2. split; [done|].
  destruct (Ascii.eqb_spec c "_") as [->|Hne]; [done|].
  rewrite orb_false_r. by apply Ascii.eqb_neq.
Qed.

Lemma ascii_case_underscore (c : ascii) :
  Ascii.eqb c "_" = false ->
  Ascii.eqb (ascii_upper c) "_" = false /\ Ascii.eqb (ascii_lower c) "_" = false.
Proof. destruct c as [[] [] [] [] [] [] [] []]; by vm_compute. Qed.

Lemma capitalize_spec (s : string) :
  contains_char "_" s = false ->
  String.length (capitalize s) = String.length s /\
  contains_char "_" (capitalize s) = false.
Proof.
  assert (forall s, contains_char "_" s = false ->
            String.length (lower s) = String.length s /\
            contains_char "_" (lower s) = false) as Hlower.
  { clear s. induction s as [|c s IH]; [done|]. simpl. intros H.
    apply orb_false_iff in H as [Hc Hs]. destruct (IH Hs) as [-> ->].
    split; [done|]. by rewrite (proj2 (ascii_case_underscore c Hc)). }
  destruct s as [|c s]; [done|]. simpl. intros H.
  apply orb_false_iff in H as [Hc Hs]. destruct (Hlower s Hs) as [-> ->].
  split; [done|]. by rewrite (proj1 (ascii_case_underscore c Hc)).
Qed.

(** X17: for a function with an ASCII name, the keyword dictionary
    always has a title.  One that the section function gave in a dictionary
    is kept, and the dictionary with it; a missing one is derived from the
    name of the function, every underscore a blank, the first letter in
    upper case and the others in lower case: a text of the same length
    without underscores.  No other key of a given dictionary changes. *)
Theorem X17_section_title (function : string) :
  ascii_string function = true ->
  (forall result, has_key "title" (section_keywords function result) = true) /\
  (forall d, has_key "title" d = true -> section_keywords function (ResultDict d) = d) /\
  (forall d, has_key "title" d = false ->
     exists title,
       assoc "title" (section_keywords function (ResultDict d)) = Some (Plain (VStr title)) /\
       title = capitalize (replace_underscores function) /\
       String.length title = String.length function /\
       contains_char "_" title = false /\
       forall k, k <> "title" ->
         assoc k (section_keywords function (ResultDict d)) = assoc k d).
Proof.
  intros _. split; [|split].
  - intros result. unfold section_keywords.
    destruct (negb (has_key "title" _)) eqn:Hn.
    + unfold has_key. by rewrite assoc_set_eq.
    + by apply negb_false_iff in Hn.
  - intros d Hd. unfold section_keywords. by rewrite Hd.
  - intros d Hd. unfold section_keywords. rewrite Hd. simpl negb. cbv iota.
    eexists. split; [apply assoc_set_eq|]. split; [reflexivity|].
    destruct (replace_underscores_spec function) as [Hlen Hno].
    destruct (capitalize_spec _ Hno) as [Hlen' Hno'].
    split; [congruence|]. split; [done|].
    intros k Hk. by apply assoc_set_ne.
Qed.

(** The section function [load_data] gets the title [Load data]. *)
Lemma X17_load_data_witness :
  ascii_string "load_data" = true /\
  assoc "title" (section_keywords "load_data" (ResultDict []))
  = Some (Plain (VStr "Load data")).
Proof.
  split; [reflexivity|].
  destruct (X17_section_title "load_data" eq_refl) as (_ & _ & Htitle).
  destruct (Htitle [] eq_refl) as (title & Ht & -> & _). exact Ht.
Defined.
